(** * attgo-linter: a shallow embedding of the analyzers and of the plugin
    configuration, with the properties of their specification.

    The development has two parts.  Part I embeds the Go sources: the
    fragment of [go/ast] and [go/types] the analyzers consult, the [strings]
    helpers they call, and then one module per Go package.  Part II states
    and proves the properties, one module of facts per package. *)

From Stdlib Require Import ZArith List Bool Ascii String Sorted Lia.
From Stdlib Require Import DecimalString.
From stdpp Require Import base option list gmap strings.

Import ListNotations.
#[local] Set Warnings "-register-all".
Local Open Scope string_scope.
Local Open Scope list_scope.

(* ===================================================================== *)
(** * Part I. The embedding                                               *)
(* ===================================================================== *)

(** ** The [strings] package of the Go library

    Go strings are byte sequences; [string] is a sequence of [ascii], that
    is of bytes.  The helpers follow the library's definitions:
    [HasPrefix s p] is [len(s) >= len(p) && s[:len(p)] == p] and so on. *)
Module Strings.

Fixpoint take (n : nat) (s : string) : string :=
  match n, s with
  | S n', String c s' => String c (take n' s')
  | _, _ => EmptyString
  end.

Fixpoint drop (n : nat) (s : string) : string :=
  match n, s with
  | S n', String _ s' => drop n' s'
  | _, _ => s
  end.

Definition len (s : string) : nat := String.length s.

Definition HasPrefix (s prefix : string) : bool :=
  (len prefix <=? len s)%nat && String.eqb (take (len prefix) s) prefix.

Definition HasSuffix (s suffix : string) : bool :=
  (len suffix <=? len s)%nat
  && String.eqb (drop (len s - len suffix) s) suffix.

Definition TrimPrefix (s prefix : string) : string :=
  if HasPrefix s prefix then drop (len prefix) s else s.

Definition TrimSuffix (s suffix : string) : string :=
  if HasSuffix s suffix then take (len s - len suffix) s else s.

(** [ToLower] on the ASCII range: the bytes of [A-Z] are mapped to [a-z],
    every other byte is kept. *)
Definition lowerByte (c : ascii) : ascii :=
  let n := nat_of_ascii c in
  if (65 <=? n)%nat && (n <=? 90)%nat then ascii_of_nat (n + 32) else c.

Fixpoint ToLower (s : string) : string :=
  match s with
  | EmptyString => EmptyString
  | String c s' => String (lowerByte c) (ToLower s')
  end.

(** [Contains s substr]: [substr] starts at some index of [s]. *)
Fixpoint Contains (s substr : string) : bool :=
  HasPrefix s substr
  || match s with
     | EmptyString => false
     | String _ s' => Contains s' substr
     end.

End Strings.

(** ** The fragment of [go/token], [go/ast] and [go/types] the analyzers use *)
Module token.
(** A position in the file set; [NoPos] is the zero value. *)
Definition Pos := Z.
Definition NoPos : Pos := 0%Z.

Inductive Token :=
| ILLEGAL | INT | FLOAT | IMAG | CHAR | STRING
| IMPORT | CONST | TYPE | VAR.

Definition eqb (a b : Token) : bool :=
  match a, b with
  | ILLEGAL, ILLEGAL | INT, INT | FLOAT, FLOAT | IMAG, IMAG | CHAR, CHAR
  | STRING, STRING | IMPORT, IMPORT | CONST, CONST | TYPE, TYPE
  | VAR, VAR => true
  | _, _ => false
  end.
End token.

Module ast.
Import token.

Record Ident := mkIdent { NamePos : Pos; Name : string }.
Arguments mkIdent NamePos%_Z Name%_string.

(** Expressions and type expressions.  Only the node kinds an analyzer
    tests for carry their children; every other node is [OtherExpr]. *)
Inductive Expr :=
| EIdent (id : Ident)
| BasicLit (ValuePos : Pos) (Kind : Token) (Value : string)
| SelectorExpr (X : Expr) (Sel : Ident)
| StarExpr (X : Expr)
| ParenExpr (X : Expr)
| CallExpr (Fun : Expr) (Args : list Expr)
| Ellipsis (Elt : Expr)
| ChanType (Value : Expr)
| FuncType (Params Results : option (list Field))
| StructType (Fields : option (list Field))
| InterfaceType (Methods : option (list Field))
| OtherExpr
with Field :=
| mkField (Names : list Ident) (Typ : Expr).

Arguments BasicLit ValuePos%_Z Kind Value%_string.

Definition fieldNames (f : Field) : list Ident :=
  match f with mkField names _ => names end.
Definition fieldType (f : Field) : Expr :=
  match f with mkField _ t => t end.

(** [*ast.FieldList]: nil, or the list it holds. *)
Definition FieldList := option (list Field).

Record ValueSpec := mkValueSpec {
  vsNames : list Ident;
  vsType : option Expr;
  vsValues : list Expr
}.

Record TypeSpec := mkTypeSpec {
  tsName : Ident;
  tsType : Expr
}.

Inductive Spec :=
| ImportSpec
| SValue (vs : ValueSpec)
| SType (ts : TypeSpec).

Record GenDecl := mkGenDecl {
  Tok : Token;
  Specs : list Spec
}.

(** Statements of a function body: declarations, or anything else. *)
Inductive Stmt :=
| DeclStmt (d : GenDecl)
| OtherStmt.

Record FuncDecl := mkFuncDecl {
  Recv : FieldList;
  fdName : Ident;
  fdParams : FieldList;
  fdResults : FieldList;
  Body : list Stmt
}.

Inductive Decl :=
| DGen (d : GenDecl)
| DFunc (d : FuncDecl).

Record Comment := mkComment { Slash : Pos; Text : string }.
Arguments mkComment Slash%_Z Text%_string.

Record CommentGroup := mkCommentGroup { List : list Comment }.

Record File := mkFile {
  Package : Pos;
  Comments : list CommentGroup;
  Decls : list Decl
}.
Arguments mkFile Package%_Z Comments Decls.
End ast.

Module types.
(** The kinds of basic types; [String_] is [types.String]. *)
Inductive BasicKind :=
| Invalid | Bool | Int | Int64 | Uint | Uint64 | Float64 | String_
| UntypedBool | UntypedInt | UntypedFloat | UntypedString | UntypedNil.

(** A [types.Type] value, written [Typ] as [Type] is reserved.  [Nil] is
    the nil interface value; a [Named] type carries the name of its
    declaring object and its underlying type; an interface type carries the
    names of its methods; every other kind of type is [OtherType]. *)
Inductive Typ :=
| Nil
| Basic (kind : BasicKind)
| Named (obj : string) (underlying : Typ)
| Pointer (base : Typ)
| Struct (NumFields : nat)
| Interface (Methods : list string)
| OtherType (id : nat).

Definition Underlying (t : Typ) : Typ :=
  match t with
  | Named _ u => u
  | _ => t
  end.

Definition NewPointer (t : Typ) : Typ := Pointer t.

Definition NumMethods (Methods : list string) : nat := length Methods.

(** Scopes are compared by identity only. *)
Definition Scope := nat.

Inductive ObjectKind := TypeName | Var | Const | Func | PkgName.

Record Object := mkObject {
  Kind : ObjectKind;
  objName : string;
  objType : Typ;
  Parent : option Scope;      (* nil for fields and methods *)
  PkgScope : Scope            (* [obj.Pkg().Scope()] *)
}.

(** The functions of the type checker the analyzers call. *)
Class Checker := {
  TypeString : Typ -> string;          (* [types.TypeString(t, nil)] *)
  Implements : Typ -> Typ -> bool       (* [types.Implements(V, T)] *)
}.
End types.

(** ** Package [analysis]: a pass and its diagnostics *)
Module analysis.
Record Diagnostic := mkDiagnostic {
  Pos : token.Pos;
  Message : string
}.

Record Pass := mkPass {
  Files : list ast.File;
  (** [pass.TypesInfo.ObjectOf] *)
  ObjectOf : ast.Ident -> option types.Object;
  (** [pass.Pkg.Scope()]: the objects declared at package level *)
  Pkg : gmap string types.Object
}.

(** The double quote, and [%q] on a string without special characters. *)
Definition dquote : string := String (ascii_of_nat 34) EmptyString.
Definition Quote (s : string) : string := dquote +:+ s +:+ dquote.
End analysis.

(** ** Package [nopkglogger] *)
Module nopkglogger.
Import ast types analysis.

Record runner := mkRunner { loggerTypePatterns : list string }.

(** The first part of [matchTypePattern] either returns false ([None]) or
    leaves the two variables, stripped of the pointer marker. *)
Definition stripPointer (typeName pattern : string)
    : option (string * string) :=
  if Strings.HasPrefix pattern "*" then
    if negb (Strings.HasPrefix typeName "*") then None
    else Some (Strings.TrimPrefix typeName "*",
               Strings.TrimPrefix pattern "*")
  else if Strings.HasPrefix typeName "*" then None
  else Some (typeName, pattern).

Definition matchTypePattern (typeName pattern : string) : bool :=
  match stripPointer typeName pattern with
  | None => false
  | Some (typeName, pattern) =>
      if Strings.HasSuffix typeName pattern then
        let prefix := Strings.TrimSuffix typeName pattern in
        if String.eqb prefix "" || Strings.HasSuffix prefix "/"
           || Strings.HasSuffix prefix "."
        then true
        else false
      else false
  end.

Section WithChecker.
Context `{Checker}.

Definition typeString (t : Typ) : string := TypeString t.

Definition isLoggerType (r : runner) (t : Typ) : bool :=
  let typeName := typeString t in
  existsb (fun pattern => matchTypePattern typeName pattern)
          (loggerTypePatterns r).

Definition report (name : Ident) : Diagnostic :=
  mkDiagnostic (NamePos name)
    ("package-level logger " +:+ Quote (Name name) +:+
     " detected; loggers should be struct fields for better dependency injection and testability").

Definition scopeEq (a : option Scope) (b : Scope) : bool :=
  match a with
  | Some a => Nat.eqb a b
  | None => false
  end.

Definition checkName (r : runner) (pass : Pass) (name : Ident)
    : list Diagnostic :=
  match ObjectOf pass name with
  | None => []
  | Some obj =>
      if negb (scopeEq (Parent obj) (PkgScope obj)) then []
      else if isLoggerType r (objType obj) then [report name]
      else []
  end.

Definition run (r : runner) (pass : Pass) : list Diagnostic :=
  flat_map (fun file =>
    flat_map (fun decl =>
      match decl with
      | DGen genDecl =>
          flat_map (fun spec =>
            match spec with
            | SValue valueSpec =>
                flat_map (checkName r pass) (vsNames valueSpec)
            | _ => []
            end) (Specs genDecl)
      | _ => []
      end) (Decls file)) (Files pass).
End WithChecker.

(** The contract [matches(typeName, pattern)] in the words of the
    specification, to compare [matchTypePattern] with. *)
Definition startsWithMarker (s : string) : Prop :=
  exists rest, s = "*" +:+ rest.

Definition atBoundary (typeName pattern : string) : Prop :=
  exists prefix,
    typeName = prefix +:+ pattern
    /\ (prefix = ""
        \/ (exists p, prefix = p +:+ "/")
        \/ (exists p, prefix = p +:+ ".")).

Definition matches (typeName pattern : string) : Prop :=
  (exists t p,
      typeName = "*" +:+ t /\ pattern = "*" +:+ p /\ atBoundary t p)
  \/ (~ startsWithMarker pattern /\ ~ startsWithMarker typeName
      /\ atBoundary typeName pattern).

(** The identifiers a unit declares in top-level value specifications. *)
Definition topLevelNames (pass : Pass) : list Ident :=
  flat_map (fun file =>
    flat_map (fun decl =>
      match decl with
      | DGen genDecl =>
          flat_map (fun spec =>
            match spec with
            | SValue valueSpec => vsNames valueSpec
            | _ => []
            end) (Specs genDecl)
      | _ => []
      end) (Decls file)) (Files pass).
End nopkglogger.

(** ** Test data of [nopkglogger] *)
Module nopkglogger_testdata.
Import ast types analysis nopkglogger.

(** The unit of the analyzer's test data: a package-level logger, a
    logger struct field and a function-local logger. *)
Definition zerologLogger : Typ := Named "Logger" (Struct 0).

Definition testChecker : Checker := {|
  TypeString t :=
    match t with
    | Named n _ => "nopkglogger/zerolog." +:+ n
    | Pointer (Named n _) => "*nopkglogger/zerolog." +:+ n
    | _ => "int"
    end;
  Implements _ _ := false
|}.

Definition testRunner : runner :=
  mkRunner ["zerolog.Logger"; "*zerolog.Logger"].

Definition logIdent : Ident := mkIdent 100 "log".
Definition fieldIdent : Ident := mkIdent 200 "log".
Definition localIdent : Ident := mkIdent 300 "localLog".

Definition testPass : Pass := {|
  Files :=
    [ mkFile 10 []
        [ DGen (mkGenDecl token.VAR
            [SValue (mkValueSpec [logIdent]
                       (Some (SelectorExpr (EIdent (mkIdent 104 "zerolog"))
                                           (mkIdent 112 "Logger"))) [])]);
          DGen (mkGenDecl token.TYPE
            [SType (mkTypeSpec (mkIdent 150 "Service")
               (StructType (Some
                  [mkField [fieldIdent]
                     (SelectorExpr (EIdent (mkIdent 204 "zerolog"))
                                   (mkIdent 212 "Logger"))])))]);
          DFunc (mkFuncDecl None (mkIdent 250 "doSomething")
                   (Some []) None
                   [DeclStmt (mkGenDecl token.VAR
                      [SValue (mkValueSpec [localIdent]
                         (Some (SelectorExpr (EIdent (mkIdent 310 "zerolog"))
                                             (mkIdent 318 "Logger"))) [])])])
        ] ];
  ObjectOf id :=
    if Z.eqb (NamePos id) 100%Z then
      Some (mkObject Var "log" zerologLogger (Some 1) 1)
    else if Z.eqb (NamePos id) 200%Z then
      Some (mkObject Var "log" zerologLogger None 1)
    else if Z.eqb (NamePos id) 300%Z then
      Some (mkObject Var "localLog" zerologLogger (Some 2) 1)
    else None;
  Pkg := ∅
|}.

End nopkglogger_testdata.

(** ** Package [structfieldorder] *)
Module structfieldorder.
Import ast analysis.

(** [type fieldCategory int] with its six constants; [toInt] is the value
    [iota] gives each. *)
Inductive fieldCategory :=
| categoryUnknown
| categoryLogger
| categoryMetrics
| categoryDependency
| categoryData
| categorySync.

Definition toInt (c : fieldCategory) : Z :=
  match c with
  | categoryUnknown => 0
  | categoryLogger => 1
  | categoryMetrics => 2
  | categoryDependency => 3
  | categoryData => 4
  | categorySync => 5
  end.

Definition String (c : fieldCategory) : string :=
  match c with
  | categoryLogger => "logger"
  | categoryMetrics => "metrics"
  | categoryDependency => "dependency"
  | categoryData => "data"
  | categorySync => "synchronization"
  | categoryUnknown => "unknown"
  end.

(** [isSyncType]: a selector [sync.X] with [X] among the seven names. *)
Definition isSyncType (typ : Expr) : bool :=
  match typ with
  | SelectorExpr (EIdent ident) sel =>
      if String.eqb (Name ident) "sync" then
        existsb (String.eqb (Name sel))
          ["Mutex"; "RWMutex"; "WaitGroup"; "Once"; "Cond"; "Pool"; "Map"]
      else false
  | _ => false
  end.

(** The type assertion of [typ] to a channel type. *)
Definition isChanType (typ : Expr) : bool :=
  match typ with
  | ChanType _ => true
  | _ => false
  end.

(** The conditions of the name tests of [categorizeField], in the order of
    the source, each on the lower-cased field name. *)
Definition loggerName (lowerName : string) : bool :=
  String.eqb lowerName "log" || String.eqb lowerName "logger"
  || Strings.HasSuffix lowerName "log" || Strings.HasSuffix lowerName "logger".

Definition metricsName (lowerName : string) : bool :=
  String.eqb lowerName "metrics" || String.eqb lowerName "monitor"
  || Strings.HasSuffix lowerName "metrics".

Definition syncName (lowerName : string) : bool :=
  String.eqb lowerName "mu" || String.eqb lowerName "mutex"
  || String.eqb lowerName "lock" || String.eqb lowerName "wg"
  || Strings.HasSuffix lowerName "mu" || Strings.HasSuffix lowerName "lock"
  || Strings.HasSuffix lowerName "mutex".

Definition dependencyName (lowerName : string) : bool :=
  Strings.HasSuffix lowerName "client" || Strings.HasSuffix lowerName "service"
  || Strings.HasSuffix lowerName "provider"
  || Strings.HasSuffix lowerName "handler"
  || String.eqb lowerName "db" || String.eqb lowerName "database"
  || String.eqb lowerName "store" || String.eqb lowerName "cache"
  || String.eqb lowerName "repo" || String.eqb lowerName "repository".

Definition categorizeField (name : string) (typ : Expr) : fieldCategory :=
  let lowerName := Strings.ToLower name in
  if loggerName lowerName then categoryLogger
  else if metricsName lowerName then categoryMetrics
  else if isSyncType typ then categorySync
  else if syncName lowerName then categorySync
  else if isChanType typ then categorySync
  else if dependencyName lowerName then categoryDependency
  else categoryData.

(** The loop state of [checkStructFieldOrder], with the diagnostics
    reported so far. *)
Record loopState := mkLoopState {
  lastCategory : fieldCategory;
  lastCategoryField : string;
  reported : list Diagnostic
}.

Definition report (name : Ident) (cat : fieldCategory)
    (lastCategoryField : string) (lastCategory : fieldCategory)
    (structName : string) : Diagnostic :=
  mkDiagnostic (NamePos name)
    ("field " +:+ Quote (Name name) +:+ " (" +:+ String cat +:+
     ") should come before " +:+ Quote lastCategoryField +:+ " (" +:+
     String lastCategory +:+ ") in struct " +:+ Quote structName).

(** One iteration of the inner loop, over the names of a field. *)
Definition checkName (structName : string) (typ : Expr) (st : loopState)
    (name : Ident) : loopState :=
  let cat := categorizeField (Name name) typ in
  match cat with
  | categoryUnknown => st
  | _ =>
      let reported :=
        if (toInt cat <? toInt (lastCategory st))%Z
        then reported st ++
             [report name cat (lastCategoryField st) (lastCategory st)
                structName]
        else reported st in
      mkLoopState cat (Name name) reported
  end.

(** One iteration of the outer loop: embedded fields are skipped. *)
Definition checkField (structName : string) (st : loopState) (field : Field)
    : loopState :=
  match fieldNames field with
  | [] => st
  | names => fold_left (checkName structName (fieldType field)) names st
  end.

(** [checkStructFieldOrder pass structName st], on the field list of the
    struct type. *)
Definition checkStructFieldOrder (structName : string) (Fields : FieldList)
    : list Diagnostic :=
  match Fields with
  | None => []
  | Some [] => []
  | Some fields =>
      reported (fold_left (checkField structName) fields
                  (mkLoopState categoryUnknown "" []))
  end.

Definition run (pass : Pass) : list Diagnostic :=
  flat_map (fun file =>
    flat_map (fun decl =>
      match decl with
      | DGen genDecl =>
          flat_map (fun spec =>
            match spec with
            | SType typeSpec =>
                match tsType typeSpec with
                | StructType Fields =>
                    checkStructFieldOrder (Name (tsName typeSpec)) Fields
                | _ => []
                end
            | _ => []
            end) (Specs genDecl)
      | _ => []
      end) (Decls file)) (Files pass).

(** The named fields of a struct, one entry per name, in declared order. *)
Definition namedFields (fields : list Field) : list (Ident * Expr) :=
  flat_map (fun f => map (fun n => (n, fieldType f)) (fieldNames f)) fields.

Definition category (f : Ident * Expr) : fieldCategory :=
  categorizeField (Name (fst f)) (snd f).

(** The two nested loops are one loop over the named fields. *)
Definition step (structName : string) (st : loopState) (f : Ident * Expr)
    : loopState :=
  checkName structName (snd f) st (fst f).

(** The diagnostic for [b], declared right after [a]. *)
Definition reportAfter (structName : string) (a b : Ident * Expr)
    : Diagnostic :=
  report (fst b) (category b) (Name (fst a)) (category a) structName.

(** The ranking in which a struct is in order. *)
Definition inOrder (a b : Ident * Expr) : Prop :=
  (toInt (category a) <= toInt (category b))%Z.

(** The rule in the words of the specification: a field is flagged exactly
    when its category precedes one seen earlier in the struct. *)
Definition flaggedAt (structName : string) (fields : list Field)
    (f : Ident * Expr) : Prop :=
  exists d, In d (checkStructFieldOrder structName (Some fields))
            /\ Pos d = NamePos (fst f).

Definition seenEarlier (fields : list Field) (f a : Ident * Expr) : Prop :=
  exists pre mid post, namedFields fields = pre ++ a :: mid ++ f :: post.

Definition FieldOrder_spec (structName : string) (fields : list Field)
    : Prop :=
  forall f, In f (namedFields fields) ->
    (flaggedAt structName fields f <->
       exists a, seenEarlier fields f a
                 /\ (toInt (category f) < toInt (category a))%Z).

End structfieldorder.

(** ** Test data of [structfieldorder] *)
Module structfieldorder_testdata.
Import ast analysis structfieldorder.

Definition syncMutex : Expr :=
  SelectorExpr (EIdent (mkIdent 0 "sync")) (mkIdent 0 "Mutex").
Definition emptyInterface : Expr := InterfaceType (Some []).

(** [BadService] of the analyzer's test data. *)
Definition BadService : list Field :=
  [ mkField [mkIdent 31 "mu"] syncMutex;
    mkField [mkIdent 32 "log"] emptyInterface;
    mkField [mkIdent 33 "config"] emptyInterface;
    mkField [mkIdent 34 "metrics"] emptyInterface ].

(** [GoodService] of the analyzer's test data. *)
Definition GoodService : list Field :=
  [ mkField [mkIdent 11 "log"] emptyInterface;
    mkField [mkIdent 14 "metrics"] emptyInterface;
    mkField [mkIdent 17 "client"] emptyInterface;
    mkField [mkIdent 18 "db"] emptyInterface;
    mkField [mkIdent 21 "config"] emptyInterface;
    mkField [mkIdent 22 "name"] (EIdent (mkIdent 0 "string"));
    mkField [mkIdent 25 "mu"] syncMutex;
    mkField [mkIdent 26 "done"] (ChanType (StructType (Some []))) ].

End structfieldorder_testdata.

(** ** Package [funcopts] *)
Module funcopts.
Import ast analysis.

Definition serviceTypeSuffixes : list string :=
  [ "Service"; "Manager"; "Handler"; "Controller"; "Provider"; "Client";
    "Server" ].

Definition isServiceTypeName (name : string) : bool :=
  existsb (fun suffix => Strings.HasSuffix name suffix) serviceTypeSuffixes.

(** [getReturnTypeName]: the name of the first result that is an identifier
    or a pointer to an identifier; the empty string when there is none. *)
Fixpoint firstResultName (results : list Field) : string :=
  match results with
  | [] => ""
  | result :: rest =>
      match fieldType result with
      | StarExpr (EIdent ident) => Name ident
      | EIdent t => Name t
      | _ => firstResultName rest
      end
  end.

Definition getReturnTypeName (fn : FuncDecl) : string :=
  match fdResults fn with
  | None => ""
  | Some results => firstResultName results
  end.

Definition isContextParam (param : Field) : bool :=
  match fieldType param with
  | SelectorExpr (EIdent ident) sel =>
      String.eqb (Name ident) "context" && String.eqb (Name sel) "Context"
  | _ => false
  end.

Definition isOptionsParam (param : Field) : bool :=
  match fieldType param with
  | Ellipsis (EIdent t) =>
      let name := Name t in
      Strings.HasSuffix name "Option" || Strings.HasSuffix name "Opt"
  | Ellipsis (FuncType _ _) => true
  | _ => false
  end.

(** The loop of [shouldSuggestFuncOpts]: [None] when it returns false at an
    options parameter, the count of non-context parameters otherwise. *)
Fixpoint countParams (params : list Field) (nonContextParams : nat)
    : option nat :=
  match params with
  | [] => Some nonContextParams
  | param :: rest =>
      if isContextParam param then countParams rest nonContextParams
      else if isOptionsParam param then None
      else
        let names := length (fieldNames param) in
        let names := if (names =? 0)%nat then 1 else names in
        countParams rest (nonContextParams + names)
  end.

Definition shouldSuggestFuncOpts (fn : FuncDecl) : bool :=
  match fdParams fn with
  | None => false
  | Some params =>
      match countParams params 0 with
      | None => false
      | Some nonContextParams => (3 <? nonContextParams)%nat
      end
  end.

(** First loop of [run]: the struct types with a service-like name. *)
Definition collectSpec (serviceTypes : gmap string bool) (spec : Spec)
    : gmap string bool :=
  match spec with
  | SType typeSpec =>
      match tsType typeSpec with
      | StructType _ =>
          if isServiceTypeName (Name (tsName typeSpec))
          then <[Name (tsName typeSpec) := true]> serviceTypes
          else serviceTypes
      | _ => serviceTypes
      end
  | _ => serviceTypes
  end.

Definition collectServiceTypes (pass : Pass) : gmap string bool :=
  fold_left (fun serviceTypes file =>
    fold_left (fun serviceTypes decl =>
      match decl with
      | DGen genDecl => fold_left collectSpec (Specs genDecl) serviceTypes
      | _ => serviceTypes
      end) (Decls file) serviceTypes) (Files pass) ∅.

(** [m[k]] on a [map[string]bool]: false when the key is missing. *)
Definition index (m : gmap string bool) (k : string) : bool :=
  match m !! k with
  | Some b => b
  | None => false
  end.

Definition report (funcDecl : FuncDecl) : Diagnostic :=
  mkDiagnostic (NamePos (fdName funcDecl))
    ("constructor " +:+ Quote (Name (fdName funcDecl)) +:+
     " has many parameters; consider using functional options pattern").

Definition checkDecl (serviceTypes : gmap string bool) (decl : Decl)
    : list Diagnostic :=
  match decl with
  | DFunc funcDecl =>
      match Recv funcDecl with
      | Some _ => []
      | None =>
          let name := Name (fdName funcDecl) in
          if negb (Strings.HasPrefix name "New")
             && negb (Strings.HasPrefix name "Create") then []
          else
            let returnType := getReturnTypeName funcDecl in
            if String.eqb returnType "" || negb (index serviceTypes returnType)
            then []
            else if shouldSuggestFuncOpts funcDecl then [report funcDecl]
            else []
      end
  | _ => []
  end.

Definition run (pass : Pass) : list Diagnostic :=
  let serviceTypes := collectServiceTypes pass in
  flat_map (fun file => flat_map (checkDecl serviceTypes) (Decls file))
           (Files pass).

(** The notions of the rule, over the unit. *)
Definition topLevelSpecs (pass : Pass) : list Spec :=
  flat_map (fun file =>
    flat_map (fun decl =>
      match decl with
      | DGen genDecl => Specs genDecl
      | _ => []
      end) (Decls file)) (Files pass).








End funcopts.

(** ** Test data of [funcopts] *)
Module funcopts_testdata.
Import ast analysis funcopts.

Definition emptyInterface : Expr := InterfaceType (Some []).
Definition ident (name : string) : Expr := EIdent (mkIdent 0 name).
Definition structDecl (pos : Z) (name : string) : Decl :=
  DGen (mkGenDecl token.TYPE
          [SType (mkTypeSpec (mkIdent pos name) (StructType (Some [])))]).
Definition params (names : list string) (typ : Expr) : Field :=
  mkField (map (mkIdent 0) names) typ.
Definition contextContext : Expr :=
  SelectorExpr (ident "context") (mkIdent 0 "Context").

Definition NewUserService : FuncDecl :=
  mkFuncDecl None (mkIdent 17 "NewUserService")
    (Some [params ["db"; "cache"; "logger"; "metrics"] emptyInterface])
    (Some [mkField [] (StarExpr (ident "UserService"))]) [].

Definition NewOrderHandler : FuncDecl :=
  mkFuncDecl None (mkIdent 25 "NewOrderHandler")
    (Some [params ["ctx"] contextContext;
           params ["db"; "cache"; "logger"; "validator"] emptyInterface])
    (Some [mkField [] (StarExpr (ident "OrderHandler"))]) [].

Definition NewPaymentService : FuncDecl :=
  mkFuncDecl None (mkIdent 38 "NewPaymentService")
    (Some [params ["opts"] (Ellipsis (ident "Option"))])
    (Some [mkField [] (StarExpr (ident "PaymentService"))]) [].

Definition NewNotificationManager : FuncDecl :=
  mkFuncDecl None (mkIdent 46 "NewNotificationManager")
    (Some [params ["db"; "logger"] emptyInterface])
    (Some [mkField [] (StarExpr (ident "NotificationManager"))]) [].

Definition NewHelper : FuncDecl :=
  mkFuncDecl None (mkIdent 54 "NewHelper")
    (Some [params ["a"; "b"; "c"; "d"] emptyInterface])
    (Some [mkField [] (StarExpr (ident "Helper"))]) [].

Definition ProcessData : FuncDecl :=
  mkFuncDecl None (mkIdent 59 "ProcessData")
    (Some [params ["a"; "b"; "c"; "d"; "e"] emptyInterface]) None [].

Definition testFile : File :=
  mkFile 4 []
    [ structDecl 9 "UserService"; DFunc NewUserService;
      structDecl 22 "OrderHandler"; DFunc NewOrderHandler;
      structDecl 32 "PaymentService";
      DGen (mkGenDecl token.TYPE
              [SType (mkTypeSpec (mkIdent 35 "Option")
                        (FuncType
                           (Some [params [] (StarExpr (ident "PaymentService"))])
                           None))]);
      DFunc NewPaymentService;
      structDecl 43 "NotificationManager"; DFunc NewNotificationManager;
      structDecl 51 "Helper"; DFunc NewHelper;
      DFunc ProcessData ].

Definition testPass : Pass := mkPass [testFile] (fun _ => None) ∅.

End funcopts_testdata.

(** ** Package [enumiota] *)
Module enumiota.
Import ast types analysis.

Record runner := mkRunner { enumTypeSuffixes : list string }.

Definition isEnumTypeName (r : runner) (name : string) : bool :=
  existsb (fun suffix => Strings.HasSuffix name suffix) (enumTypeSuffixes r).

Definition isStringType (t : Typ) : bool :=
  match t with
  | Basic String_ => true
  | _ => false
  end.

Definition isStringLiteral (val : Expr) : bool :=
  match val with
  | BasicLit _ token.STRING _ => true
  | _ => false
  end.

Definition hasStringLiteralValue (vs : ValueSpec) : bool :=
  match vsValues vs with
  | [] => false
  | values => existsb isStringLiteral values
  end.

(** The diagnostic of a specification is placed at its first name, which
    is where [valueSpec.Pos()] is, and quotes that name. *)
Definition report (name : Ident) : Diagnostic :=
  mkDiagnostic (NamePos name)
    ("enum constant " +:+ Quote (Name name) +:+
     " uses string value; consider using uint64 with iota pattern instead").

Definition checkSpec (pass : Pass) (enumTypes : gmap string TypeSpec)
    (spec : Spec) : list Diagnostic :=
  match spec with
  | SValue valueSpec =>
      match vsNames valueSpec with
      | [] => []
      | name0 :: _ =>
          match ObjectOf pass name0 with
          | None => []
          | Some obj =>
              match objType obj with
              | Named typeName underlying =>
                  match enumTypes !! typeName with
                  | None => []
                  | Some _ =>
                      if isStringType underlying then
                        if hasStringLiteralValue valueSpec
                        then [report name0]
                        else []
                      else []
                  end
              | _ => []
              end
          end
      end
  | _ => []
  end.

Definition checkConstDecl (pass : Pass) (genDecl : GenDecl)
    (enumTypes : gmap string TypeSpec) : list Diagnostic :=
  flat_map (checkSpec pass enumTypes) (Specs genDecl).

(** First pass of [run]. *)
Definition collectSpec (r : runner) (enumTypes : gmap string TypeSpec)
    (spec : Spec) : gmap string TypeSpec :=
  match spec with
  | SType typeSpec =>
      if isEnumTypeName r (Name (tsName typeSpec))
      then <[Name (tsName typeSpec) := typeSpec]> enumTypes
      else enumTypes
  | _ => enumTypes
  end.

Definition collectEnumTypes (r : runner) (pass : Pass)
    : gmap string TypeSpec :=
  fold_left (fun enumTypes file =>
    fold_left (fun enumTypes decl =>
      match decl with
      | DGen genDecl =>
          if negb (token.eqb (Tok genDecl) token.TYPE) then enumTypes
          else fold_left (collectSpec r) (Specs genDecl) enumTypes
      | _ => enumTypes
      end) (Decls file) enumTypes) (Files pass) ∅.

Definition run (r : runner) (pass : Pass) : list Diagnostic :=
  let enumTypes := collectEnumTypes r pass in
  flat_map (fun file =>
    flat_map (fun decl =>
      match decl with
      | DGen genDecl =>
          if negb (token.eqb (Tok genDecl) token.CONST) then []
          else checkConstDecl pass genDecl enumTypes
      | _ => []
      end) (Decls file)) (Files pass).

(** The specifications of the top-level declarations of a given keyword. *)
Definition topLevelSpecs (tok : token.Token) (pass : Pass) : list Spec :=
  flat_map (fun file =>
    flat_map (fun decl =>
      match decl with
      | DGen genDecl =>
          if token.eqb (Tok genDecl) tok then Specs genDecl else []
      | _ => []
      end) (Decls file)) (Files pass).

(** Phase A: a type declared in the unit whose name has a configured
    suffix. *)
Definition candidate (r : runner) (pass : Pass) (typeName : string) : Prop :=
  isEnumTypeName r typeName = true
  /\ exists typeSpec,
       In (SType typeSpec) (topLevelSpecs token.TYPE pass)
       /\ Name (tsName typeSpec) = typeName.



End enumiota.

(** ** Test data of [enumiota] *)
Module enumiota_testdata.
Import ast types analysis enumiota.

Definition defaultRunner : runner :=
  mkRunner ["Type"; "Status"; "State"; "Kind"; "Mode"].

Definition typeDecl (pos : Z) (name underlying : string) : Decl :=
  DGen (mkGenDecl token.TYPE
          [SType (mkTypeSpec (mkIdent pos name)
                             (EIdent (mkIdent (pos + 10) underlying)))]).

Definition constSpec (names : list Ident) (typ : string) (values : list Expr)
    : Spec :=
  SValue (mkValueSpec names (Some (EIdent (mkIdent 0 typ))) values).

(** Objects of the constants: keyed by the position of the identifier. *)
Definition objects (l : list (Z * Typ)) (id : Ident) : option Object :=
  match List.find (fun e => Z.eqb (fst e) (NamePos id)) l with
  | Some e => Some (mkObject Const (Name id) (snd e) (Some 1%nat) 1%nat)
  | None => None
  end.

Definition SANType : Typ := Named "SANType" (Basic String_).

(** [type SANType string; const SANTypeDNS SANType = "dns"] *)
Definition sanPass : Pass :=
  mkPass
    [mkFile 1 []
       [ typeDecl 100 "SANType" "string";
         DGen (mkGenDecl token.CONST
                 [constSpec [mkIdent 200 "SANTypeDNS"] "SANType"
                    [BasicLit 220 token.STRING "dns"]]) ]]
    (objects [(200%Z, SANType)]) ∅.




End enumiota_testdata.

(** ** Package [interfacecheck] *)
Module interfacecheck.
Import ast types analysis.

Definition getInterfaceName (expr : option Expr) : string :=
  match expr with
  | Some (EIdent t) => Name t
  | Some (SelectorExpr _ Sel) => Name Sel
  | _ => ""
  end.

Definition getStructNameFromNilCast (vs : ValueSpec) : string :=
  match vsValues vs with
  | [CallExpr Fun [EIdent ident]] =>
      if negb (String.eqb (Name ident) "nil") then ""
      else
        match Fun with
        | ParenExpr (StarExpr (EIdent x)) => Name x
        | ParenExpr (StarExpr (SelectorExpr _ Sel)) => Name Sel
        | _ => ""
        end
  | _ => ""
  end.

Definition key (ifaceName structName : string) : string :=
  ifaceName +:+ ":" +:+ structName.

Definition collectSpec (checks : gmap string bool) (spec : Spec)
    : gmap string bool :=
  match spec with
  | SValue valueSpec =>
      match vsNames valueSpec with
      | [name] =>
          if negb (String.eqb (Name name) "_") then checks
          else
            let ifaceName := getInterfaceName (vsType valueSpec) in
            if String.eqb ifaceName "" then checks
            else
              let structName := getStructNameFromNilCast valueSpec in
              if String.eqb structName "" then checks
              else <[key ifaceName structName := true]> checks
      | _ => checks
      end
  | _ => checks
  end.

Definition collectExistingChecks (pass : Pass) : gmap string bool :=
  fold_left (fun checks file =>
    fold_left (fun checks decl =>
      match decl with
      | DGen genDecl =>
          if negb (token.eqb (Tok genDecl) token.VAR) then checks
          else fold_left collectSpec (Specs genDecl) checks
      | _ => checks
      end) (Decls file) checks) (Files pass) ∅.

(** A specification that [collectExistingChecks] records under [k]. *)
Definition records (spec : Spec) (k : string) : Prop :=
  exists valueSpec name,
    spec = SValue valueSpec
    /\ vsNames valueSpec = [name]
    /\ Name name = "_"
    /\ getInterfaceName (vsType valueSpec) <> ""
    /\ getStructNameFromNilCast valueSpec <> ""
    /\ key (getInterfaceName (vsType valueSpec))
           (getStructNameFromNilCast valueSpec) = k.

(** [findStructPos]: the position of the first type specification of that
    name, [NoPos] when there is none. *)
Fixpoint findInSpecs (name : string) (specs : list Spec) : option token.Pos :=
  match specs with
  | [] => None
  | SType typeSpec :: rest =>
      if String.eqb (Name (tsName typeSpec)) name
      then Some (NamePos (tsName typeSpec))
      else findInSpecs name rest
  | _ :: rest => findInSpecs name rest
  end.

Fixpoint findInDecls (name : string) (decls : list Decl) : option token.Pos :=
  match decls with
  | [] => None
  | DGen genDecl :: rest =>
      match findInSpecs name (Specs genDecl) with
      | Some pos => Some pos
      | None => findInDecls name rest
      end
  | _ :: rest => findInDecls name rest
  end.

Fixpoint findInFiles (name : string) (files : list File) : option token.Pos :=
  match files with
  | [] => None
  | file :: rest =>
      match findInDecls name (Decls file) with
      | Some pos => Some pos
      | None => findInFiles name rest
      end
  end.

Definition findStructPos (pass : Pass) (name : string) : token.Pos :=
  match findInFiles name (Files pass) with
  | Some pos => pos
  | None => token.NoPos
  end.

(** [m[k]] on a [map[string]bool]: false when the key is missing. *)
Definition index (m : gmap string bool) (k : string) : bool :=
  match m !! k with
  | Some b => b
  | None => false
  end.

(** The first loop of [run] keeps, of the objects of the package scope,
    the type names whose underlying type is an interface with a method,
    and those whose underlying type is a struct. *)
Definition interfaceOf (obj : Object) : option Typ :=
  match Kind obj with
  | TypeName =>
      match Underlying (objType obj) with
      | Interface Methods =>
          if (0 <? NumMethods Methods)%nat then Some (Interface Methods)
          else None
      | _ => None
      end
  | _ => None
  end.

Definition structOf (obj : Object) : option Typ :=
  match Kind obj with
  | TypeName =>
      match Underlying (objType obj) with
      | Struct n => Some (Struct n)
      | _ => None
      end
  | _ => None
  end.

Definition report (pos : token.Pos) (structName ifaceName : string)
    : Diagnostic :=
  mkDiagnostic pos
    ("struct " +:+ Quote structName +:+ " implements interface " +:+
     Quote ifaceName +:+ "; consider adding: var _ " +:+ ifaceName +:+
     " = (*" +:+ structName +:+ ")(nil)").

Section WithChecker.
Context `{Checker}.

(** The body of the second loop of [run], for one struct: the pairs
    (struct, interface) for which it reaches [pass.Reportf]. *)
Definition checkStruct (pass : Pass) (interfaces : gmap string Typ)
    (existingChecks : gmap string bool) (structName : string)
    : list (string * string) :=
  match Pkg pass !! structName with
  | None => []
  | Some structObj =>
      let structType := objType structObj in
      let ptrType := NewPointer structType in
      flat_map (fun '(ifaceName, iface) =>
        if negb (Implements structType iface)
           && negb (Implements ptrType iface) then []
        else if index existingChecks (key ifaceName structName) then []
        else if Z.eqb (findStructPos pass structName) token.NoPos then []
        else [(structName, ifaceName)])
        (map_to_list interfaces)
  end.

(** The two maps are ranged over in the order [map_to_list] gives, Go
    leaving the order unspecified. *)
Definition flaggedPairs (pass : Pass) : list (string * string) :=
  let interfaces := omap interfaceOf (Pkg pass) in
  let structs := omap structOf (Pkg pass) in
  let existingChecks := collectExistingChecks pass in
  flat_map (fun '(structName, _) =>
              checkStruct pass interfaces existingChecks structName)
           (map_to_list structs).

Definition run (pass : Pass) : list Diagnostic :=
  map (fun '(structName, ifaceName) =>
         report (findStructPos pass structName) structName ifaceName)
      (flaggedPairs pass).

(** [structName] satisfies the interface named [ifaceName], by its value
    method set or by that of a pointer to it. *)
Definition satisfies (pass : Pass) (structName ifaceName : string) : Prop :=
  exists structObj ifaceObj,
    Pkg pass !! structName = Some structObj
    /\ Pkg pass !! ifaceName = Some ifaceObj
    /\ (Implements (objType structObj) (Underlying (objType ifaceObj)) = true
        \/ Implements (NewPointer (objType structObj))
                      (Underlying (objType ifaceObj)) = true).
End WithChecker.

(** The type names of the package scope, by kind of underlying type. *)
Definition isStruct (pass : Pass) (name : string) : Prop :=
  exists obj n,
    Pkg pass !! name = Some obj /\ Kind obj = TypeName
    /\ Underlying (objType obj) = Struct n.

Definition isInterface (pass : Pass) (name : string) (numMethods : nat)
    : Prop :=
  exists obj Methods,
    Pkg pass !! name = Some obj /\ Kind obj = TypeName
    /\ Underlying (objType obj) = Interface Methods
    /\ NumMethods Methods = numMethods.

Definition topLevelSpecs (tok : token.Token) (pass : Pass) : list Spec :=
  flat_map (fun file =>
    flat_map (fun decl =>
      match decl with
      | DGen genDecl =>
          if token.eqb (Tok genDecl) tok then Specs genDecl else []
      | _ => []
      end) (Decls file)) (Files pass).


(** Names of the language are not empty and hold no colon. *)
Fixpoint colonFree (s : string) : bool :=
  match s with
  | EmptyString => true
  | String c s' => negb (Ascii.eqb c ":") && colonFree s'
  end.

Definition identifier (s : string) : Prop :=
  s <> "" /\ colonFree s = true.

End interfacecheck.

(** ** Test data of [interfacecheck] *)
Module interfacecheck_testdata.
Import ast types analysis interfacecheck.

Definition typeDecl (pos : Z) (name : string) (typ : Expr) : Decl :=
  DGen (mkGenDecl token.TYPE [SType (mkTypeSpec (mkIdent pos name) typ)]).

Definition typeName (name : string) (underlying : Typ) : Object :=
  mkObject TypeName name (Named name underlying) (Some 1%nat) 1%nat.

Definition interfaceWith (method : Ident) : Expr :=
  InterfaceType (Some [mkField [method] OtherExpr]).

(** [var _ Reader = ( *GoodReader)(nil)] *)
Definition assertion : Spec :=
  SValue (mkValueSpec [mkIdent 294 "_"]
            (Some (EIdent (mkIdent 296 "Reader")))
            [CallExpr (ParenExpr (StarExpr (EIdent (mkIdent 307 "GoodReader"))))
                      [EIdent (mkIdent 319 "nil")]]).

Definition testFile : File :=
  mkFile 4 []
    [ typeDecl 70 "Reader" (interfaceWith (mkIdent 80 "Read"));
      typeDecl 120 "Writer" (interfaceWith (mkIdent 130 "Write"));
      typeDecl 170 "Closer" (interfaceWith (mkIdent 180 "Close"));
      typeDecl 220 "EmptyInterface" (InterfaceType (Some []));
      typeDecl 270 "GoodReader" (StructType (Some []));
      DGen (mkGenDecl token.VAR [assertion]);
      typeDecl 380 "BadWriter" (StructType (Some []));
      typeDecl 450 "BadCloser" (StructType (Some []));
      typeDecl 540 "Helper" (StructType (Some [])) ].

Definition testPass : Pass :=
  mkPass [testFile] (fun _ => None)
    (list_to_map
       [ ("Reader", typeName "Reader" (Interface ["Read"]));
         ("Writer", typeName "Writer" (Interface ["Write"]));
         ("Closer", typeName "Closer" (Interface ["Close"]));
         ("EmptyInterface", typeName "EmptyInterface" (Interface []));
         ("GoodReader", typeName "GoodReader" (Struct 0));
         ("BadWriter", typeName "BadWriter" (Struct 0));
         ("BadCloser", typeName "BadCloser" (Struct 0));
         ("Helper", typeName "Helper" (Struct 0)) ]).

(** The method sets of the test data: each struct has one method, on its
    pointer receiver. *)
Definition methodOf (structName : string) : string :=
  if String.eqb structName "GoodReader" then "Read"
  else if String.eqb structName "BadWriter" then "Write"
  else if String.eqb structName "BadCloser" then "Close"
  else "DoSomething".

Definition testChecker : Checker := {|
  TypeString _ := "";
  Implements V T :=
    match V, T with
    | _, Interface [] => true
    | Pointer (Named structName _), Interface [method] =>
        String.eqb (methodOf structName) method
    | _, _ => false
    end
|}.

End interfacecheck_testdata.

(** ** The fragment of [regexp] and [strconv] that [currentyear] uses

    A regular expression is matched by backtracking, which is the match the
    library documents: the leftmost one and, among those, the one a
    backtracking search finds first.  The expressions needed have one
    capturing group and repeat only character classes. *)
Module regexp.

Inductive Regexp :=
| Literal (s : string)                  (* the bytes of [s] *)
| CharClass (p : ascii -> bool)         (* one byte of a class *)
| Concat (r1 r2 : Regexp)               (* r1 r2 *)
| Alternate (r1 r2 : Regexp)            (* r1|r2 *)
| Quest (r : Regexp)                    (* r? *)
| StarClass (p : ascii -> bool)         (* c*, for a class c *)
| Repeat (n : nat) (r : Regexp)         (* r{n} *)
| Capture (r : Regexp).                 (* (r), the capturing group *)

Section Matcher.
Context {R : Type}.

(** The continuation receives the rest of the input and the text of the
    capturing group, if it has matched. *)
Definition cont := string -> option string -> option R.

Fixpoint matchStar (p : ascii -> bool) (s : string) (cap : option string)
    (k : cont) : option R :=
  match s with
  | String c s' =>
      if p c then
        match matchStar p s' cap k with
        | Some res => Some res
        | None => k s cap
        end
      else k s cap
  | EmptyString => k s cap
  end.

Fixpoint matchRe (r : Regexp) (s : string) (cap : option string) (k : cont)
    : option R :=
  match r with
  | Literal l =>
      if Strings.HasPrefix s l then k (Strings.drop (Strings.len l) s) cap
      else None
  | CharClass p =>
      match s with
      | String c s' => if p c then k s' cap else None
      | EmptyString => None
      end
  | Concat r1 r2 =>
      matchRe r1 s cap (fun s' cap' => matchRe r2 s' cap' k)
  | Alternate r1 r2 =>
      match matchRe r1 s cap k with
      | Some res => Some res
      | None => matchRe r2 s cap k
      end
  | Quest r1 =>
      match matchRe r1 s cap k with
      | Some res => Some res
      | None => k s cap
      end
  | StarClass p => matchStar p s cap k
  | Repeat n r1 =>
      (fix rep (n : nat) (s : string) (cap : option string) : option R :=
         match n with
         | O => k s cap
         | S n' => matchRe r1 s cap (fun s' cap' => rep n' s' cap')
         end) n s cap
  | Capture r1 =>
      matchRe r1 s cap
        (fun s' _ =>
           k s' (Some (Strings.take (Strings.len s - Strings.len s') s)))
  end.
End Matcher.

(** A match anchored at the start of [s]: the matched text and the text of
    the group, empty when the group has not matched. *)
Definition matchAt (re : Regexp) (s : string) : option (list string) :=
  matchRe re s None
    (fun s' cap =>
       Some [ Strings.take (Strings.len s - Strings.len s') s;
              match cap with Some g => g | None => "" end ]).

(** [re.FindStringSubmatch(s)]: nil when there is no match. *)
Fixpoint FindStringSubmatch (re : Regexp) (s : string) : list string :=
  match matchAt re s with
  | Some matches => matches
  | None =>
      match s with
      | EmptyString => []
      | String _ s' => FindStringSubmatch re s'
      end
  end.

(** What it is for a text to match an expression: [Matches re a cap cap']
    when [re] matches exactly [a], the group being [cap] before and [cap']
    after. *)
Definition all (p : ascii -> bool) (s : string) : Prop :=
  forallb p (list_ascii_of_string s) = true.

Inductive Matches :
  Regexp -> string -> option string -> option string -> Prop :=
| MLiteral l cap : Matches (Literal l) l cap cap
| MCharClass (p : ascii -> bool) c cap :
    p c = true -> Matches (CharClass p) (String c "") cap cap
| MConcat r1 r2 a b cap cap' cap'' :
    Matches r1 a cap cap' -> Matches r2 b cap' cap'' ->
    Matches (Concat r1 r2) (a +:+ b) cap cap''
| MAlternateL r1 r2 a cap cap' :
    Matches r1 a cap cap' -> Matches (Alternate r1 r2) a cap cap'
| MAlternateR r1 r2 a cap cap' :
    Matches r2 a cap cap' -> Matches (Alternate r1 r2) a cap cap'
| MQuestSome r a cap cap' :
    Matches r a cap cap' -> Matches (Quest r) a cap cap'
| MQuestNone r cap : Matches (Quest r) "" cap cap
| MStarClass p a cap : all p a -> Matches (StarClass p) a cap cap
| MRepeatO r cap : Matches (Repeat 0 r) "" cap cap
| MRepeatS n r a b cap cap' cap'' :
    Matches r a cap cap' -> Matches (Repeat n r) b cap' cap'' ->
    Matches (Repeat (S n) r) (a +:+ b) cap cap''
| MCapture r a cap cap' :
    Matches r a cap cap' -> Matches (Capture r) a cap (Some a).

(** The classes [\s] and [\d] of the syntax: ASCII only. *)
Definition space (c : ascii) : bool :=
  existsb (Ascii.eqb c) ["009"; "010"; "012"; "013"; " "]%char.

Definition digit (c : ascii) : bool :=
  let n := nat_of_ascii c in (48 <=? n)%nat && (n <=? 57)%nat.

End regexp.

Module strconv.

(** [Atoi] on a string of decimal digits; an error ([None]) on the empty
    string and on any other byte. *)
Fixpoint digits (s : string) (acc : Z) : option Z :=
  match s with
  | EmptyString => Some acc
  | String c s' =>
      if regexp.digit c
      then digits s' (10 * acc + Z.of_nat (nat_of_ascii c - 48))%Z
      else None
  end.

Definition Atoi (s : string) : option Z :=
  match s with
  | EmptyString => None
  | _ => digits s 0%Z
  end.

(** [%d] *)
Definition Itoa (z : Z) : string := NilZero.string_of_int (Z.to_int z).

End strconv.

(** ** Package [currentyear] *)
Module currentyear.
Import ast analysis regexp.

(** The pattern of the source, piece by piece: [C] or [c], [opyright],
    white space, an optional copyright sign or [(c)], white space, an
    optional start of a range (four digits, white space, a hyphen, white
    space), and the four digits of the capturing group. *)
Definition copyrightYearPattern : Regexp :=
  Concat (CharClass (fun c => Ascii.eqb c "C" || Ascii.eqb c "c"))
  (Concat (Literal "opyright")
  (Concat (StarClass space)
  (Concat (Quest (Alternate (Literal "©") (Literal "(c)")))
  (Concat (StarClass space)
  (Concat (Quest (Concat (Repeat 4 (CharClass digit))
                 (Concat (StarClass space)
                 (Concat (Literal "-") (StarClass space)))))
          (Capture (Repeat 4 (CharClass digit)))))))).

(** [cg.Pos()]: the position of the first comment of the group. *)
Definition groupPos (cg : CommentGroup) : token.Pos :=
  match List cg with
  | c :: _ => Slash c
  | [] => token.NoPos
  end.

Section WithText.
(** [cg.Text()], the text of a comment group without its comment markers,
    is computed by [go/ast]. *)
Variable CommentText : CommentGroup -> string.

Definition report (copyrightComment : CommentGroup) (year currentYear : Z)
    : Diagnostic :=
  mkDiagnostic (groupPos copyrightComment)
    ("copyright year " +:+ strconv.Itoa year +:+ " is outdated; should be "
     +:+ strconv.Itoa currentYear +:+ " for new or modified files").

(** The first comment group that starts before the package clause. *)
Definition header (file : File) : option CommentGroup :=
  List.find (fun cg => (groupPos cg <? Package file)%Z) (Comments file).

Definition checkFile (file : File) (currentYear : Z) : list Diagnostic :=
  match Comments file with
  | [] => []
  | _ =>
      match header file with
      | None => []
      | Some copyrightComment =>
          let text := CommentText copyrightComment in
          let matches := FindStringSubmatch copyrightYearPattern text in
          match matches with
          | _ :: yearStr :: _ =>
              match strconv.Atoi yearStr with
              | None => []
              | Some year =>
                  if (year <? currentYear)%Z
                  then [report copyrightComment year currentYear]
                  else []
              end
          | _ => []
          end
      end
  end.

(** [run], with the year [time.Now().Year()] gives. *)
Definition run (pass : Pass) (currentYear : Z) : list Diagnostic :=
  flat_map (fun file => checkFile file currentYear) (Files pass).
End WithText.

(** The shape of a text in which the pattern finds [yearStr]: a marker
    [Copyright] or [copyright], then optionally the sign, then optionally
    the first year of a range and a hyphen, then [yearStr], four digits. *)
Definition isYear (s : string) : Prop := String.length s = 4 /\ all digit s.

Definition isRangeStart (s : string) : Prop :=
  s = ""
  \/ exists y ws ws',
       s = y +:+ ws +:+ "-" +:+ ws'
       /\ isYear y /\ all space ws /\ all space ws'.

Definition yearAfterMarker (text yearStr : string) : Prop :=
  exists pre c ws sign ws' range post,
    text = pre +:+ String c "opyright" +:+ ws +:+ sign +:+ ws' +:+ range
               +:+ yearStr +:+ post
    /\ (c = "C" \/ c = "c")%char
    /\ all space ws
    /\ (sign = "" \/ sign = "©" \/ sign = "(c)")
    /\ all space ws'
    /\ isRangeStart range
    /\ isYear yearStr.


End currentyear.

(** ** Test data of [currentyear] *)
Module currentyear_testdata.
Import ast analysis currentyear.

(** The text of a group of line comments: the lines without the marker
    and the space after it, each ended by a newline. *)
Definition lineText (c : Comment) : string :=
  Strings.TrimPrefix (Strings.TrimPrefix (Text c) "//") " "
  +:+ String "010" "".

Definition testText (cg : CommentGroup) : string :=
  fold_right (fun c rest => lineText c +:+ rest) "" (List cg).

Definition fileWith (header : string) : File :=
  mkFile 100
    [ mkCommentGroup
        [ mkComment 1 header;
          mkComment 40 "// Licensed under the Apache License, Version 2.0" ];
      mkCommentGroup [ mkComment 90 "// Package p." ];
      mkCommentGroup [ mkComment 120 "// Copyright 1999 in a later comment" ] ]
    [].

End currentyear_testdata.


(** ** Runes: the fragment of [unicode], and of [strings] on decoded text

    [capitalcomment] classifies runes and splits text at white space.  Its
    text is handled as the sequence of runes [[]rune(s)] gives; the tables
    of [unicode] and the decoding are parameters.  On well-formed UTF-8 the
    byte-wise helpers with an ASCII argument ([HasPrefix], [Contains], ...)
    are the same on bytes and on runes. *)
Module unicode.

Definition rune := N.

Class Tables := {
  IsPunct : rune -> bool;
  IsDigit : rune -> bool;
  IsLower : rune -> bool;
  IsUpper : rune -> bool;
  IsSpace : rune -> bool;
  ToLower : rune -> rune;
  (** [[]rune(s)] *)
  decode : string -> list rune
}.

(** The runes of a string literal of the source, all of them ASCII. *)
Definition lit (s : string) : list rune :=
  map N_of_ascii (list_ascii_of_string s).

End unicode.

Module runes.
Import unicode.

Fixpoint HasPrefix (s prefix : list rune) : bool :=
  match prefix, s with
  | [], _ => true
  | p :: prefix', r :: s' => N.eqb p r && HasPrefix s' prefix'
  | _ :: _, [] => false
  end.

Definition HasSuffix (s suffix : list rune) : bool :=
  HasPrefix (rev s) (rev suffix).

Definition TrimPrefix (s prefix : list rune) : list rune :=
  if HasPrefix s prefix then skipn (length prefix) s else s.

Definition TrimSuffix (s suffix : list rune) : list rune :=
  if HasSuffix s suffix then firstn (length s - length suffix) s else s.

Fixpoint Contains (s substr : list rune) : bool :=
  HasPrefix s substr
  || match s with
     | [] => false
     | _ :: s' => Contains s' substr
     end.

Definition eqb (s t : list rune) : bool :=
  (length s =? length t)%nat && HasPrefix s t.

Section WithTables.
Context `{Tables}.

Definition ToLower (s : list rune) : list rune := map unicode.ToLower s.

Fixpoint trimLeft (s : list rune) : list rune :=
  match s with
  | r :: s' => if IsSpace r then trimLeft s' else s
  | [] => []
  end.

Definition TrimSpace (s : list rune) : list rune :=
  rev (trimLeft (rev (trimLeft s))).

(** [Fields]: the maximal runs of runes that are not white space; [word]
    is the run being read, in reverse. *)
Fixpoint fieldsFrom (s : list rune) (word : list rune) : list (list rune) :=
  match s with
  | [] =>
      match word with
      | [] => []
      | _ => [rev word]
      end
  | r :: s' =>
      if IsSpace r then
        match word with
        | [] => fieldsFrom s' []
        | _ => rev word :: fieldsFrom s' []
        end
      else fieldsFrom s' (r :: word)
  end.

Definition Fields (s : list rune) : list (list rune) := fieldsFrom s [].

End WithTables.
End runes.

(** ** Package [capitalcomment] *)
Module capitalcomment.
Import ast analysis unicode.

Section WithTables.
Context `{Tables}.

Definition shouldSkip (text : list rune) : bool :=
  let lowerText := runes.ToLower text in
  if runes.HasPrefix lowerText (lit "nolint") then true
  else if existsb (fun prefix => runes.HasPrefix lowerText (lit prefix))
            ["todo"; "fixme"; "hack"; "xxx"; "bug"] then true
  else if runes.Contains text (lit "://") then true
  else if runes.HasPrefix text (lit "+build")
          || runes.HasPrefix text (lit "go:") then true
  else if existsb (fun pattern => runes.Contains lowerText (lit pattern))
            [ "you may not use this file";
              "distributed under the license";
              "without warranties or conditions";
              "limitations under the license";
              "permission is hereby granted";
              "the above copyright notice";
              "in no event shall";
              "as is" ] then true
  else false.

(** The keys of the map [commonEnglishWords], all of them bound to true. *)
Definition commonEnglishWords : list string :=
  [ "this"; "that"; "these"; "those";
    "it"; "its"; "the"; "a"; "an";
    "here"; "there"; "where"; "when";
    "see"; "use"; "set"; "get";
    "all"; "any"; "some"; "each";
    "for"; "not"; "but"; "and"; "or" ].

Definition isCommonEnglishWord (word : list rune) : bool :=
  existsb (fun w => runes.eqb word (lit w)) commonEnglishWords.

Definition identifierFollowers : list string :=
  [ "is"; "are"; "was"; "were"; "has"; "have"; "had";
    "contains"; "returns"; "holds"; "stores"; "represents";
    "defines"; "implements"; "provides"; "specifies" ].

(** The loop over the runes of the first word: an upper-case rune at an
    index other than 0. *)
Definition hasInternalUpper (firstWord : list rune) : bool :=
  match firstWord with
  | [] => false
  | _ :: rest => existsb IsUpper rest
  end.

Definition looksLikeIdentifier (text : list rune) : bool :=
  let words := runes.Fields text in
  match words with
  | [] => false
  | firstWord :: others =>
      if isCommonEnglishWord (runes.ToLower firstWord) then false
      else if runes.Contains firstWord (lit "_") then true
      else if hasInternalUpper firstWord then true
      else
        match others with
        | second :: _ =>
            let followWord := runes.ToLower second in
            existsb (fun follower => runes.eqb followWord (lit follower))
                    identifierFollowers
        | [] => false
        end
  end.

Definition report (c : Comment) : Diagnostic :=
  mkDiagnostic (Slash c) "comment should start with a capital letter".

(** The text [checkComment] examines: the comment without its markers
    and the white space around. *)
Definition stripped (c : Comment) : list rune :=
  let text := decode (Text c) in
  let text := runes.TrimPrefix text (lit "//") in
  let text := runes.TrimPrefix text (lit "/*") in
  let text := runes.TrimSuffix text (lit "*/") in
  runes.TrimSpace text.

Definition checkComment (c : Comment) : list Diagnostic :=
  let text := stripped c in
  match text with
  | [] => []
  | firstRune :: _ =>
      if IsPunct firstRune || IsDigit firstRune then []
      else if shouldSkip text then []
      else if IsLower firstRune then
        if looksLikeIdentifier text then []
        else [report c]
      else []
  end.

Definition run (pass : Pass) : list Diagnostic :=
  flat_map (fun file =>
    flat_map (fun cg =>
      match List cg with
      | c :: _ => checkComment c
      | [] => []
      end) (Comments file)) (Files pass).




End WithTables.
End capitalcomment.

(** ** Test data of [capitalcomment] *)
Module capitalcomment_testdata.
Import ast analysis unicode capitalcomment.

Definition between (lo hi r : N) : bool := (lo <=? r)%N && (r <=? hi)%N.

(** The tables of [unicode] on the ASCII range. *)
Definition asciiTables : Tables := {|
  IsPunct r :=
    existsb (N.eqb r)
      [33; 34; 35; 37; 38; 39; 40; 41; 42; 44; 45; 46; 47; 58; 59; 63; 64;
       91; 92; 93; 95; 123; 125]%N;
  IsDigit := between 48 57;
  IsLower := between 97 122;
  IsUpper := between 65 90;
  IsSpace r := existsb (N.eqb r) [9; 10; 11; 12; 13; 32]%N;
  ToLower r := if between 65 90 r then (r + 32)%N else r;
  decode := lit
|}.

End capitalcomment_testdata.

(** ** Package [attgolinter]: [config.go] and [plugin.go] *)
Module attgolinter.

Record Config := mkConfig {
  EnableNoPkgLogger : bool;
  EnableEnumIota : bool;
  EnableCurrentYear : bool;
  EnableCapitalComment : bool;
  EnableFuncOpts : bool;
  EnableRawString : bool;
  EnableStructFieldOrder : bool;
  EnableInterfaceCheck : bool;
  LoggerTypePatterns : list string;
  EnumTypeSuffixes : list string
}.

Definition DefaultConfig : Config := {|
  EnableNoPkgLogger := true;
  EnableEnumIota := true;
  EnableCurrentYear := true;
  EnableCapitalComment := false;
  EnableFuncOpts := false;
  EnableRawString := false;
  EnableStructFieldOrder := false;
  EnableInterfaceCheck := false;
  LoggerTypePatterns :=
    [ "zerolog.Logger"; "*zerolog.Logger"; "zap.Logger"; "*zap.Logger";
      "zap.SugaredLogger"; "*zap.SugaredLogger"; "logrus.Logger";
      "*logrus.Logger"; "logrus.Entry"; "*logrus.Entry"; "slog.Logger";
      "*slog.Logger"; "log.Logger"; "*log.Logger" ];
  EnumTypeSuffixes := [ "Type"; "Status"; "State"; "Kind"; "Mode" ]
|}.

(** Assignments to one field of a [Config]. *)
Definition set_EnableNoPkgLogger (v : bool) (c : Config) : Config :=
  mkConfig v (EnableEnumIota c) (EnableCurrentYear c)
    (EnableCapitalComment c) (EnableFuncOpts c) (EnableRawString c)
    (EnableStructFieldOrder c) (EnableInterfaceCheck c)
    (LoggerTypePatterns c) (EnumTypeSuffixes c).

Definition set_EnableEnumIota (v : bool) (c : Config) : Config :=
  mkConfig (EnableNoPkgLogger c) v (EnableCurrentYear c)
    (EnableCapitalComment c) (EnableFuncOpts c) (EnableRawString c)
    (EnableStructFieldOrder c) (EnableInterfaceCheck c)
    (LoggerTypePatterns c) (EnumTypeSuffixes c).

Definition set_EnableCurrentYear (v : bool) (c : Config) : Config :=
  mkConfig (EnableNoPkgLogger c) (EnableEnumIota c) v
    (EnableCapitalComment c) (EnableFuncOpts c) (EnableRawString c)
    (EnableStructFieldOrder c) (EnableInterfaceCheck c)
    (LoggerTypePatterns c) (EnumTypeSuffixes c).

Definition set_EnableCapitalComment (v : bool) (c : Config) : Config :=
  mkConfig (EnableNoPkgLogger c) (EnableEnumIota c) (EnableCurrentYear c)
    v (EnableFuncOpts c) (EnableRawString c) (EnableStructFieldOrder c)
    (EnableInterfaceCheck c) (LoggerTypePatterns c) (EnumTypeSuffixes c).

Definition set_EnableFuncOpts (v : bool) (c : Config) : Config :=
  mkConfig (EnableNoPkgLogger c) (EnableEnumIota c) (EnableCurrentYear c)
    (EnableCapitalComment c) v (EnableRawString c)
    (EnableStructFieldOrder c) (EnableInterfaceCheck c)
    (LoggerTypePatterns c) (EnumTypeSuffixes c).

Definition set_EnableRawString (v : bool) (c : Config) : Config :=
  mkConfig (EnableNoPkgLogger c) (EnableEnumIota c) (EnableCurrentYear c)
    (EnableCapitalComment c) (EnableFuncOpts c) v
    (EnableStructFieldOrder c) (EnableInterfaceCheck c)
    (LoggerTypePatterns c) (EnumTypeSuffixes c).

Definition set_EnableStructFieldOrder (v : bool) (c : Config) : Config :=
  mkConfig (EnableNoPkgLogger c) (EnableEnumIota c) (EnableCurrentYear c)
    (EnableCapitalComment c) (EnableFuncOpts c) (EnableRawString c) v
    (EnableInterfaceCheck c) (LoggerTypePatterns c) (EnumTypeSuffixes c).

Definition set_EnableInterfaceCheck (v : bool) (c : Config) : Config :=
  mkConfig (EnableNoPkgLogger c) (EnableEnumIota c) (EnableCurrentYear c)
    (EnableCapitalComment c) (EnableFuncOpts c) (EnableRawString c)
    (EnableStructFieldOrder c) v (LoggerTypePatterns c)
    (EnumTypeSuffixes c).

Definition set_LoggerTypePatterns (v : list string) (c : Config) : Config :=
  mkConfig (EnableNoPkgLogger c) (EnableEnumIota c) (EnableCurrentYear c)
    (EnableCapitalComment c) (EnableFuncOpts c) (EnableRawString c)
    (EnableStructFieldOrder c) (EnableInterfaceCheck c) v
    (EnumTypeSuffixes c).

Definition set_EnumTypeSuffixes (v : list string) (c : Config) : Config :=
  mkConfig (EnableNoPkgLogger c) (EnableEnumIota c) (EnableCurrentYear c)
    (EnableCapitalComment c) (EnableFuncOpts c) (EnableRawString c)
    (EnableStructFieldOrder c) (EnableInterfaceCheck c)
    (LoggerTypePatterns c) v.

(** [func (c *Config) Merge(other *Config)]: the receiver is threaded
    through and returned, a nil [other] is [None]. *)
Definition Merge (c : Config) (other : option Config) : Config :=
  match other with
  | None => c
  | Some other =>
      let c :=
        if (0 <? length (LoggerTypePatterns other))%nat
        then set_LoggerTypePatterns (LoggerTypePatterns other) c
        else c in
      if (0 <? length (EnumTypeSuffixes other))%nat
      then set_EnumTypeSuffixes (EnumTypeSuffixes other) c
      else c
  end.

(** Results of fallible calls: a value or an error. *)
Inductive result (E A : Type) : Type :=
| Ok (a : A)
| Err (e : E).
Arguments Ok {E A} a.
Arguments Err {E A} e.

Record Plugin := mkPlugin { cfg : Config }.

(** [New] round-trips the settings through [encoding/json].  The encoder
    and the two decodings (into a [Config] starting from its zero value,
    and into a [map[string]any]) belong to the Go library; they are the
    parameters of this section. *)
Section New.
Variables Settings Data Any Error : Type.
Variable Marshal : Settings -> result Error Data.
Variable UnmarshalConfig : Data -> result Error Config.
Variable UnmarshalMap : Data -> result Error (gmap string Any).

(** [if _, ok := rawSettings[key]; ok { cfg.F = userCfg.F }] *)
Definition override (rawSettings : gmap string Any) (key : string)
    (set : bool -> Config -> Config) (get : Config -> bool)
    (userCfg cfg : Config) : Config :=
  match rawSettings !! key with
  | Some _ => set (get userCfg) cfg
  | None => cfg
  end.

Definition New (settings : option Settings) : result Error Plugin :=
  let cfg := DefaultConfig in
  match settings with
  | None => Ok (mkPlugin cfg)
  | Some settings =>
      match Marshal settings with
      | Err err => Err err
      | Ok data =>
      match UnmarshalConfig data with
      | Err err => Err err
      | Ok userCfg =>
      match UnmarshalMap data with
      | Err err => Err err
      | Ok rawSettings =>
          let ov := override rawSettings in
          let cfg := ov "enable_no_pkg_logger"
                       set_EnableNoPkgLogger EnableNoPkgLogger userCfg cfg in
          let cfg := ov "enable_enum_iota"
                       set_EnableEnumIota EnableEnumIota userCfg cfg in
          let cfg := ov "enable_current_year"
                       set_EnableCurrentYear EnableCurrentYear userCfg cfg in
          let cfg := ov "enable_capital_comment"
                       set_EnableCapitalComment EnableCapitalComment
                       userCfg cfg in
          let cfg := ov "enable_func_opts"
                       set_EnableFuncOpts EnableFuncOpts userCfg cfg in
          let cfg := ov "enable_raw_string"
                       set_EnableRawString EnableRawString userCfg cfg in
          let cfg := ov "enable_struct_field_order"
                       set_EnableStructFieldOrder EnableStructFieldOrder
                       userCfg cfg in
          let cfg := ov "enable_interface_check"
                       set_EnableInterfaceCheck EnableInterfaceCheck
                       userCfg cfg in
          Ok (mkPlugin (Merge cfg (Some userCfg)))
      end end end
  end.
End New.

(** The JSON keys of the eight enable flags with their fields, as the
    struct tags of [Config] give them. *)
Definition boolFields : list (string * (Config -> bool)) :=
  [ ("enable_no_pkg_logger", EnableNoPkgLogger);
    ("enable_enum_iota", EnableEnumIota);
    ("enable_current_year", EnableCurrentYear);
    ("enable_capital_comment", EnableCapitalComment);
    ("enable_func_opts", EnableFuncOpts);
    ("enable_raw_string", EnableRawString);
    ("enable_struct_field_order", EnableStructFieldOrder);
    ("enable_interface_check", EnableInterfaceCheck) ].

End attgolinter.

(** ** Test data of [attgolinter] *)
Module attgolinter_testdata.
Import attgolinter.

(** A user configuration that switches a default-enabled rule off and
    gives its own suffix list, decoded by an identity codec. *)
Definition userSettings : Config * gmap string unit :=
  (mkConfig false false false false false false false false [] ["Level"],
   {[ "enable_no_pkg_logger" := tt ]}).

End attgolinter_testdata.

(** ** Package [rawstring] *)
Module rawstring.
Import ast analysis.

Definition minEscapesForWarning : nat := 3.

(** The bytes the two scanners test for. *)
Definition quote : ascii := "034".
Definition backslash : ascii := "092".
Definition backtick : ascii := "096".

(** [s[1 : len(s)-1]], for a string of two bytes at least. *)
Definition unquote (s : string) : string :=
  Strings.take (Strings.len s - 2) (Strings.drop 1 s).

(** The [switch] of [countEscapes] on the byte after a backslash. *)
Definition counted (nextChar : ascii) : bool :=
  if Ascii.eqb nextChar quote || Ascii.eqb nextChar backslash then true
  else if Ascii.eqb nextChar "n" || Ascii.eqb nextChar "t"
          || Ascii.eqb nextChar "r" then false
  else true.

(** The loop of [countEscapes] on the bytes from index [i] on: a backslash
    that is not the last byte is skipped with the byte after it. *)
Fixpoint countFrom (s : string) (count : nat) : nat :=
  match s with
  | String c (String nextChar rest as tail) =>
      if Ascii.eqb c backslash
      then countFrom rest (if counted nextChar then S count else count)
      else countFrom tail count
  | _ => count
  end.

Definition countEscapes (s : string) : nat :=
  if (Strings.len s <? 2)%nat then 0
  else countFrom (unquote s) 0.

(** The [switch] of [interpretString]. *)
Definition unescape (c : ascii) : ascii :=
  if Ascii.eqb c "n" then "010"
  else if Ascii.eqb c "t" then "009"
  else if Ascii.eqb c "r" then "013"
  else if Ascii.eqb c backslash then backslash
  else if Ascii.eqb c quote then quote
  else if Ascii.eqb c "039" then "039"
  else if Ascii.eqb c backtick then backtick
  else c.

(** The loop of [interpretString]; the bytes are written in order. *)
Fixpoint interpretFrom (s : string) : string :=
  match s with
  | String c (String nextChar rest as tail) =>
      if Ascii.eqb c backslash
      then String (unescape nextChar) (interpretFrom rest)
      else String c (interpretFrom tail)
  | _ => s
  end.

Definition interpretString (s : string) : string :=
  if (Strings.len s <? 2)%nat then ""
  else interpretFrom (unquote s).

Definition report (pos : token.Pos) (escapeCount : nat) : Diagnostic :=
  mkDiagnostic pos
    ("string has " +:+ strconv.Itoa (Z.of_nat escapeCount) +:+
     " escape sequences; consider using a raw string (backticks) for better readability").

(** [checkStringLiteral pass lit], on the position and the text of the
    literal. *)
Definition checkStringLiteral (pos : token.Pos) (value : string)
    : list Diagnostic :=
  if negb (Strings.HasPrefix value (String quote "")) then []
  else
    let interpreted := interpretString value in
    if Strings.Contains interpreted (String backtick "") then []
    else
      let escapeCount := countEscapes value in
      if (minEscapesForWarning <=? escapeCount)%nat
      then [report pos escapeCount]
      else [].

Arguments checkStringLiteral pos%_Z value%_string.

(** The function [run] gives to [ast.Inspect], on one node. *)
Definition visit (n : Expr) : list Diagnostic :=
  match n with
  | BasicLit pos token.STRING value => checkStringLiteral pos value
  | _ => []
  end.

Section WithInspect.
(** [ast.Inspect] calls its function on every node of the file, in
    depth-first order; [Nodes file] is the expressions among them, which
    [go/ast] computes. *)
Variable Nodes : File -> list Expr.

Definition run (pass : Pass) : list Diagnostic :=
  flat_map (fun file => flat_map visit (Nodes file)) (Files pass).
End WithInspect.

(** The number of bytes of a string that are equal to [c]. *)
Fixpoint occurrences (c : ascii) (s : string) : nat :=
  match s with
  | EmptyString => 0
  | String c' s' => (if Ascii.eqb c' c then 1 else 0) + occurrences c s'
  end.

End rawstring.

Module rawstring_testdata.
Import rawstring.

(** The literal ["C:\\Users\\name\\Documents\\file.txt"] of the test data,
    as the source text has it. *)
Definition path1 : string :=
  String quote
    ("C:" +:+ String backslash (String backslash "Users")
     +:+ String backslash (String backslash "name")
     +:+ String backslash (String backslash "Documents")
     +:+ String backslash (String backslash "file.txt"))
  +:+ String quote "".

(** ["a\\b"], ["hello world"] and ["use `backticks` here"]. *)
Definition short : string :=
  String quote ("a" +:+ String backslash (String backslash "b"))
  +:+ String quote "".

Definition plain : string :=
  String quote "hello world" +:+ String quote "".

Definition withBacktick : string :=
  String quote "use `backticks` here" +:+ String quote "".

End rawstring_testdata.

(** ** [plugin.go]: the analyzers a plugin builds *)
Module plugin.
Import analysis attgolinter.

(** An [analysis.Analyzer]: its name and its [Run] function, here the
    diagnostics it reports on a pass. *)
Record Analyzer := mkAnalyzer {
  Name : string;
  Run : Pass -> list Diagnostic
}.

Section Analyzers.
Context `{types.Checker} `{unicode.Tables}.
Variable CommentText : ast.CommentGroup -> string.
Variable Nodes : ast.File -> list ast.Expr.
(** [time.Now().Year()] *)
Variable currentYear : Z.

(** [nopkglogger.NewAnalyzer] and [enumiota.NewAnalyzer], and the variable
    [Analyzer] of each of the other packages. *)
Definition nopkglogger_NewAnalyzer (loggerTypePatterns : list string)
    : Analyzer :=
  mkAnalyzer "attgo_no_pkg_logger"
    (nopkglogger.run (nopkglogger.mkRunner loggerTypePatterns)).

Definition enumiota_NewAnalyzer (enumTypeSuffixes : list string) : Analyzer :=
  mkAnalyzer "attgo_enum_iota"
    (enumiota.run (enumiota.mkRunner enumTypeSuffixes)).

Definition currentyear_Analyzer : Analyzer :=
  mkAnalyzer "attgo_current_year"
    (fun pass => currentyear.run CommentText pass currentYear).

Definition capitalcomment_Analyzer : Analyzer :=
  mkAnalyzer "attgo_capital_comment" capitalcomment.run.

Definition funcopts_Analyzer : Analyzer :=
  mkAnalyzer "attgo_func_opts" funcopts.run.

Definition rawstring_Analyzer : Analyzer :=
  mkAnalyzer "attgo_raw_string" (rawstring.run Nodes).

Definition structfieldorder_Analyzer : Analyzer :=
  mkAnalyzer "attgo_struct_field_order" structfieldorder.run.

Definition interfacecheck_Analyzer : Analyzer :=
  mkAnalyzer "attgo_interface_check" interfacecheck.run.

(** [BuildAnalyzers]; the error it returns with the list is always nil. *)
Definition BuildAnalyzers (p : Plugin) : list Analyzer :=
  let analyzers := [] in
  let analyzers :=
    if EnableNoPkgLogger (cfg p)
    then analyzers ++ [nopkglogger_NewAnalyzer (LoggerTypePatterns (cfg p))]
    else analyzers in
  let analyzers :=
    if EnableEnumIota (cfg p)
    then analyzers ++ [enumiota_NewAnalyzer (EnumTypeSuffixes (cfg p))]
    else analyzers in
  let analyzers :=
    if EnableCurrentYear (cfg p)
    then analyzers ++ [currentyear_Analyzer] else analyzers in
  let analyzers :=
    if EnableCapitalComment (cfg p)
    then analyzers ++ [capitalcomment_Analyzer] else analyzers in
  let analyzers :=
    if EnableFuncOpts (cfg p)
    then analyzers ++ [funcopts_Analyzer] else analyzers in
  let analyzers :=
    if EnableRawString (cfg p)
    then analyzers ++ [rawstring_Analyzer] else analyzers in
  let analyzers :=
    if EnableStructFieldOrder (cfg p)
    then analyzers ++ [structfieldorder_Analyzer] else analyzers in
  let analyzers :=
    if EnableInterfaceCheck (cfg p)
    then analyzers ++ [interfacecheck_Analyzer] else analyzers in
  analyzers.

End Analyzers.

(** The names of the eight analyzers, in order of priority, each with the
    flag of the configuration that enables it. *)
Definition analyzerFlags : list (string * (Config -> bool)) :=
  [ ("attgo_no_pkg_logger", EnableNoPkgLogger);
    ("attgo_enum_iota", EnableEnumIota);
    ("attgo_current_year", EnableCurrentYear);
    ("attgo_capital_comment", EnableCapitalComment);
    ("attgo_func_opts", EnableFuncOpts);
    ("attgo_raw_string", EnableRawString);
    ("attgo_struct_field_order", EnableStructFieldOrder);
    ("attgo_interface_check", EnableInterfaceCheck) ].

End plugin.

(** ** Further test data *)
Module enumiota_examples.
Import ast types analysis enumiota enumiota_testdata.

(** The unit of [sanPass] with the constant declared before its type. *)
Definition sanPassForward : Pass :=
  mkPass
    [mkFile 1 []
       [ DGen (mkGenDecl token.CONST
                 [constSpec [mkIdent 200 "SANTypeDNS"] "SANType"
                    [BasicLit 220 token.STRING "dns"]]);
         typeDecl 100 "SANType" "string" ]]
    (objects [(200%Z, SANType)]) ∅.

End enumiota_examples.

Module structfieldorder_examples.
Import ast analysis structfieldorder structfieldorder_testdata.

(** [BadService] with an embedded field first and the three fields of the
    same type declared together. *)
Definition BadServiceGrouped : list Field :=
  [ mkField [] (EIdent (mkIdent 30 "Base"));
    mkField [mkIdent 31 "mu"] syncMutex;
    mkField [mkIdent 32 "log"; mkIdent 33 "config"; mkIdent 34 "metrics"]
      emptyInterface ].

End structfieldorder_examples.

Module interfacecheck_examples.
Import ast types analysis interfacecheck.

(** The specifications of all the top-level declarations of the unit, in
    the order [findStructPos] reads them. *)
Definition declaredSpecs (pass : Pass) : list Spec :=
  flat_map (fun file =>
    flat_map (fun decl =>
      match decl with
      | DGen genDecl => Specs genDecl
      | _ => []
      end) (Decls file)) (Files pass).

(** The declaration a diagnostic suggests, [var _ I = ( *S)(nil)], with its
    identifiers at [pos], and the unit with one more file that holds it. *)
Definition assertionFor (pos : token.Pos) (ifaceName structName : string)
    : Spec :=
  SValue (mkValueSpec [mkIdent pos "_"]
            (Some (EIdent (mkIdent pos ifaceName)))
            [CallExpr (ParenExpr (StarExpr (EIdent (mkIdent pos structName))))
                      [EIdent (mkIdent pos "nil")]]).

Definition withAssertion (pass : Pass) (pos : token.Pos)
    (ifaceName structName : string) : Pass :=
  mkPass
    (Files pass ++
       [mkFile pos []
          [DGen (mkGenDecl token.VAR [assertionFor pos ifaceName structName])]])
    (ObjectOf pass) (Pkg pass).
Arguments withAssertion pass pos%_Z (ifaceName structName)%_string.

End interfacecheck_examples.

Module currentyear_examples.
Import regexp currentyear.

(** The text after a year does not go on as a range: after its white
    space there is no hyphen. *)
Fixpoint skipSpaces (s : string) : string :=
  match s with
  | String c s' => if space c then skipSpaces s' else s
  | EmptyString => s
  end.

Definition noRange (post : string) : Prop :=
  Strings.HasPrefix (skipSpaces post) "-" = false.

(** The first byte of [s], if any, is not in the class [p]. *)
Definition headNot (p : ascii -> bool) (s : string) : Prop :=
  match s with
  | String c _ => p c = false
  | EmptyString => True
  end.

(** The optional start of a range of the pattern. *)
Definition rangePart : Regexp :=
  Quest (Concat (Repeat 4 (CharClass digit))
           (Concat (StarClass space)
              (Concat (Literal "-") (StarClass space)))).

(** The optional sign of the pattern. *)
Definition signPart : Regexp :=
  Quest (Alternate (Literal "©") (Literal "(c)")).

(** The range of a header, as [isRangeStart] has it, with what follows
    the year when there is no range. *)
Definition rangeBefore (range post : string) : Prop :=
  (range = "" /\ noRange post)
  \/ exists y ws2 ws3,
       range = y +:+ ws2 +:+ "-" +:+ ws3
       /\ isYear y /\ all space ws2 /\ all space ws3.

End currentyear_examples.

(* ===================================================================== *)
(** * Part II. Properties                                                 *)
(* ===================================================================== *)

(** ** Facts on lists *)
Module List_facts.

Lemma flat_map_flat_map {A B C : Type} (f : B -> list C) (g : A -> list B)
    (l : list A) :
  flat_map f (flat_map g l) = flat_map (fun x => flat_map f (g x)) l.
Proof.
  induction l as [|x l IH]; [reflexivity|].
  simpl. rewrite flat_map_app, IH. reflexivity.
Qed.

Lemma fold_left_flat_map {A B C : Type} (f : A -> C -> A) (g : B -> list C)
    (l : list B) (a : A) :
  fold_left f (flat_map g l) a =
    fold_left (fun a x => fold_left f (g x) a) l a.
Proof.
  revert a; induction l as [|x l IH]; intros a; [reflexivity|].
  simpl. rewrite fold_left_app. apply IH.
Qed.

Lemma fold_left_ext {A B : Type} (f g : A -> B -> A) (l : list B) (a : A) :
  (forall a x, f a x = g a x) -> fold_left f l a = fold_left g l a.
Proof.
  intros H. revert a; induction l as [|x l IH]; intros a; [reflexivity|].
  simpl. rewrite H. apply IH.
Qed.

End List_facts.

(** ** Facts on the [strings] helpers *)
Module Strings_facts.
Import Strings.

Lemma app_nil_l (s : string) : "" +:+ s = s.
Proof. reflexivity. Qed.

Lemma app_cons (c : ascii) (s t : string) :
  String c s +:+ t = String c (s +:+ t).
Proof. reflexivity. Qed.

Lemma app_nil_r (s : string) : s +:+ "" = s.
Proof.
  induction s as [|c s IH]; [reflexivity|]. rewrite app_cons, IH. reflexivity.
Qed.

Lemma app_assoc (a b c : string) : (a +:+ b) +:+ c = a +:+ (b +:+ c).
Proof.
  induction a as [|x a IH]; [reflexivity|].
  rewrite !app_cons, IH. reflexivity.
Qed.

Lemma len_app (a b : string) : len (a +:+ b) = len a + len b.
Proof.
  induction a as [|x a IH]; [reflexivity|].
  rewrite app_cons. unfold len in *. simpl. rewrite IH. reflexivity.
Qed.

Lemma take_app (a b : string) : take (len a) (a +:+ b) = a.
Proof.
  induction a as [|x a IH]; [destruct b; reflexivity|].
  rewrite app_cons. unfold len in *. simpl. rewrite IH. reflexivity.
Qed.

Lemma drop_app (a b : string) : drop (len a) (a +:+ b) = b.
Proof.
  induction a as [|x a IH]; [reflexivity|].
  rewrite app_cons. unfold len in *. simpl. exact IH.
Qed.

Lemma take_drop (n : nat) (s : string) : take n s +:+ drop n s = s.
Proof.
  revert s; induction n as [|n IH]; intros [|c s]; try reflexivity.
  simpl. rewrite app_cons, IH. reflexivity.
Qed.

Lemma app_inv_tail (a b s : string) : a +:+ s = b +:+ s -> a = b.
Proof.
  intros H.
  assert (Hl : len a = len b).
  { apply (f_equal len) in H. rewrite !len_app in H. lia. }
  revert b H Hl; induction a as [|x a IH]; intros [|y b] H Hl;
    unfold len in Hl; simpl in Hl; try discriminate; [reflexivity|].
  rewrite !app_cons in H. injection H as -> H.
  f_equal. apply IH; [exact H|unfold len; lia].
Qed.

Lemma app_inv_head (s a b : string) : s +:+ a = s +:+ b -> a = b.
Proof.
  induction s as [|c s IH]; [trivial|].
  rewrite !app_cons. intros [= H]. auto.
Qed.

Lemma HasPrefix_iff (s prefix : string) :
  HasPrefix s prefix = true <-> exists rest, s = prefix +:+ rest.
Proof.
  unfold HasPrefix. rewrite andb_true_iff, Nat.leb_le, String.eqb_eq. split.
  - intros [_ Ht]. exists (drop (len prefix) s).
    rewrite <- Ht at 1. symmetry. apply take_drop.
  - intros [rest ->]. rewrite len_app, take_app. split; [lia|reflexivity].
Qed.

Lemma HasPrefix_false (s prefix : string) :
  HasPrefix s prefix = false <-> ~ exists rest, s = prefix +:+ rest.
Proof.
  rewrite <- HasPrefix_iff. destruct (HasPrefix s prefix); split; congruence.
Qed.

Lemma TrimPrefix_app (prefix rest : string) :
  TrimPrefix (prefix +:+ rest) prefix = rest.
Proof.
  unfold TrimPrefix.
  replace (HasPrefix (prefix +:+ rest) prefix) with true
    by (symmetry; apply HasPrefix_iff; eauto).
  apply drop_app.
Qed.

Lemma HasSuffix_iff (s suffix : string) :
  HasSuffix s suffix = true <-> exists prefix, s = prefix +:+ suffix.
Proof.
  unfold HasSuffix. rewrite andb_true_iff, Nat.leb_le, String.eqb_eq. split.
  - intros [_ Ht]. exists (take (len s - len suffix) s).
    rewrite <- Ht at 2. symmetry. apply take_drop.
  - intros [prefix ->]. rewrite len_app.
    replace (len prefix + len suffix - len suffix) with (len prefix) by lia.
    rewrite drop_app. split; [lia|reflexivity].
Qed.

Lemma TrimSuffix_app (prefix suffix : string) :
  TrimSuffix (prefix +:+ suffix) suffix = prefix.
Proof.
  unfold TrimSuffix.
  replace (HasSuffix (prefix +:+ suffix) suffix) with true
    by (symmetry; apply HasSuffix_iff; eauto).
  rewrite len_app.
  replace (len prefix + len suffix - len suffix) with (len prefix) by lia.
  apply take_app.
Qed.

End Strings_facts.

(** ** Facts on [nopkglogger] *)
Module nopkglogger_facts.
Import ast types analysis nopkglogger nopkglogger_testdata Strings_facts.

Lemma stripPointer_Some (typeName pattern t p : string) :
  stripPointer typeName pattern = Some (t, p) <->
    (typeName = "*" +:+ t /\ pattern = "*" +:+ p)
    \/ (~ startsWithMarker pattern /\ ~ startsWithMarker typeName
        /\ t = typeName /\ p = pattern).
Proof.
  unfold stripPointer, startsWithMarker.
  destruct (Strings.HasPrefix pattern "*") eqn:Hp;
    destruct (Strings.HasPrefix typeName "*") eqn:Ht; simpl.
  - apply HasPrefix_iff in Hp as [p' ->], Ht as [t' ->].
    rewrite !TrimPrefix_app. split.
    + intros [= <- <-]. left. split; reflexivity.
    + intros [[Ht Hp]|[Hp _]].
      * apply app_inv_head in Ht, Hp. congruence.
      * exfalso. apply Hp. eauto.
  - apply HasPrefix_iff in Hp as [p' ->]. apply HasPrefix_false in Ht.
    split; [discriminate|].
    intros [[-> _]|[Hp _]]; exfalso; [apply Ht|apply Hp]; eauto.
  - apply HasPrefix_iff in Ht as [t' ->]. apply HasPrefix_false in Hp.
    split; [discriminate|].
    intros [[_ ->]|[_ [Ht _]]]; exfalso; [apply Hp|apply Ht]; eauto.
  - apply HasPrefix_false in Hp, Ht. split.
    + intros [= <- <-]. right. tauto.
    + intros [[-> _]|(_ & _ & -> & ->)]; [|reflexivity].
      exfalso. apply Ht. eauto.
Qed.

Lemma boundary_iff (t p : string) :
  (if Strings.HasSuffix t p then
     if String.eqb (Strings.TrimSuffix t p) ""
        || Strings.HasSuffix (Strings.TrimSuffix t p) "/"
        || Strings.HasSuffix (Strings.TrimSuffix t p) "."
     then true else false
   else false) = true <-> atBoundary t p.
Proof.
  unfold atBoundary. destruct (Strings.HasSuffix t p) eqn:Hs.
  - apply HasSuffix_iff in Hs as [pre ->]. rewrite TrimSuffix_app.
    destruct (_ || _ || _) eqn:Hb.
    + split; [intros _|reflexivity]. exists pre. split; [reflexivity|].
      rewrite !orb_true_iff, String.eqb_eq, !HasSuffix_iff in Hb. tauto.
    + split; [discriminate|]. intros (pre' & He & Hb').
      apply app_inv_tail in He as <-.
      rewrite <- !HasSuffix_iff, <- String.eqb_eq, <- !orb_true_iff in Hb'.
      rewrite orb_assoc in Hb'. congruence.
  - split; [discriminate|]. intros (pre & -> & _).
    assert (Strings.HasSuffix (pre +:+ p) p = true)
      by (apply HasSuffix_iff; eauto).
    congruence.
Qed.

Lemma matchTypePattern_matches (typeName pattern : string) :
  matchTypePattern typeName pattern = true <-> matches typeName pattern.
Proof.
  unfold matchTypePattern, matches.
  destruct (stripPointer typeName pattern) as [[t p]|] eqn:Hs.
  - cbv zeta. rewrite boundary_iff.
    apply stripPointer_Some in Hs. split.
    + intros Hb. destruct Hs as [[-> ->]|(Hp & Ht & -> & ->)].
      * left. eauto.
      * right. tauto.
    + intros [(t' & p' & -> & -> & Hb)|(Hp & Ht & Hb)].
      * destruct Hs as [[Ht Hp]|[Hp _]].
        -- apply app_inv_head in Ht, Hp. congruence.
        -- exfalso. apply Hp. exists p'. reflexivity.
      * destruct Hs as [[-> _]|(_ & _ & -> & ->)]; [|exact Hb].
        exfalso. apply Ht. exists t. reflexivity.
  - split; [discriminate|]. intros Hm. exfalso.
    assert (exists t p, stripPointer typeName pattern = Some (t, p))
      as (t & p & He); [|congruence].
    destruct Hm as [(t & p & -> & -> & _)|(Hp & Ht & _)].
    + exists t, p. apply stripPointer_Some. left. tauto.
    + exists typeName, pattern. apply stripPointer_Some. right. tauto.
Qed.


Lemma scopeEq_true (a : option Scope) (b : Scope) :
  scopeEq a b = true <-> a = Some b.
Proof.
  destruct a as [a|]; simpl; [|split; discriminate].
  rewrite Nat.eqb_eq. split; congruence.
Qed.

Section WithChecker.
Context `{Checker}.

Lemma isLoggerType_matches (r : runner) (t : Typ) :
  isLoggerType r t = true <->
    exists pattern,
      In pattern (loggerTypePatterns r) /\ matches (typeString t) pattern.
Proof.
  unfold isLoggerType. rewrite existsb_exists.
  split; intros (p & Hin & Hm); exists p; split; trivial;
    now apply matchTypePattern_matches.
Qed.

Lemma checkName_In (r : runner) (pass : Pass) (name : Ident)
    (d : Diagnostic) :
  In d (checkName r pass name) <->
    exists obj,
      ObjectOf pass name = Some obj
      /\ Parent obj = Some (PkgScope obj)
      /\ isLoggerType r (objType obj) = true
      /\ d = report name.
Proof.
  unfold checkName. destruct (ObjectOf pass name) as [obj|].
  - destruct (scopeEq (Parent obj) (PkgScope obj)) eqn:Hs; simpl.
    + apply scopeEq_true in Hs.
      destruct (isLoggerType r (objType obj)) eqn:Hl; simpl.
      * split.
        -- intros [<-|[]]. exists obj. tauto.
        -- intros (obj' & [= <-] & _ & _ & ->). now left.
      * split; [intros []|].
        intros (obj' & [= <-] & _ & Hl' & _). congruence.
    + split; [intros []|].
      intros (obj' & [= <-] & Hp & _). apply scopeEq_true in Hp.
      congruence.
  - simpl. split; [intros []|]. intros (obj & Hn & _). discriminate.
Qed.

Lemma run_topLevelNames (r : runner) (pass : Pass) :
  run r pass = flat_map (checkName r pass) (topLevelNames pass).
Proof.
  unfold run, topLevelNames.
  rewrite List_facts.flat_map_flat_map. apply flat_map_ext. intros file.
  rewrite List_facts.flat_map_flat_map. apply flat_map_ext. intros decl.
  destruct decl as [genDecl|]; [|reflexivity].
  rewrite List_facts.flat_map_flat_map. apply flat_map_ext. intros spec.
  destruct spec; reflexivity.
Qed.

Lemma logger_run_In (r : runner) (pass : Pass) (d : Diagnostic) :
  In d (run r pass) <->
    exists name obj,
      In name (topLevelNames pass)
      /\ ObjectOf pass name = Some obj
      /\ Parent obj = Some (PkgScope obj)
      /\ isLoggerType r (objType obj) = true
      /\ d = report name.
Proof.
  rewrite run_topLevelNames, in_flat_map. split.
  - intros (name & Hin & Hd). apply checkName_In in Hd as (obj & Hd).
    exists name, obj. tauto.
  - intros (name & obj & Hin & Hd). exists name. split; [exact Hin|].
    apply checkName_In. exists obj. exact Hd.
Qed.

End WithChecker.


End nopkglogger_facts.

(** ** Facts on [structfieldorder] *)
Module structfieldorder_facts.
Import ast analysis structfieldorder structfieldorder_testdata.
Local Open Scope Z_scope.

Lemma categorizeField_known (name : string) (typ : Expr) :
  categorizeField name typ <> categoryUnknown.
Proof.
  unfold categorizeField.
  repeat match goal with
         | |- context [if ?b then _ else _] => destruct b
         end; discriminate.
Qed.

Lemma toInt_nonneg (c : fieldCategory) : 0 <= toInt c.
Proof. destruct c; simpl; lia. Qed.

Lemma fold_names (structName : string) (typ : Expr) (names : list Ident)
    (st : loopState) :
  fold_left (checkName structName typ) names st =
    fold_left (step structName) (map (fun n => (n, typ)) names) st.
Proof.
  revert st; induction names as [|n names IH]; intros st; [reflexivity|].
  simpl. apply IH.
Qed.

Lemma fold_fields (structName : string) (fields : list Field)
    (st : loopState) :
  fold_left (checkField structName) fields st =
    fold_left (step structName) (namedFields fields) st.
Proof.
  revert st; induction fields as [|f fields IH]; intros st; [reflexivity|].
  unfold namedFields in *. simpl. rewrite fold_left_app, <- IH.
  f_equal. unfold checkField.
  destruct (fieldNames f) eqn:Hn; [reflexivity|].
  apply fold_names.
Qed.

Lemma step_eq (structName : string) (st : loopState) (f : Ident * Expr) :
  step structName st f =
    mkLoopState (category f) (Name (fst f))
      (if toInt (category f) <? toInt (lastCategory st)
       then reported st ++
            [report (fst f) (category f) (lastCategoryField st)
               (lastCategory st) structName]
       else reported st).
Proof.
  unfold step, checkName, category.
  pose proof (categorizeField_known (Name (fst f)) (snd f)) as Hk.
  destruct (categorizeField (Name (fst f)) (snd f)); congruence.
Qed.

Lemma scan_In (structName : string) (l : list (Ident * Expr))
    (st : loopState) (d : Diagnostic) :
  In d (reported (fold_left (step structName) l st)) <->
    In d (reported st)
    \/ (exists b post,
          l = b :: post
          /\ toInt (category b) < toInt (lastCategory st)
          /\ d = report (fst b) (category b) (lastCategoryField st)
                  (lastCategory st) structName)
    \/ (exists pre a b post,
          l = pre ++ a :: b :: post
          /\ toInt (category b) < toInt (category a)
          /\ d = reportAfter structName a b).
Proof.
  revert st; induction l as [|x l IH]; intros st.
  - simpl. split; [tauto|].
    intros [H|[(b & post & H & _)|(pre & a & b & post & H & _)]];
      [exact H|discriminate|destruct pre; discriminate].
  - simpl. rewrite IH, step_eq. cbn [lastCategory lastCategoryField reported].
    split.
    + intros [H|[(b & post & -> & Hlt & ->)|(pre & a & b & post & -> & Hlt & ->)]].
      * destruct (toInt (category x) <? toInt (lastCategory st)) eqn:Hx;
          [|tauto].
        apply in_app_or in H as [H|[<-|[]]]; [tauto|].
        right; left. exists x, l. rewrite Z.ltb_lt in Hx. tauto.
      * right; right. exists [], x, b, post. tauto.
      * right; right. exists (x :: pre), a, b, post. tauto.
    + intros [H|[(b & post & [= <- <-] & Hlt & ->)|(pre & a & b & post & He & Hlt & ->)]].
      * left. destruct (_ <? _); [apply in_or_app|]; tauto.
      * left. apply Z.ltb_lt in Hlt. rewrite Hlt.
        apply in_or_app. right. now left.
      * destruct pre as [|y pre]; simpl in He; injection He as <- He.
        -- subst l. right; left. exists b, post. tauto.
        -- subst l. right; right. exists pre, a, b, post. tauto.
Qed.

Lemma check_In (structName : string) (fields : list Field) (d : Diagnostic) :
  In d (checkStructFieldOrder structName (Some fields)) <->
    exists pre a b post,
      namedFields fields = pre ++ a :: b :: post
      /\ toInt (category b) < toInt (category a)
      /\ d = reportAfter structName a b.
Proof.
  unfold checkStructFieldOrder. destruct fields as [|f fields].
  - simpl. split; [intros []|].
    intros (pre & a & b & post & H & _). destruct pre; discriminate.
  - rewrite fold_fields, scan_In. simpl reported. simpl lastCategory.
    split.
    + intros [[]|[(b & post & _ & Hlt & _)|H]]; [|exact H].
      pose proof (toInt_nonneg (category b)). simpl in Hlt. lia.
    + tauto.
Qed.

Lemma Sorted_adjacent {A : Type} (R : A -> A -> Prop) (pre post : list A)
    (a b : A) :
  Sorted R (pre ++ a :: b :: post) -> R a b.
Proof.
  induction pre as [|x pre IH]; simpl; intros H.
  - apply Sorted_inv in H as [_ H]. now apply HdRel_inv in H.
  - apply Sorted_inv in H as [H _]. auto.
Qed.

(** C4, as the code has it.  A field is flagged exactly when its category
    strictly precedes, on the ranking logger < metrics < dependency < data <
    synchronization, the category of the named field declared just before it
    (the analyzer remembers the last category, not every category seen);
    hence a struct whose named fields are in the order of the ranking yields
    no diagnostic. *)
Theorem FieldOrder_adjacent (structName : string) (fields : list Field) :
  (forall d,
      In d (checkStructFieldOrder structName (Some fields)) <->
        exists pre a b post,
          namedFields fields = pre ++ a :: b :: post
          /\ toInt (category b) < toInt (category a)
          /\ d = reportAfter structName a b)
  /\ (Sorted inOrder (namedFields fields) ->
      checkStructFieldOrder structName (Some fields) = []).
Proof.
  split; [apply check_In|].
  intros Hs.
  destruct (checkStructFieldOrder structName (Some fields)) as [|d l] eqn:He;
    [reflexivity|].
  assert (Hd : In d (checkStructFieldOrder structName (Some fields)))
    by (rewrite He; now left).
  apply check_In in Hd as (pre & a & b & post & Hn & Hlt & _).
  rewrite Hn in Hs. apply Sorted_adjacent in Hs. unfold inOrder in Hs. lia.
Qed.

Lemma FieldOrder_adjacent_witness :
  Sorted inOrder (namedFields GoodService)
  /\ checkStructFieldOrder "GoodService" (Some GoodService) = [].
Proof.
  assert (Hs : Sorted inOrder (namedFields GoodService)).
  { repeat constructor; unfold inOrder; vm_compute; discriminate. }
  split; [exact Hs|].
  apply (proj2 (FieldOrder_adjacent "GoodService" GoodService) Hs).
Defined.

(** C4, as the specification words it, fails on [BadService]: [config]
    (data) comes after [mu] (synchronization), a category it precedes, and
    is not flagged, its predecessor being [log]. *)
Lemma FieldOrder_spec_counterexample :
  ~ FieldOrder_spec "BadService" BadService.
Proof.
  intros H.
  destruct (H (mkIdent 33 "config", emptyInterface)) as [_ Hflag].
  { vm_compute. tauto. }
  destruct Hflag as (d & Hd & Hp).
  { exists (mkIdent 31 "mu", syncMutex). split.
    - exists [], [(mkIdent 32 "log", emptyInterface)],
             [(mkIdent 34 "metrics", emptyInterface)]. reflexivity.
    - vm_compute. reflexivity. }
  vm_compute in Hd. simpl in Hp.
  destruct Hd as [<-|[<-|[]]]; discriminate Hp.
Qed.




End structfieldorder_facts.

(** ** Facts on [funcopts] *)
Module funcopts_facts.
Import ast analysis funcopts funcopts_testdata Strings_facts List_facts.












End funcopts_facts.

(** ** Facts on [enumiota] *)
Module enumiota_facts.
Import ast types analysis enumiota enumiota_testdata List_facts.

Lemma collectSpec_lookup (r : runner) (specs : list Spec)
    (m : gmap string TypeSpec) (typeName : string) :
  is_Some (fold_left (collectSpec r) specs m !! typeName) <->
    is_Some (m !! typeName)
    \/ (isEnumTypeName r typeName = true
        /\ exists typeSpec,
             In (SType typeSpec) specs /\ Name (tsName typeSpec) = typeName).
Proof.
  revert m; induction specs as [|spec specs IH]; intros m.
  - simpl. split; [tauto|]. intros [H|(_ & ? & [] & _)]. exact H.
  - simpl. rewrite IH. clear IH.
    assert (Hstep : is_Some (collectSpec r m spec !! typeName) <->
              is_Some (m !! typeName)
              \/ (isEnumTypeName r typeName = true
                  /\ exists typeSpec,
                       spec = SType typeSpec
                       /\ Name (tsName typeSpec) = typeName)).
    { unfold collectSpec. destruct spec as [|vs|ts].
      1,2: split; [tauto|]; intros [H|(_ & ? & ? & _)];
        [exact H|discriminate].
      destruct (isEnumTypeName r (Name (tsName ts))) eqn:He.
      - destruct (decide (Name (tsName ts) = typeName)) as [Hn|Hn].
        + rewrite Hn, lookup_insert_eq. split; [|eauto].
          intros _. right. rewrite <- Hn. split; [exact He|]. eauto.
        + rewrite lookup_insert_ne by exact Hn. split; [tauto|].
          intros [H|(_ & ? & [= <-] & ?)]; [exact H|contradiction].
      - split; [tauto|]. intros [H|(He' & ? & [= <-] & Hn)]; [exact H|].
        rewrite Hn in He. congruence. }
    rewrite Hstep. split.
    + intros [[H|(He & ts & -> & Hn)]|(He & ts & Hin & Hn)];
        [left; exact H|right..]; (split; [exact He|]); exists ts;
        simpl; tauto.
    + intros [H|(He & ts & [Hs|Hin] & Hn)].
      * left; left. exact H.
      * left; right. split; [exact He|]. exists ts. split; congruence.
      * right. split; [exact He|]. exists ts. tauto.
Qed.

Lemma collectEnumTypes_specs (r : runner) (pass : Pass) :
  collectEnumTypes r pass =
    fold_left (collectSpec r) (topLevelSpecs token.TYPE pass) ∅.
Proof.
  unfold collectEnumTypes, topLevelSpecs.
  rewrite fold_left_flat_map. apply fold_left_ext. intros m file.
  rewrite fold_left_flat_map. apply fold_left_ext. intros m' decl.
  destruct decl as [genDecl|]; [|reflexivity].
  destruct (token.eqb (Tok genDecl) token.TYPE); reflexivity.
Qed.

Lemma collectEnumTypes_candidate (r : runner) (pass : Pass)
    (typeName : string) :
  is_Some (collectEnumTypes r pass !! typeName) <-> candidate r pass typeName.
Proof.
  rewrite collectEnumTypes_specs, collectSpec_lookup. unfold candidate.
  split; [|tauto]. intros [H|H]; [|exact H].
  rewrite lookup_empty in H. destruct H; discriminate.
Qed.

Lemma run_specs (r : runner) (pass : Pass) :
  run r pass =
    flat_map (checkSpec pass (collectEnumTypes r pass))
             (topLevelSpecs token.CONST pass).
Proof.
  unfold run, topLevelSpecs. cbv zeta.
  rewrite flat_map_flat_map. apply flat_map_ext. intros file.
  rewrite flat_map_flat_map. apply flat_map_ext. intros decl.
  destruct decl as [genDecl|]; [|reflexivity].
  destruct (token.eqb (Tok genDecl) token.CONST); reflexivity.
Qed.

Lemma isStringType_true (t : Typ) : isStringType t = true <-> t = Basic String_.
Proof.
  destruct t as [|k| | | | |]; simpl; try (split; discriminate).
  destruct k; simpl; split; congruence.
Qed.

Lemma hasStringLiteralValue_true (vs : ValueSpec) :
  hasStringLiteralValue vs = true <->
    exists value, In value (vsValues vs) /\ isStringLiteral value = true.
Proof.
  unfold hasStringLiteralValue. rewrite <- existsb_exists.
  destruct (vsValues vs); simpl; split; congruence.
Qed.

Lemma checkSpec_In (r : runner) (pass : Pass) (spec : Spec) (d : Diagnostic) :
  In d (checkSpec pass (collectEnumTypes r pass) spec) <->
    exists valueSpec name0 rest obj typeName,
      spec = SValue valueSpec
      /\ vsNames valueSpec = name0 :: rest
      /\ ObjectOf pass name0 = Some obj
      /\ objType obj = Named typeName (Basic String_)
      /\ candidate r pass typeName
      /\ (exists value,
            In value (vsValues valueSpec) /\ isStringLiteral value = true)
      /\ d = report name0.
Proof.
  split.
  - unfold checkSpec. intros Hd.
    destruct spec as [|vs|]; try contradiction.
    destruct (vsNames vs) as [|name0 rest] eqn:Hn; [contradiction|].
    destruct (ObjectOf pass name0) as [obj|] eqn:Ho; [|contradiction].
    destruct (objType obj) as [| |typeName u| | | |] eqn:Ht;
      try contradiction.
    destruct (collectEnumTypes r pass !! typeName) eqn:Hl; [|contradiction].
    destruct (isStringType u) eqn:Hu; [|contradiction].
    destruct (hasStringLiteralValue vs) eqn:Hv; [|contradiction].
    destruct Hd as [<-|[]].
    apply isStringType_true in Hu as ->.
    exists vs, name0, rest, obj, typeName.
    do 4 (split; [trivial|]).
    split; [apply collectEnumTypes_candidate; rewrite Hl; eauto|].
    split; [now apply hasStringLiteralValue_true|reflexivity].
  - intros (vs & name0 & rest & obj & typeName & -> & Hn & Ho & Ht & Hc & Hv
            & ->).
    apply collectEnumTypes_candidate in Hc as [ts Hl].
    apply hasStringLiteralValue_true in Hv.
    unfold checkSpec. rewrite Hn, Ho, Ht, Hl, Hv. simpl. now left.
Qed.

Lemma enum_run_In (r : runner) (pass : Pass) (d : Diagnostic) :
  In d (run r pass) <->
    exists valueSpec name0 rest obj typeName,
      In (SValue valueSpec) (topLevelSpecs token.CONST pass)
      /\ vsNames valueSpec = name0 :: rest
      /\ ObjectOf pass name0 = Some obj
      /\ objType obj = Named typeName (Basic String_)
      /\ candidate r pass typeName
      /\ (exists value,
            In value (vsValues valueSpec) /\ isStringLiteral value = true)
      /\ d = report name0.
Proof.
  rewrite run_specs, in_flat_map. split.
  - intros (spec & Hin & Hd).
    apply checkSpec_In in Hd
      as (vs & name0 & rest & obj & typeName & -> & Hd).
    exists vs, name0, rest, obj, typeName. tauto.
  - intros (vs & name0 & rest & obj & typeName & Hin & Hd).
    exists (SValue vs). split; [exact Hin|].
    apply checkSpec_In. exists vs, name0, rest, obj, typeName. tauto.
Qed.





End enumiota_facts.

(** ** Facts on [interfacecheck] *)
Module interfacecheck_facts.
Import ast types analysis interfacecheck interfacecheck_testdata.
Import Strings_facts List_facts.


Lemma colon_app (a b : string) : colonFree (a +:+ ":" +:+ b) = false.
Proof.
  induction a as [|x a IH]; [reflexivity|].
  rewrite app_cons. simpl. rewrite IH. apply andb_false_r.
Qed.

Lemma key_inj (i s i' s' : string) :
  colonFree i = true -> colonFree s = true ->
  key i s = key i' s' -> i = i' /\ s = s'.
Proof.
  unfold key. revert i'; induction i as [|c i IH]; intros i' Hi Hs He.
  - destruct i' as [|c' i'].
    + apply app_inv_head in He. apply (app_inv_head ":") in He. tauto.
    + change ("" +:+ ":" +:+ s) with (String ":" s) in He.
      rewrite app_cons in He. injection He as <- ->.
      rewrite colon_app in Hs. discriminate.
  - simpl in Hi. apply andb_true_iff in Hi as [Hc Hi].
    destruct i' as [|c' i'].
    + change ("" +:+ ":" +:+ s') with (String ":" s') in He.
      rewrite app_cons in He. injection He as -> _.
      simpl in Hc. discriminate.
    + rewrite !app_cons in He. injection He as <- He.
      destruct (IH i' Hi Hs He) as [-> ->]. tauto.
Qed.

Lemma checks_step_index (checks : gmap string bool) (spec : Spec)
    (k : string) :
  index (collectSpec checks spec) k = true <->
    index checks k = true \/ records spec k.
Proof.
  assert (Hno : ~ records spec k ->
            (index checks k = true <->
             index checks k = true \/ records spec k)) by tauto.
  unfold collectSpec.
  destruct spec as [|vs|]; try (apply Hno; intros (? & ? & ? & _); discriminate).
  destruct (vsNames vs) as [|name [|]] eqn:Hn;
    try (apply Hno; intros (? & ? & [= <-] & ? & _); congruence).
  destruct (String.eqb (Name name) "_") eqn:Hu; simpl.
  2: { apply Hno. intros (? & ? & [= <-] & Hn' & Hu' & _).
       rewrite Hn in Hn'. injection Hn' as <-.
       apply String.eqb_neq in Hu. contradiction. }
  apply String.eqb_eq in Hu.
  destruct (String.eqb (getInterfaceName (vsType vs)) "") eqn:Hi.
  { apply String.eqb_eq in Hi. apply Hno.
    intros (? & ? & [= <-] & _ & _ & ? & _). contradiction. }
  destruct (String.eqb (getStructNameFromNilCast vs) "") eqn:Hs.
  { apply String.eqb_eq in Hs. apply Hno.
    intros (? & ? & [= <-] & _ & _ & _ & ? & _). contradiction. }
  apply String.eqb_neq in Hi, Hs. unfold index.
  destruct (decide (key (getInterfaceName (vsType vs))
                        (getStructNameFromNilCast vs) = k)) as [Hk|Hk].
  - rewrite Hk, lookup_insert_eq. split; [|reflexivity].
    intros _. right. exists vs, name. tauto.
  - rewrite lookup_insert_ne by exact Hk. split; [tauto|].
    intros [H|(? & ? & [= <-] & _ & _ & _ & _ & ?)]; [exact H|contradiction].
Qed.

Lemma checks_fold_index (specs : list Spec) (checks : gmap string bool)
    (k : string) :
  index (fold_left collectSpec specs checks) k = true <->
    index checks k = true \/ exists spec, In spec specs /\ records spec k.
Proof.
  revert checks; induction specs as [|spec specs IH]; intros checks.
  - simpl. split; [tauto|]. intros [H|(? & [] & _)]. exact H.
  - simpl. rewrite IH, checks_step_index. split.
    + intros [[H|H]|(spec' & Hin & H)]; eauto.
    + intros [H|(spec' & [<-|Hin] & H)]; eauto.
Qed.

Lemma collectExistingChecks_specs (pass : Pass) :
  collectExistingChecks pass =
    fold_left collectSpec (topLevelSpecs token.VAR pass) ∅.
Proof.
  unfold collectExistingChecks, topLevelSpecs.
  rewrite fold_left_flat_map. apply fold_left_ext. intros m file.
  rewrite fold_left_flat_map. apply fold_left_ext. intros m' decl.
  destruct decl as [genDecl|]; [|reflexivity].
  destruct (token.eqb (Tok genDecl) token.VAR); reflexivity.
Qed.


Section WithChecker.
Context `{Checker}.

Lemma interfaces_lookup (pass : Pass) (ifaceName : string) (iface : Typ) :
  omap interfaceOf (Pkg pass) !! ifaceName = Some iface <->
    exists obj Methods,
      Pkg pass !! ifaceName = Some obj /\ Kind obj = TypeName
      /\ Underlying (objType obj) = Interface Methods
      /\ 0 < NumMethods Methods
      /\ iface = Interface Methods.
Proof.
  rewrite lookup_omap. destruct (Pkg pass !! ifaceName) as [obj|]; simpl.
  - unfold interfaceOf. split.
    + destruct (Kind obj) eqn:Hk; try discriminate.
      destruct (Underlying (objType obj)) as [| | | | |Methods|] eqn:Hu;
        try discriminate.
      destruct (0 <? NumMethods Methods)%nat eqn:Hn; [|discriminate].
      intros [= <-]. apply Nat.ltb_lt in Hn. exists obj, Methods. tauto.
    + intros (obj' & Methods & [= <-] & -> & -> & Hn & ->).
      apply Nat.ltb_lt in Hn. rewrite Hn. reflexivity.
  - split; [discriminate|]. intros (? & ? & ? & _). discriminate.
Qed.

Lemma structs_lookup (pass : Pass) (structName : string) :
  is_Some (omap structOf (Pkg pass) !! structName) <-> isStruct pass structName.
Proof.
  rewrite lookup_omap. unfold isStruct.
  destruct (Pkg pass !! structName) as [obj|]; simpl.
  - unfold structOf. split.
    + destruct (Kind obj) eqn:Hk; try (intros [? ?]; discriminate).
      destruct (Underlying (objType obj)) as [| | | |n| |] eqn:Hu;
        try (intros [? ?]; discriminate).
      intros _. exists obj, n. tauto.
    + intros (obj' & n & [= <-] & -> & ->). eauto.
  - split; [intros [? ?]; discriminate|]. intros (? & ? & ? & _). discriminate.
Qed.

Lemma checkStruct_In (pass : Pass) (s structName ifaceName : string) :
  In (s, ifaceName)
     (checkStruct pass (omap interfaceOf (Pkg pass))
        (collectExistingChecks pass) structName) <->
    s = structName
    /\ (exists n, isInterface pass ifaceName n /\ 0 < n)
    /\ satisfies pass structName ifaceName
    /\ index (collectExistingChecks pass) (key ifaceName structName) = false
    /\ findStructPos pass structName <> token.NoPos.
Proof.
  unfold checkStruct, satisfies. split.
  - intros Hin.
    destruct (Pkg pass !! structName) as [structObj|] eqn:Hobj;
      [|contradiction].
    apply in_flat_map in Hin as ([i iface] & Hi & Hin).
    apply list_elem_of_In, elem_of_map_to_list in Hi.
    destruct (negb (Implements (objType structObj) iface)
              && negb (Implements (NewPointer (objType structObj)) iface))
      eqn:Himp; [contradiction|].
    destruct (index (collectExistingChecks pass) (key i structName)) eqn:Hk;
      [contradiction|].
    destruct (Z.eqb (findStructPos pass structName) token.NoPos) eqn:Hp;
      [contradiction|].
    destruct Hin as [[= -> ->]|[]].
    apply Z.eqb_neq in Hp.
    apply interfaces_lookup in Hi
      as (ifaceObj & Methods & Hio & Hik & Hiu & Hn & ->).
    split; [reflexivity|].
    split; [exists (NumMethods Methods); split; [|exact Hn];
            exists ifaceObj, Methods; tauto|].
    split; [|tauto].
    exists structObj, ifaceObj. rewrite Hiu.
    split; [reflexivity|]. split; [exact Hio|].
    apply andb_false_iff in Himp as [Hv|Hv]; apply negb_false_iff in Hv; tauto.
  - intros (-> & (n & (ifaceObj & Methods & Hio & Hik & Hiu & <-) & Hn)
            & (structObj & ifaceObj' & Hso & Hio' & Himp) & Hk & Hp).
    rewrite Hio in Hio'. injection Hio' as <-. rewrite Hiu in Himp.
    rewrite Hso. apply in_flat_map.
    exists (ifaceName, Interface Methods). split.
    { apply list_elem_of_In, elem_of_map_to_list, interfaces_lookup.
      exists ifaceObj, Methods. tauto. }
    replace (negb (Implements (objType structObj) (Interface Methods))
             && negb (Implements (NewPointer (objType structObj))
                        (Interface Methods))) with false
      by (destruct Himp as [-> | ->]; simpl;
          rewrite ?andb_false_r; reflexivity).
    rewrite Hk. apply Z.eqb_neq in Hp. rewrite Hp. now left.
Qed.

Lemma flaggedPairs_In (pass : Pass) (structName ifaceName : string) :
  In (structName, ifaceName) (flaggedPairs pass) <->
    isStruct pass structName
    /\ (exists n, isInterface pass ifaceName n /\ 0 < n)
    /\ satisfies pass structName ifaceName
    /\ index (collectExistingChecks pass) (key ifaceName structName) = false
    /\ findStructPos pass structName <> token.NoPos.
Proof.
  unfold flaggedPairs. cbv zeta. rewrite in_flat_map. split.
  - intros ([s t] & Hs & Hin).
    apply list_elem_of_In, elem_of_map_to_list in Hs.
    apply checkStruct_In in Hin as (-> & Hin).
    split; [apply structs_lookup; eauto|exact Hin].
  - intros (Hs & Hin). apply structs_lookup in Hs as [t Hs].
    exists (structName, t). split.
    + apply list_elem_of_In, elem_of_map_to_list. exact Hs.
    + apply checkStruct_In. tauto.
Qed.




End WithChecker.


End interfacecheck_facts.

(** ** Facts on [regexp] and [strconv] *)
Module regexp_facts.
Import regexp Strings_facts.

Lemma all_nil (p : ascii -> bool) : all p "".
Proof. reflexivity. Qed.

Lemma all_cons (p : ascii -> bool) (c : ascii) (s : string) :
  all p (String c s) <-> p c = true /\ all p s.
Proof. unfold all. simpl. apply andb_true_iff. Qed.

Ltac found :=
  split; [try reflexivity; rewrite ?app_assoc; reflexivity|];
  split; [eauto using Matches, all_nil|try assumption; auto].

Lemma matchStar_sound {R : Type} (p : ascii -> bool) (s : string)
    (cap : option string) (k : cont) (res : R) :
  matchStar p s cap k = Some res ->
  exists a rest, s = a +:+ rest /\ all p a /\ k rest cap = Some res.
Proof.
  induction s as [|c s IH]; simpl; intros Hm.
  - exists "", "". auto using all_nil.
  - destruct (p c) eqn:Hp.
    + destruct (matchStar p s cap k) as [res'|] eqn:Hs.
      * injection Hm as ->. destruct (IH eq_refl) as (a & rest & -> & Ha & Hk).
        exists (String c a), rest. rewrite app_cons, all_cons. auto.
      * exists "", (String c s). auto using all_nil.
    + exists "", (String c s). auto using all_nil.
Qed.

(** The matcher only finds matches of the expression. *)
Theorem matchRe_sound {R : Type} (re : Regexp) :
  forall (s : string) (cap : option string) (k : cont) (res : R),
    matchRe re s cap k = Some res ->
    exists a rest cap',
      s = a +:+ rest /\ Matches re a cap cap' /\ k rest cap' = Some res.
Proof.
  induction re as [l|p|r1 IH1 r2 IH2|r1 IH1 r2 IH2|r IH|p|n r IH|r IH];
    intros s cap k res Hm; simpl in Hm.
  - destruct (Strings.HasPrefix s l) eqn:Hp; [|discriminate].
    apply HasPrefix_iff in Hp as [rest ->]. rewrite drop_app in Hm.
    exists l, rest, cap. found.
  - destruct s as [|c s]; [discriminate|].
    destruct (p c) eqn:Hp; [|discriminate].
    exists (String c ""), s, cap. found.
  - apply IH1 in Hm as (a & rest & cap' & -> & H1 & Hm).
    apply IH2 in Hm as (b & rest' & cap'' & -> & H2 & Hk).
    exists (a +:+ b), rest', cap''. found.
  - destruct (matchRe r1 s cap k) as [res'|] eqn:H1.
    + injection Hm as ->.
      apply IH1 in H1 as (a & rest & cap' & -> & H1 & Hk).
      exists a, rest, cap'. found.
    + apply IH2 in Hm as (a & rest & cap' & -> & H2 & Hk).
      exists a, rest, cap'. found.
  - destruct (matchRe r s cap k) as [res'|] eqn:H1.
    + injection Hm as ->.
      apply IH in H1 as (a & rest & cap' & -> & H1 & Hk).
      exists a, rest, cap'. found.
    + exists "", s, cap. found.
  - apply matchStar_sound in Hm as (a & rest & -> & Ha & Hk).
    exists a, rest, cap. found.
  - revert s cap Hm. induction n as [|n IHn]; intros s cap Hm.
    + exists "", s, cap. found.
    + apply IH in Hm as (a & rest & cap' & -> & H1 & Hm).
      apply IHn in Hm as (b & rest' & cap'' & -> & H2 & Hk).
      exists (a +:+ b), rest', cap''. found.
  - apply IH in Hm as (a & rest & cap' & -> & H1 & Hk).
    rewrite len_app in Hk.
    replace (Strings.len a + Strings.len rest - Strings.len rest)
      with (Strings.len a) in Hk by lia.
    rewrite take_app in Hk.
    exists a, rest, (Some a). found.
Qed.

Lemma matchAt_sound (re : Regexp) (s : string) (matches : list string) :
  matchAt re s = Some matches ->
  exists a rest cap',
    s = a +:+ rest /\ Matches re a None cap'
    /\ matches = [a; match cap' with Some g => g | None => "" end].
Proof.
  unfold matchAt. intros Hm.
  apply matchRe_sound in Hm as (a & rest & cap' & -> & Hr & Hk).
  rewrite len_app in Hk.
  replace (Strings.len a + Strings.len rest - Strings.len rest)
    with (Strings.len a) in Hk by lia.
  rewrite take_app in Hk. injection Hk as <-.
  exists a, rest, cap'. auto.
Qed.

Lemma FindStringSubmatch_sound (re : Regexp) (s : string) (m : string)
    (matches : list string) :
  FindStringSubmatch re s = m :: matches ->
  exists pre a rest cap',
    s = pre +:+ a +:+ rest /\ Matches re a None cap'
    /\ m :: matches = [a; match cap' with Some g => g | None => "" end].
Proof.
  induction s as [|c s IH]; simpl; intros Hf.
  - destruct (matchAt re "") as [ms|] eqn:Hm; [|discriminate].
    subst ms. apply matchAt_sound in Hm as (a & rest & cap' & He & Hr & ->).
    exists "", a, rest, cap'. auto.
  - destruct (matchAt re (String c s)) as [ms|] eqn:Hm.
    + subst ms. apply matchAt_sound in Hm as (a & rest & cap' & He & Hr & ->).
      exists "", a, rest, cap'. auto.
    + apply IH in Hf as (pre & a & rest & cap' & -> & Hr & Hf).
      exists (String c pre), a, rest, cap'. rewrite app_cons. auto.
Qed.

Lemma Matches_Repeat_class (p : ascii -> bool) (n : nat) (a : string)
    (cap cap' : option string) :
  Matches (Repeat n (CharClass p)) a cap cap' ->
  String.length a = n /\ all p a /\ cap' = cap.
Proof.
  revert a cap cap'; induction n as [|n IH]; intros a cap cap' Hm;
    inversion Hm; subst.
  - auto using all_nil.
  - match goal with
    | H1 : Matches (CharClass p) _ _ _, H2 : Matches (Repeat n _) _ _ _ |- _ =>
        inversion H1; subst; apply IH in H2 as (Hl & Ha & ->)
    end.
    rewrite app_cons, app_nil_l, all_cons. simpl. auto.
Qed.

Lemma digits_total (s : string) (acc : Z) :
  all digit s -> exists z, strconv.digits s acc = Some z.
Proof.
  revert acc; induction s as [|c s IH]; intros acc Ha; simpl; [eauto|].
  apply all_cons in Ha as [-> Ha]. auto.
Qed.

Lemma Atoi_total (s : string) :
  s <> "" -> all digit s -> exists z, strconv.Atoi s = Some z.
Proof.
  intros Hn Ha. destruct s; [contradiction|]. now apply digits_total.
Qed.

End regexp_facts.

(** ** Facts on [currentyear] *)
Module currentyear_facts.
Import ast analysis regexp currentyear currentyear_testdata.
Import Strings_facts regexp_facts.

Lemma sign_shape (a : string) (cap cap' : option string) :
  Matches (Quest (Alternate (Literal "©") (Literal "(c)"))) a cap cap' ->
  (a = "" \/ a = "©" \/ a = "(c)") /\ cap' = cap.
Proof.
  intros Hm. inversion Hm as [| | | | |? ? ? ? Ha| | | | |]; subst; [|auto].
  inversion Ha as [| | |? ? ? ? ? Hl|? ? ? ? ? Hl| | | | | |]; subst;
    inversion Hl; subst; auto.
Qed.

Lemma range_shape (a : string) (cap cap' : option string) :
  Matches
    (Quest (Concat (Repeat 4 (CharClass digit))
              (Concat (StarClass space)
                 (Concat (Literal "-") (StarClass space)))))
    a cap cap' ->
  isRangeStart a /\ cap' = cap.
Proof.
  intros Hm. unfold isRangeStart.
  inversion Hm as [| | | | |? ? ? ? Ha| | | | |]; subst; [|auto].
  repeat match goal with
         | H : Matches (Concat _ _) _ _ _ |- _ => inversion H; subst; clear H
         | H : Matches (Literal _) _ _ _ |- _ => inversion H; subst; clear H
         | H : Matches (StarClass _) _ _ _ |- _ => inversion H; subst; clear H
         | H : Matches (Repeat 4 _) _ _ _ |- _ =>
             apply Matches_Repeat_class in H as (? & ? & ?); subst
         end.
  split; [|reflexivity]. right. unfold isYear. eauto 10.
Qed.

Lemma pattern_shape (a : string) (cap' : option string) :
  Matches copyrightYearPattern a None cap' ->
  exists c ws sign ws' range yearStr,
    a = String c "opyright" +:+ ws +:+ sign +:+ ws' +:+ range +:+ yearStr
    /\ (c = "C" \/ c = "c")%char
    /\ all space ws
    /\ (sign = "" \/ sign = "©" \/ sign = "(c)")
    /\ all space ws'
    /\ isRangeStart range
    /\ isYear yearStr
    /\ cap' = Some yearStr.
Proof.
  unfold copyrightYearPattern. intros Hm.
  repeat match goal with
         | H : Matches (Concat _ _) _ _ _ |- _ => inversion H; subst; clear H
         | H : Matches (Literal _) _ _ _ |- _ => inversion H; subst; clear H
         | H : Matches (StarClass _) _ _ _ |- _ => inversion H; subst; clear H
         | H : Matches (CharClass _) _ _ _ |- _ => inversion H; subst; clear H
         | H : Matches (Capture _) _ _ _ |- _ => inversion H; subst; clear H
         | H : Matches (Repeat 4 _) _ _ _ |- _ =>
             apply Matches_Repeat_class in H as (? & ? & ?); subst
         | H : Matches (Quest (Alternate _ _)) _ _ _ |- _ =>
             apply sign_shape in H as (? & ?); subst
         | H : Matches (Quest (Concat _ _)) _ _ _ |- _ =>
             apply range_shape in H as (? & ?); subst
         end.
  match goal with
  | H : (_ || _) = true |- _ =>
      rewrite orb_true_iff, !Ascii.eqb_eq in H
  end.
  unfold isYear. do 6 eexists. split; [reflexivity|]. auto 10.
Qed.


Section WithText.
Variable CommentText : CommentGroup -> string.



Lemma found_year (text whole yearStr : string) (more : list string) :
  FindStringSubmatch copyrightYearPattern text = whole :: yearStr :: more ->
  yearAfterMarker text yearStr
  /\ exists year, strconv.Atoi yearStr = Some year.
Proof.
  intros Hf.
  apply FindStringSubmatch_sound in Hf
    as (pre & a & rest & cap' & -> & Hm & He).
  apply pattern_shape in Hm
    as (c & ws & sign & ws' & range & y & -> & Hc & Hws & Hs & Hws' & Hr
        & Hy & ->).
  injection He as -> -> ->.
  split.
  - exists pre, c, ws, sign, ws', range, rest.
    split; [|auto 10].
    rewrite !app_cons, !app_assoc. reflexivity.
  - destruct Hy as [Hl Hd]. apply Atoi_total; [|exact Hd].
    intros ->. discriminate.
Qed.


End WithText.



End currentyear_facts.

(** ** Facts on [capitalcomment] *)
Module capitalcomment_facts.
Import ast analysis unicode capitalcomment capitalcomment_testdata.

Section WithTables.
Context `{Tables}.




End WithTables.



End capitalcomment_facts.

Module attgolinter_facts.
Import attgolinter attgolinter_testdata.

Lemma Merge_flags (c : Config) (other : option Config) :
  forall key get, In (key, get) boolFields -> get (Merge c other) = get c.
Proof.
  intros key get Hin. destruct other as [o|]; [|reflexivity].
  unfold Merge.
  destruct (0 <? length (LoggerTypePatterns o))%nat,
           (0 <? length (EnumTypeSuffixes o))%nat;
    simpl in Hin; intuition (simplify_eq; reflexivity).
Qed.

Lemma Merge_LoggerTypePatterns (c o : Config) :
  LoggerTypePatterns (Merge c (Some o)) =
    match LoggerTypePatterns o with
    | [] => LoggerTypePatterns c
    | _ :: _ => LoggerTypePatterns o
    end.
Proof.
  unfold Merge.
  destruct (LoggerTypePatterns o), (EnumTypeSuffixes o); reflexivity.
Qed.

Lemma Merge_EnumTypeSuffixes (c o : Config) :
  EnumTypeSuffixes (Merge c (Some o)) =
    match EnumTypeSuffixes o with
    | [] => EnumTypeSuffixes c
    | _ :: _ => EnumTypeSuffixes o
    end.
Proof.
  unfold Merge.
  destruct (LoggerTypePatterns o), (EnumTypeSuffixes o); reflexivity.
Qed.

(** C10. [Merge] is a frame for the eight enable flags: whatever the
    argument holds, the receiver keeps each of its boolean fields, so only
    the two list fields can change; a nil argument changes nothing. *)
Theorem Merge_frame :
  forall (c : Config) (other : option Config),
    EnableNoPkgLogger (Merge c other) = EnableNoPkgLogger c
    /\ EnableEnumIota (Merge c other) = EnableEnumIota c
    /\ EnableCurrentYear (Merge c other) = EnableCurrentYear c
    /\ EnableCapitalComment (Merge c other) = EnableCapitalComment c
    /\ EnableFuncOpts (Merge c other) = EnableFuncOpts c
    /\ EnableRawString (Merge c other) = EnableRawString c
    /\ EnableStructFieldOrder (Merge c other) = EnableStructFieldOrder c
    /\ EnableInterfaceCheck (Merge c other) = EnableInterfaceCheck c
    /\ Merge c None = c.
Proof.
  intros c other.
  repeat split; try (eapply Merge_flags; simpl; eauto 10).
Qed.

Section New.
Variables Settings Data Any Error : Type.
Variable Marshal : Settings -> result Error Data.
Variable UnmarshalConfig : Data -> result Error Config.
Variable UnmarshalMap : Data -> result Error (gmap string Any).

Let New := New Settings Data Any Error Marshal UnmarshalConfig UnmarshalMap.

Lemma override_other {A : Type} (proj : Config -> A)
    (rawSettings : gmap string Any) key set get userCfg c :
  (forall v c', proj (set v c') = proj c') ->
  proj (override Any rawSettings key set get userCfg c) = proj c.
Proof.
  intros H. unfold override. destruct (rawSettings !! key); auto.
Qed.

Lemma override_same (rawSettings : gmap string Any) key set get userCfg c :
  (forall v c', get (set v c') = v) ->
  get (override Any rawSettings key set get userCfg c) =
    match rawSettings !! key with
    | Some _ => get userCfg
    | None => get c
    end.
Proof.
  intros H. unfold override. destruct (rawSettings !! key); auto.
Qed.

Ltac skip_overrides :=
  repeat (rewrite override_other by (intros; reflexivity)).

(** The eight assignments of [New], before [Merge]. *)
Lemma override_flags (rawSettings : gmap string Any) (userCfg : Config) :
  forall key get, In (key, get) boolFields ->
    let ov := override Any rawSettings in
    get (ov "enable_interface_check"
           set_EnableInterfaceCheck EnableInterfaceCheck userCfg
        (ov "enable_struct_field_order"
           set_EnableStructFieldOrder EnableStructFieldOrder userCfg
        (ov "enable_raw_string"
           set_EnableRawString EnableRawString userCfg
        (ov "enable_func_opts"
           set_EnableFuncOpts EnableFuncOpts userCfg
        (ov "enable_capital_comment"
           set_EnableCapitalComment EnableCapitalComment userCfg
        (ov "enable_current_year"
           set_EnableCurrentYear EnableCurrentYear userCfg
        (ov "enable_enum_iota"
           set_EnableEnumIota EnableEnumIota userCfg
        (ov "enable_no_pkg_logger"
           set_EnableNoPkgLogger EnableNoPkgLogger userCfg
           DefaultConfig))))))))
    = match rawSettings !! key with
      | Some _ => get userCfg
      | None => get DefaultConfig
      end.
Proof.
  intros key get Hin ov. subst ov. simpl in Hin.
  repeat (destruct Hin as [Hin|Hin]; [inversion Hin; subst; clear Hin|]);
    try contradiction;
    skip_overrides;
    (rewrite override_same by (intros; reflexivity));
    skip_overrides; reflexivity.
Qed.

(** C3. When the settings decode, [New] succeeds, and in the effective
    configuration every enable flag whose key is present in the user's
    settings has the user's value (true or false), every flag whose key
    is absent has its default, and each of the two lists is the user's
    when that is non-empty and the default otherwise. *)
Theorem New_effective (settings : Settings) (data : Data)
    (userCfg : Config) (rawSettings : gmap string Any) :
  Marshal settings = Ok data ->
  UnmarshalConfig data = Ok userCfg ->
  UnmarshalMap data = Ok rawSettings ->
  exists eff : Config,
    New (Some settings) = Ok (mkPlugin eff)
    /\ (forall key get, In (key, get) boolFields ->
          (is_Some (rawSettings !! key) -> get eff = get userCfg)
          /\ (rawSettings !! key = None -> get eff = get DefaultConfig))
    /\ (LoggerTypePatterns userCfg <> [] ->
          LoggerTypePatterns eff = LoggerTypePatterns userCfg)
    /\ (LoggerTypePatterns userCfg = [] ->
          LoggerTypePatterns eff = LoggerTypePatterns DefaultConfig)
    /\ (EnumTypeSuffixes userCfg <> [] ->
          EnumTypeSuffixes eff = EnumTypeSuffixes userCfg)
    /\ (EnumTypeSuffixes userCfg = [] ->
          EnumTypeSuffixes eff = EnumTypeSuffixes DefaultConfig).
Proof.
  intros HM HC HR. unfold New, attgolinter.New.
  rewrite HM, HC, HR. cbv zeta.
  eexists; split; [reflexivity|].
  split; [|repeat split].
  - intros key get Hin.
    rewrite (Merge_flags _ _ key get Hin).
    rewrite (override_flags rawSettings userCfg key get Hin).
    split.
    + intros [v ->]. reflexivity.
    + intros ->. reflexivity.
  - intros Hne. rewrite Merge_LoggerTypePatterns.
    destruct (LoggerTypePatterns userCfg); congruence.
  - intros He. rewrite Merge_LoggerTypePatterns, He.
    skip_overrides. reflexivity.
  - intros Hne. rewrite Merge_EnumTypeSuffixes.
    destruct (EnumTypeSuffixes userCfg); congruence.
  - intros He. rewrite Merge_EnumTypeSuffixes, He.
    skip_overrides. reflexivity.
Qed.
End New.

Lemma New_effective_witness :
  exists eff : Config,
    New _ _ unit unit Ok (fun d => Ok (fst d)) (fun d => Ok (snd d))
        (Some userSettings) = Ok (mkPlugin eff)
    /\ EnableNoPkgLogger eff = false
    /\ EnableEnumIota eff = true
    /\ EnumTypeSuffixes eff = ["Level"]
    /\ LoggerTypePatterns eff = LoggerTypePatterns DefaultConfig.
Proof.
  destruct (New_effective _ _ unit unit Ok (fun d => Ok (fst d))
              (fun d => Ok (snd d)) userSettings userSettings
              (fst userSettings) (snd userSettings)
              eq_refl eq_refl eq_refl)
    as (eff & HN & Hb & _ & HL & HE & _).
  exists eff. split; [exact HN|].
  split; [|split; [|split]].
  - apply (Hb "enable_no_pkg_logger" EnableNoPkgLogger); simpl; eauto.
  - apply (Hb "enable_enum_iota" EnableEnumIota); simpl; eauto 10.
  - apply HE. discriminate.
  - apply HL. reflexivity.
Defined.

End attgolinter_facts.

(** ** Further properties of the packages *)
Module extra_lists.

Lemma flat_map_nil {A B : Type} (f : A -> list B) (l : list A) :
  (forall x, In x l -> f x = []) -> flat_map f l = [].
Proof.
induction l as [|a l IH]; cbn; intros Hf; [reflexivity|].
rewrite (Hf a) by (left; reflexivity). apply IH.
intros x Hx. apply Hf. right. exact Hx.
Qed.

Lemma flat_map_length_le {A B : Type} (f : A -> list B) (l : list A) :
  (forall x, length (f x) <= 1) -> length (flat_map f l) <= length l.
Proof.
intros Hf. induction l as [|a l IH]; cbn; [lia|].
rewrite length_app. specialize (Hf a). lia.
Qed.

End extra_lists.

Module nopkglogger_more.
Import ast types analysis nopkglogger nopkglogger_testdata.
Import Strings_facts nopkglogger_facts extra_lists.

Lemma app_snoc_inj (a b : string) (c d : ascii) :
  a +:+ String c "" = b +:+ String d "" -> a = b /\ c = d.
Proof.
revert b. induction a as [|x a IH]; intros [|y b] He.
- rewrite !app_nil_l in He. injection He as ->. split; reflexivity.
- rewrite app_nil_l, app_cons in He. injection He as -> He.
  destruct b; rewrite ?app_nil_l, ?app_cons in He; discriminate.
- rewrite app_nil_l, app_cons in He. injection He as -> He.
  destruct a; rewrite ?app_nil_l, ?app_cons in He; discriminate.
- rewrite !app_cons in He. injection He as -> He.
  destruct (IH b He) as [-> ->]. split; reflexivity.
Qed.

(** A prefix that ends with the byte [c] is not at a boundary, unless [c]
    is a slash or a dot. *)
Lemma boundary_last (q : string) (c : ascii) :
  c <> "/"%char -> c <> "."%char ->
  ~ (q +:+ String c "" = ""
     \/ (exists p, q +:+ String c "" = p +:+ "/")
     \/ (exists p, q +:+ String c "" = p +:+ ".")).
Proof.
intros Hslash Hdot [He|[[p He]|[p He]]].
- apply (f_equal Strings.len) in He. rewrite len_app in He. cbn in He. lia.
- apply app_snoc_inj in He as [_ ->]. apply Hslash. reflexivity.
- apply app_snoc_inj in He as [_ ->]. apply Hdot. reflexivity.
Qed.

(** X5.  [matchTypePattern]: a pattern matches itself; it never matches
    when the byte before it in the type name is neither a slash nor a dot
    (so [zerolog.Logger] does not match [myzerolog.Logger]); a match needs
    the type name and the pattern to agree on the pointer marker; and a
    pattern matches the type name qualified by any path that ends with a
    slash or a dot. *)
Theorem matchTypePattern_boundary :
  (forall t, matchTypePattern t t = true)
  /\ (forall pre c pattern,
        c <> "/"%char -> c <> "."%char ->
        matchTypePattern (pre +:+ String c pattern) pattern = false)
  /\ (forall typeName pattern,
        matchTypePattern typeName pattern = true ->
        Strings.HasPrefix typeName "*" = Strings.HasPrefix pattern "*")
  /\ (forall path sep pattern,
        (sep = "/" \/ sep = ".")%char ->
        matchTypePattern ("*" +:+ path +:+ String sep pattern)
          ("*" +:+ pattern) = true
        /\ (Strings.HasPrefix path "*" = false ->
            Strings.HasPrefix pattern "*" = false ->
            matchTypePattern (path +:+ String sep pattern) pattern = true)).
Proof.
split; [|split; [|split]].
- intros t. apply matchTypePattern_matches.
  destruct (Strings.HasPrefix t "*") eqn:Hp.
  + apply HasPrefix_iff in Hp as [rest ->]. left. exists rest, rest.
    split; [reflexivity|]. split; [reflexivity|]. exists "".
    split; [reflexivity|]. left. reflexivity.
  + apply HasPrefix_false in Hp. right.
    split; [exact Hp|]. split; [exact Hp|]. exists "".
    split; [reflexivity|]. left. reflexivity.
- intros pre c pattern Hslash Hdot.
  destruct (matchTypePattern (pre +:+ String c pattern) pattern) eqn:Hm;
    [|reflexivity].
  exfalso. apply matchTypePattern_matches in Hm.
  destruct Hm as [(t & p & Ht & -> & prefix & -> & Hb)
                 |(_ & _ & prefix & Hprefix & Hb)].
  + assert (He : (pre +:+ String c "") +:+ ("*" +:+ p)
                 = ("*" +:+ prefix) +:+ p).
    { rewrite !app_assoc. exact Ht. }
    change ("*" +:+ p) with (String "*" "" +:+ p) in He.
    rewrite <- (app_assoc (pre +:+ String c "")) in He.
    apply app_inv_tail in He.
    destruct Hb as [->|[[q ->]|[q ->]]].
    * apply (f_equal Strings.len) in He. rewrite !len_app in He.
      cbn in He. lia.
    * rewrite <- (app_assoc "*" q "/") in He.
      apply app_snoc_inj in He as [_ He]. discriminate.
    * rewrite <- (app_assoc "*" q ".") in He.
      apply app_snoc_inj in He as [_ He]. discriminate.
  + assert (He : (pre +:+ String c "") +:+ pattern = prefix +:+ pattern).
    { rewrite app_assoc. exact Hprefix. }
    apply app_inv_tail in He. subst prefix.
    exact (boundary_last pre c Hslash Hdot Hb).
- intros typeName pattern Hm. apply matchTypePattern_matches in Hm.
  destruct Hm as [(t & p & -> & -> & _)|(Hp & Ht & _)].
  + transitivity true; [|symmetry]; apply HasPrefix_iff; eauto.
  + apply HasPrefix_false in Hp, Ht. rewrite Hp, Ht. reflexivity.
- intros path sep pattern Hsep.
  assert (Hb : atBoundary (path +:+ String sep pattern) pattern).
  { exists (path +:+ String sep ""). split.
    - rewrite app_assoc, app_cons, app_nil_l. reflexivity.
    - right. destruct Hsep as [->| ->]; [left|right]; exists path;
        reflexivity. }
  split.
  + apply matchTypePattern_matches. left.
    exists (path +:+ String sep pattern), pattern. auto.
  + intros Hpath Hpattern. apply matchTypePattern_matches. right.
    split; [apply HasPrefix_false; exact Hpattern|]. split; [|exact Hb].
    intros [rest He]. destruct path as [|c path].
    * rewrite app_nil_l in He. change ("*" +:+ rest) with (String "*" rest) in He.
      injection He as -> _. destruct Hsep; discriminate.
    * rewrite app_cons in He. change ("*" +:+ rest) with (String "*" rest) in He.
      injection He as -> _.
      assert (Ht : Strings.HasPrefix (String "*" path) "*" = true).
      { apply HasPrefix_iff. exists path. reflexivity. }
      rewrite Ht in Hpath. discriminate Hpath.
Qed.

Lemma matchTypePattern_boundary_witness :
  matchTypePattern "github.com/x/myzerolog.Logger" "zerolog.Logger" = false.
Proof.
apply (proj1 (proj2 matchTypePattern_boundary) "github.com/x/m" "y"%char
         "zerolog.Logger"); discriminate.
Defined.

Section WithChecker.
Context `{Checker}.

Lemma checkName_length (r : runner) (pass : Pass) (name : Ident) :
  length (checkName r pass name) <= 1.
Proof.
unfold checkName. destruct (ObjectOf pass name); [|cbn; lia].
destruct (negb _); [cbn; lia|]. destruct (isLoggerType _ _); cbn; lia.
Qed.

(** X6.  The diagnostics of [nopkglogger] and the pattern list: none
    without patterns; at most one for each identifier of a top-level value
    specification; and every diagnostic reported with a list of patterns is
    reported with any list that holds them all. *)
Theorem run_patterns (r r' : runner) (pass : Pass) :
  run (mkRunner []) pass = []
  /\ length (run r pass) <= length (topLevelNames pass)
  /\ ((forall pattern,
          In pattern (loggerTypePatterns r) ->
          In pattern (loggerTypePatterns r')) ->
      forall d, In d (run r pass) -> In d (run r' pass)).
Proof.
split; [|split].
- rewrite run_topLevelNames. apply flat_map_nil. intros name _.
  unfold checkName. destruct (ObjectOf pass name); [|reflexivity].
  destruct (negb _); reflexivity.
- rewrite run_topLevelNames. apply flat_map_length_le.
  intros name. apply checkName_length.
- intros Hincl d Hd. apply logger_run_In in Hd.
  destruct Hd as (name & obj & Hin & Hobj & Hparent & Hlogger & ->).
  apply logger_run_In. exists name, obj.
  split; [exact Hin|]. split; [exact Hobj|]. split; [exact Hparent|].
  split; [|reflexivity].
  apply isLoggerType_matches in Hlogger as (pattern & Hp & Hm).
  apply isLoggerType_matches. exists pattern. split; [apply Hincl|]; assumption.
Qed.

End WithChecker.

Lemma run_patterns_witness :
  In (report logIdent) (run (H := testChecker) testRunner testPass).
Proof.
apply (proj2 (proj2 (run_patterns (H := testChecker)
                       (mkRunner ["zerolog.Logger"]) testRunner testPass))).
- intros pattern [<-|[]]. left. reflexivity.
- vm_compute. left. reflexivity.
Defined.

End nopkglogger_more.

Module enumiota_more.
Import ast types analysis enumiota enumiota_testdata enumiota_examples.
Import List_facts enumiota_facts extra_lists.

Lemma nil_not_In {A : Type} (l : list A) : (forall x, ~ In x l) -> l = [].
Proof.
destruct l as [|a l]; [reflexivity|]. intros Hl.
destruct (Hl a). left. reflexivity.
Qed.

Lemma checkSpec_length (pass : Pass) (enumTypes : gmap string TypeSpec)
    (spec : Spec) :
  length (checkSpec pass enumTypes spec) <= 1.
Proof.
unfold checkSpec. destruct spec as [|valueSpec|]; try (cbn; lia).
destruct (vsNames valueSpec); [cbn; lia|].
destruct (ObjectOf pass _) as [obj|]; [|cbn; lia].
destruct (objType obj); try (cbn; lia).
destruct (enumTypes !! _); [|cbn; lia].
destruct (isStringType _); [|cbn; lia].
destruct (hasStringLiteralValue _); cbn; lia.
Qed.

Lemma isEnumTypeName_incl (r r' : runner) (name : string) :
  (forall suffix,
      In suffix (enumTypeSuffixes r) -> In suffix (enumTypeSuffixes r')) ->
  isEnumTypeName r name = true -> isEnumTypeName r' name = true.
Proof.
intros Hincl Hn. unfold isEnumTypeName in *.
apply existsb_exists in Hn as (suffix & Hin & Hs).
apply existsb_exists. exists suffix. split; [apply Hincl|]; assumption.
Qed.

(** X7.  The diagnostics of [enumiota] and the suffix list: none without
    suffixes; at most one for each specification of a top-level constant
    declaration; and every diagnostic reported with a list of suffixes is
    reported with any list that holds them all. *)
Theorem run_suffixes (r r' : runner) (pass : Pass) :
  run (mkRunner []) pass = []
  /\ length (run r pass) <= length (topLevelSpecs token.CONST pass)
  /\ ((forall suffix,
          In suffix (enumTypeSuffixes r) ->
          In suffix (enumTypeSuffixes r')) ->
      forall d, In d (run r pass) -> In d (run r' pass)).
Proof.
split; [|split].
- apply nil_not_In. intros d Hd. apply enum_run_In in Hd.
  destruct Hd as (_ & _ & _ & _ & typeName & _ & _ & _ & _ & [Hc _] & _).
  discriminate Hc.
- rewrite run_specs. apply flat_map_length_le. intros spec.
  apply checkSpec_length.
- intros Hincl d Hd. apply enum_run_In in Hd.
  destruct Hd as (valueSpec & name0 & rest & obj & typeName & Hin & Hnames
                  & Hobj & Htype & [Hname Hdecl] & Hvalue & ->).
  apply enum_run_In. exists valueSpec, name0, rest, obj, typeName.
  do 4 (split; [assumption|]).
  split; [|split; [exact Hvalue|reflexivity]].
  split; [|exact Hdecl]. exact (isEnumTypeName_incl r r' _ Hincl Hname).
Qed.

Lemma run_suffixes_witness :
  In (report (mkIdent 200 "SANTypeDNS")) (run defaultRunner sanPass).
Proof.
apply (proj2 (proj2 (run_suffixes (mkRunner ["Type"]) defaultRunner
                       sanPass))).
- intros suffix [<-|[]]. left. reflexivity.
- vm_compute. left. reflexivity.
Defined.

(** X8.  What [enumiota] reports depends on the unit only through the
    set of its top-level type specifications, the set of its top-level
    constant specifications and the objects of the identifiers: the order
    of the declarations and the files they stand in do not matter, and a
    constant may be declared before its type. *)
Theorem run_declaration_order (r : runner) (pass pass' : Pass) :
  (forall name, ObjectOf pass' name = ObjectOf pass name) ->
  (forall spec,
      In spec (topLevelSpecs token.TYPE pass) <->
      In spec (topLevelSpecs token.TYPE pass')) ->
  (forall spec,
      In spec (topLevelSpecs token.CONST pass) <->
      In spec (topLevelSpecs token.CONST pass')) ->
  forall d, In d (run r pass) <-> In d (run r pass').
Proof.
intros Hobj Htypes Hconsts d.
assert (Hhalf : forall p p' : Pass,
  (forall name, ObjectOf p' name = ObjectOf p name) ->
  (forall spec,
      In spec (topLevelSpecs token.TYPE p) <->
      In spec (topLevelSpecs token.TYPE p')) ->
  (forall spec,
      In spec (topLevelSpecs token.CONST p) <->
      In spec (topLevelSpecs token.CONST p')) ->
  In d (run r p) -> In d (run r p')).
{ clear. intros p p' Hobj Htypes Hconsts Hd. apply enum_run_In in Hd.
  destruct Hd as (valueSpec & name0 & rest & obj & typeName & Hin & Hnames
                  & Hname0 & Htype & [Hname (typeSpec & Hdecl & Hts)]
                  & Hvalue & ->).
  apply enum_run_In. exists valueSpec, name0, rest, obj, typeName.
  split; [apply Hconsts; exact Hin|]. split; [exact Hnames|].
  split; [rewrite Hobj; exact Hname0|]. split; [exact Htype|].
  split; [|split; [exact Hvalue|reflexivity]].
  split; [exact Hname|]. exists typeSpec.
  split; [apply Htypes; exact Hdecl|exact Hts]. }
split; apply Hhalf; try assumption.
- intros name. symmetry. apply Hobj.
- intros spec. symmetry. apply Htypes.
- intros spec. symmetry. apply Hconsts.
Qed.

Lemma run_declaration_order_witness :
  In (report (mkIdent 200 "SANTypeDNS")) (run defaultRunner sanPassForward).
Proof.
apply (run_declaration_order defaultRunner sanPass sanPassForward).
- intros name. reflexivity.
- intros spec. vm_compute. tauto.
- intros spec. vm_compute. tauto.
- vm_compute. left. reflexivity.
Defined.

End enumiota_more.

Module structfieldorder_more.
Import ast analysis structfieldorder structfieldorder_testdata.
Import structfieldorder_examples structfieldorder_facts.
Local Open Scope Z_scope.

Lemma check_scan (structName : string) (fields : list Field) :
  checkStructFieldOrder structName (Some fields) =
    reported (fold_left (step structName) (namedFields fields)
                (mkLoopState categoryUnknown "" [])).
Proof.
unfold checkStructFieldOrder. destruct fields as [|f fields];
  [reflexivity|]. rewrite fold_fields. reflexivity.
Qed.

Lemma namedFields_filter (fields : list Field) :
  namedFields
    (List.filter (fun f => negb (length (fieldNames f) =? 0)%nat) fields) =
  namedFields fields.
Proof.
induction fields as [|f fields IH]; [reflexivity|]. cbn [List.filter].
destruct f as [names typ]. destruct names as [|n names]; cbn.
- exact IH.
- f_equal. unfold namedFields in IH. rewrite IH. reflexivity.
Qed.

Lemma namedFields_split (names names' : list Ident) (typ : Expr)
    (fields : list Field) :
  namedFields (mkField (names ++ names') typ :: fields) =
  namedFields (mkField names typ :: mkField names' typ :: fields).
Proof.
unfold namedFields. cbn. rewrite map_app, <- app_assoc. reflexivity.
Qed.

(** X9.  [checkStructFieldOrder] depends on the fields only through the
    list of (name, type) pairs in declared order: embedded fields are
    ignored, and declaring several names in one field is the same as
    declaring them one by one. *)
Theorem checkStructFieldOrder_namedFields (structName : string)
    (fields : list Field) :
  (forall fields',
      namedFields fields = namedFields fields' ->
      checkStructFieldOrder structName (Some fields) =
      checkStructFieldOrder structName (Some fields'))
  /\ checkStructFieldOrder structName
       (Some (List.filter
                (fun f => negb (length (fieldNames f) =? 0)%nat) fields)) =
     checkStructFieldOrder structName (Some fields)
  /\ (forall names names' typ,
        checkStructFieldOrder structName
          (Some (mkField (names ++ names') typ :: fields)) =
        checkStructFieldOrder structName
          (Some (mkField names typ :: mkField names' typ :: fields))).
Proof.
split; [|split].
- intros fields' He. rewrite !check_scan, He. reflexivity.
- rewrite !check_scan, namedFields_filter. reflexivity.
- intros names names' typ. rewrite !check_scan, namedFields_split.
  reflexivity.
Qed.

Lemma checkStructFieldOrder_namedFields_witness :
  checkStructFieldOrder "BadService" (Some BadService) =
  checkStructFieldOrder "BadService" (Some BadServiceGrouped).
Proof.
apply (proj1 (checkStructFieldOrder_namedFields "BadService" BadService)).
reflexivity.
Defined.

Lemma scan_length (structName : string) (l : list (Ident * Expr))
    (st : loopState) :
  (length (reported (fold_left (step structName) l st)) <=
     length (reported st) + length l)%nat.
Proof.
revert st. induction l as [|f l IH]; intros st; cbn [fold_left length];
  [lia|].
etransitivity; [apply IH|]. rewrite step_eq. cbn [reported].
destruct (_ <? _); rewrite ?length_app; cbn [length]; lia.
Qed.

(** X10.  A struct with [n] named fields gets at most [n - 1]
    diagnostics, and none of them is placed at its first named field. *)
Theorem checkStructFieldOrder_bound (structName : string)
    (fields : list Field) :
  (length (checkStructFieldOrder structName (Some fields)) <=
     length (namedFields fields) - 1)%nat
  /\ (forall d,
        In d (checkStructFieldOrder structName (Some fields)) ->
        exists a pre b post,
          namedFields fields = a :: pre ++ b :: post
          /\ Pos d = NamePos (fst b)).
Proof.
split.
- rewrite check_scan. destruct (namedFields fields) as [|f l]; [cbn; lia|].
  cbn [fold_left]. etransitivity; [apply scan_length|].
  rewrite step_eq. cbn [reported lastCategory toInt].
  destruct (Z.ltb_spec (toInt (category f)) 0) as [Hlt|_].
  + pose proof (toInt_nonneg (category f)). lia.
  + cbn [length]. lia.
- intros d Hd. apply check_In in Hd.
  destruct Hd as (pre & a & b & post & Hfields & _ & ->).
  destruct pre as [|a' pre].
  + exists a, [], b, post. split; [exact Hfields|reflexivity].
  + exists a', (pre ++ [a]), b, post. split; [|reflexivity].
    rewrite Hfields. cbn. rewrite <- app_assoc. reflexivity.
Qed.

Lemma checkStructFieldOrder_bound_witness :
  exists a pre b post,
    namedFields BadService = a :: pre ++ b :: post
    /\ Pos (reportAfter "BadService" (mkIdent 31 "mu", syncMutex)
              (mkIdent 32 "log", emptyInterface)) = NamePos (fst b).
Proof.
apply (proj2 (checkStructFieldOrder_bound "BadService" BadService)).
vm_compute. left. reflexivity.
Defined.

Lemma adjacent_Sorted {A : Type} (R : A -> A -> Prop) (l : list A) :
  (forall pre a b post, l = pre ++ a :: b :: post -> R a b) -> Sorted R l.
Proof.
induction l as [|a l IH]; intros Hadj; [constructor|].
constructor.
- apply IH. intros pre x y post ->. apply (Hadj (a :: pre) x y post).
  reflexivity.
- destruct l as [|b l]; constructor. apply (Hadj [] a b l). reflexivity.
Qed.

Lemma inOrder_trans (a b c : Ident * Expr) :
  inOrder a b -> inOrder b c -> inOrder a c.
Proof. unfold inOrder. lia. Qed.

Lemma check_nil_Sorted (structName : string) (fields : list Field) :
  checkStructFieldOrder structName (Some fields) = [] <->
    Sorted inOrder (namedFields fields).
Proof.
split.
- intros Hnil. apply adjacent_Sorted. intros pre a b post Hfields.
  unfold inOrder.
  destruct (Z.le_gt_cases (toInt (category a)) (toInt (category b)))
    as [Hle|Hgt]; [exact Hle|].
  exfalso.
  assert (Hin : In (reportAfter structName a b)
                   (checkStructFieldOrder structName (Some fields))).
  { apply check_In. exists pre, a, b, post.
    split; [exact Hfields|]. split; [lia|reflexivity]. }
  rewrite Hnil in Hin. exact Hin.
- intros Hsorted.
  destruct (checkStructFieldOrder structName (Some fields)) as [|d l] eqn:He;
    [reflexivity|].
  exfalso.
  assert (Hin : In d (checkStructFieldOrder structName (Some fields))).
  { rewrite He. left. reflexivity. }
  apply check_In in Hin as (pre & a & b & post & Hfields & Hlt & _).
  rewrite Hfields in Hsorted. apply Sorted_adjacent in Hsorted.
  unfold inOrder in Hsorted. lia.
Qed.

Lemma StronglySorted_sublist {A : Type} (R : A -> A -> Prop)
    (l1 l2 : list A) :
  sublist l1 l2 -> StronglySorted R l2 -> StronglySorted R l1.
Proof.
induction 1 as [|x l1 l2 Hsub IH|x l1 l2 Hsub IH]; intros Hs.
- constructor.
- apply StronglySorted_inv in Hs as [Hs Hall]. constructor; [auto|].
  rewrite List.Forall_forall in *. intros y Hy. apply Hall.
  apply list_elem_of_In. apply list_elem_of_In in Hy.
  exact (elem_of_sublist _ _ _ Hy Hsub).
- apply StronglySorted_inv in Hs as [Hs _]. auto.
Qed.

Lemma namedFields_sublist (p : Field -> bool) (fields : list Field) :
  sublist (namedFields (List.filter p fields)) (namedFields fields).
Proof.
induction fields as [|f fields IH]; [constructor|].
cbn [List.filter]. destruct (p f).
- unfold namedFields in *. cbn [flat_map]. apply sublist_app; [reflexivity|].
  exact IH.
- unfold namedFields in *. cbn [flat_map]. apply sublist_inserts_l. exact IH.
Qed.

(** X11.  A struct gets no diagnostic exactly when the categories of its
    named fields never decrease in declared order; hence removing field
    declarations from a struct without diagnostics leaves it without
    diagnostics, whatever the name of the struct. *)
Theorem checkStructFieldOrder_clean (structName : string)
    (fields : list Field) :
  (checkStructFieldOrder structName (Some fields) = [] <->
     Sorted inOrder (namedFields fields))
  /\ (forall (keep : Field -> bool) (structName' : string),
        checkStructFieldOrder structName (Some fields) = [] ->
        checkStructFieldOrder structName' (Some (List.filter keep fields)) =
          []).
Proof.
split; [apply check_nil_Sorted|].
intros keep structName' Hnil. apply check_nil_Sorted.
apply check_nil_Sorted in Hnil.
apply StronglySorted_Sorted.
apply (StronglySorted_sublist _ _ _ (namedFields_sublist keep fields)).
apply Sorted_StronglySorted; [|exact Hnil].
intros a b c. apply inOrder_trans.
Qed.

Lemma checkStructFieldOrder_clean_witness :
  checkStructFieldOrder "Locks"
    (Some (List.filter (fun f => isSyncType (fieldType f)) GoodService)) = [].
Proof.
apply (proj2 (checkStructFieldOrder_clean "GoodService" GoodService)).
reflexivity.
Defined.

Lemma lowerByte_idem (c : ascii) :
  Strings.lowerByte (Strings.lowerByte c) = Strings.lowerByte c.
Proof.
destruct c as [[] [] [] [] [] [] [] []]; reflexivity.
Qed.

Lemma ToLower_idem (s : string) :
  Strings.ToLower (Strings.ToLower s) = Strings.ToLower s.
Proof.
induction s as [|c s IH]; [reflexivity|]. cbn [Strings.ToLower].
rewrite lowerByte_idem, IH. reflexivity.
Qed.

(** X23.  [categorizeField] does not depend on the case of the ASCII
    letters of the field name: two names with the same lower-casing get
    the same category, and so do a name and its lower-casing; and the
    category is never the unknown one. *)
Theorem categorizeField_case (name : string) (typ : Expr) :
  categorizeField (Strings.ToLower name) typ = categorizeField name typ
  /\ (forall name',
        Strings.ToLower name' = Strings.ToLower name ->
        categorizeField name' typ = categorizeField name typ)
  /\ categorizeField name typ <> categoryUnknown.
Proof.
split; [|split].
- unfold categorizeField. rewrite ToLower_idem. reflexivity.
- intros name' He. unfold categorizeField. rewrite He. reflexivity.
- apply categorizeField_known.
Qed.

Lemma categorizeField_case_witness :
  categorizeField "LOGGER" emptyInterface =
  categorizeField "logger" emptyInterface.
Proof.
apply (proj1 (proj2 (categorizeField_case "logger" emptyInterface))).
reflexivity.
Defined.

End structfieldorder_more.

Module capitalcomment_more.
Import ast analysis unicode capitalcomment capitalcomment_testdata.
Import extra_lists.

Section WithTables.
Context `{Tables}.




End WithTables.
End capitalcomment_more.

Module structfieldorder_run.
Import ast analysis structfieldorder structfieldorder_testdata.
Import structfieldorder_facts.
Local Open Scope Z_scope.

(** X12.  [run] of [structfieldorder] reports exactly, for each type
    specification of a top-level declaration whose type is a struct type,
    each named field that directly follows a field of a later category. *)
Theorem fieldorder_run_In (pass : Pass) (d : Diagnostic) :
  In d (run pass) <->
    exists file genDecl typeSpec fields pre a b post,
      In file (Files pass)
      /\ In (DGen genDecl) (Decls file)
      /\ In (SType typeSpec) (Specs genDecl)
      /\ tsType typeSpec = StructType (Some fields)
      /\ namedFields fields = pre ++ a :: b :: post
      /\ toInt (category b) < toInt (category a)
      /\ d = reportAfter (Name (tsName typeSpec)) a b.
Proof.
unfold run. rewrite in_flat_map. split.
- intros (file & Hfile & Hd). apply in_flat_map in Hd as (decl & Hdecl & Hd).
  destruct decl as [genDecl|fn]; [|destruct Hd].
  apply in_flat_map in Hd as (spec & Hspec & Hd).
  destruct spec as [|vs|typeSpec]; try destruct Hd.
  destruct (tsType typeSpec) as [| | | | | | | | |Fields| |] eqn:Ht;
    try destruct Hd.
  destruct Fields as [fields|]; [|destruct Hd].
  apply check_In in Hd as (pre & a & b & post & Hn & Hlt & ->).
  exists file, genDecl, typeSpec, fields, pre, a, b, post. auto 10.
- intros (file & genDecl & typeSpec & fields & pre & a & b & post & Hfile
          & Hdecl & Hspec & Ht & Hn & Hlt & ->).
  exists file. split; [exact Hfile|]. apply in_flat_map.
  exists (DGen genDecl). split; [exact Hdecl|]. apply in_flat_map.
  exists (SType typeSpec). split; [exact Hspec|]. rewrite Ht.
  apply check_In. exists pre, a, b, post. auto.
Qed.

End structfieldorder_run.

Module funcopts_more.
Import ast analysis funcopts funcopts_testdata funcopts_facts.





End funcopts_more.

Module interfacecheck_more.
Import ast types analysis interfacecheck interfacecheck_testdata.
Import interfacecheck_examples.
Import Strings_facts List_facts interfacecheck_facts.

Lemma findInSpecs_app (name : string) (l1 l2 : list Spec) :
  findInSpecs name (l1 ++ l2) =
    match findInSpecs name l1 with
    | Some pos => Some pos
    | None => findInSpecs name l2
    end.
Proof.
induction l1 as [|spec l1 IH]; [reflexivity|].
cbn [app findInSpecs]. destruct spec as [|vs|ts]; try exact IH.
destruct (String.eqb _ _); [reflexivity|exact IH].
Qed.

Lemma findInDecls_specs (name : string) (decls : list Decl) :
  findInDecls name decls =
    findInSpecs name
      (flat_map (fun decl =>
         match decl with
         | DGen genDecl => Specs genDecl
         | _ => []
         end) decls).
Proof.
induction decls as [|decl decls IH]; [reflexivity|].
cbn [findInDecls flat_map]. destruct decl as [genDecl|fn]; [|exact IH].
rewrite findInSpecs_app, IH. reflexivity.
Qed.

Lemma findInFiles_specs (name : string) (files : list File) :
  findInFiles name files =
    findInSpecs name
      (flat_map (fun file =>
         flat_map (fun decl =>
           match decl with
           | DGen genDecl => Specs genDecl
           | _ => []
           end) (Decls file)) files).
Proof.
induction files as [|file files IH]; [reflexivity|].
cbn [findInFiles flat_map].
rewrite findInSpecs_app, findInDecls_specs, IH. reflexivity.
Qed.

Lemma findInSpecs_None (name : string) (specs : list Spec) :
  findInSpecs name specs = None <->
    forall typeSpec,
      In (SType typeSpec) specs -> Name (tsName typeSpec) <> name.
Proof.
induction specs as [|spec specs IH].
- split; [intros _ ts []|reflexivity].
- cbn [findInSpecs]. destruct spec as [|vs|ts].
  + rewrite IH. split; intros Hall ts Hin; apply Hall;
      [destruct Hin as [Hin|Hin]; [discriminate|exact Hin]|right; exact Hin].
  + rewrite IH. split; intros Hall ts Hin; apply Hall;
      [destruct Hin as [Hin|Hin]; [discriminate|exact Hin]|right; exact Hin].
  + destruct (String.eqb_spec (Name (tsName ts)) name) as [He|Hne].
    * split; [discriminate|]. intros Hall. destruct (Hall ts); [left|];
        auto.
    * rewrite IH. split; intros Hall ts' Hin.
      -- destruct Hin as [Hin|Hin]; [injection Hin as <-; exact Hne|].
         apply Hall. exact Hin.
      -- apply Hall. right. exact Hin.
Qed.

Lemma findInSpecs_first (name : string) (pre post : list Spec)
    (typeSpec : TypeSpec) :
  Name (tsName typeSpec) = name ->
  (forall ts, In (SType ts) pre -> Name (tsName ts) <> name) ->
  findInSpecs name (pre ++ SType typeSpec :: post) =
    Some (NamePos (tsName typeSpec)).
Proof.
intros Hname Hpre. rewrite findInSpecs_app.
rewrite (proj2 (findInSpecs_None name pre) Hpre).
cbn [findInSpecs]. rewrite Hname, String.eqb_refl. reflexivity.
Qed.

Lemma findInSpecs_Some (name : string) (specs : list Spec) (pos : token.Pos) :
  findInSpecs name specs = Some pos ->
  exists pre typeSpec post,
    specs = pre ++ SType typeSpec :: post
    /\ Name (tsName typeSpec) = name
    /\ (forall ts, In (SType ts) pre -> Name (tsName ts) <> name)
    /\ pos = NamePos (tsName typeSpec).
Proof.
induction specs as [|spec specs IH]; [discriminate|].
cbn [findInSpecs].
assert (Hskip : (forall ts, spec <> SType ts) ->
  findInSpecs name specs = Some pos ->
  exists pre typeSpec post,
    spec :: specs = pre ++ SType typeSpec :: post
    /\ Name (tsName typeSpec) = name
    /\ (forall ts, In (SType ts) pre -> Name (tsName ts) <> name)
    /\ pos = NamePos (tsName typeSpec)).
{ intros Hspec Hf. destruct (IH Hf) as (pre & ts & post & -> & Hn & Hp & ->).
  exists (spec :: pre), ts, post. split; [reflexivity|].
  split; [exact Hn|]. split; [|reflexivity].
  intros ts' [Hin|Hin]; [destruct (Hspec ts' Hin)|exact (Hp ts' Hin)]. }
destruct spec as [|vs|ts]; try (apply Hskip; discriminate).
destruct (String.eqb_spec (Name (tsName ts)) name) as [He|Hne].
- intros Hf. injection Hf as <-. exists [], ts, specs.
  split; [reflexivity|]. split; [exact He|]. split; [intros ? []|reflexivity].
- intros Hf. destruct (IH Hf) as (pre & ts' & post & -> & Hn & Hp & ->).
  exists (SType ts :: pre), ts', post. split; [reflexivity|].
  split; [exact Hn|]. split; [|reflexivity].
  intros ts'' [Hin|Hin]; [injection Hin as <-; exact Hne|exact (Hp ts'' Hin)].
Qed.

(** X14.  [findStructPos] returns the position of the name of the first
    top-level type specification with the given name, in the order of the
    files and of their declarations, and [NoPos] when no top-level type
    specification has that name. *)
Theorem findStructPos_first (pass : Pass) (name : string) :
  (forall pre typeSpec post,
      declaredSpecs pass = pre ++ SType typeSpec :: post ->
      Name (tsName typeSpec) = name ->
      (forall ts, In (SType ts) pre -> Name (tsName ts) <> name) ->
      findStructPos pass name = NamePos (tsName typeSpec))
  /\ ((forall typeSpec,
         In (SType typeSpec) (declaredSpecs pass) ->
         Name (tsName typeSpec) <> name) ->
      findStructPos pass name = token.NoPos)
  /\ (findStructPos pass name <> token.NoPos ->
      exists typeSpec,
        In (SType typeSpec) (declaredSpecs pass)
        /\ Name (tsName typeSpec) = name
        /\ findStructPos pass name = NamePos (tsName typeSpec)).
Proof.
unfold findStructPos, declaredSpecs. rewrite findInFiles_specs.
split; [|split].
- intros pre typeSpec post -> Hname Hpre.
  rewrite (findInSpecs_first name pre post typeSpec Hname Hpre).
  reflexivity.
- intros Hall. rewrite (proj2 (findInSpecs_None name _) Hall). reflexivity.
- destruct (findInSpecs name _) as [pos|] eqn:Hf; [|intros Hne; now destruct Hne].
  intros _. apply findInSpecs_Some in Hf as (pre & ts & post & He & Hn & _ & ->).
  exists ts. split; [|split; [exact Hn|reflexivity]].
  rewrite He. apply in_or_app. right. left. reflexivity.
Qed.

Lemma findStructPos_first_witness :
  findStructPos testPass "BadWriter" = 380%Z
  /\ findStructPos testPass "Missing" = token.NoPos.
Proof.
split.
- apply (proj1 (findStructPos_first testPass "BadWriter")
           [ SType (mkTypeSpec (mkIdent 70 "Reader")
                      (interfaceWith (mkIdent 80 "Read")));
             SType (mkTypeSpec (mkIdent 120 "Writer")
                      (interfaceWith (mkIdent 130 "Write")));
             SType (mkTypeSpec (mkIdent 170 "Closer")
                      (interfaceWith (mkIdent 180 "Close")));
             SType (mkTypeSpec (mkIdent 220 "EmptyInterface")
                      (InterfaceType (Some [])));
             SType (mkTypeSpec (mkIdent 270 "GoodReader")
                      (StructType (Some [])));
             assertion ]
           (mkTypeSpec (mkIdent 380 "BadWriter") (StructType (Some [])))
           [ SType (mkTypeSpec (mkIdent 450 "BadCloser")
                      (StructType (Some [])));
             SType (mkTypeSpec (mkIdent 540 "Helper")
                      (StructType (Some []))) ]).
  + reflexivity.
  + reflexivity.
  + intros ts Hin. cbn in Hin.
    repeat destruct Hin as [Hin|Hin]; try contradiction;
      try discriminate Hin; injection Hin as <-; discriminate.
- apply (proj1 (proj2 (findStructPos_first testPass "Missing"))).
  intros ts Hin. cbn in Hin.
  repeat destruct Hin as [Hin|Hin]; try contradiction;
    try discriminate Hin; injection Hin as <-; discriminate.
Defined.

Lemma topLevelSpecs_withAssertion (pass : Pass) (pos : token.Pos)
    (ifaceName structName : string) :
  topLevelSpecs token.VAR (withAssertion pass pos ifaceName structName) =
    topLevelSpecs token.VAR pass ++ [assertionFor pos ifaceName structName].
Proof.
unfold topLevelSpecs, withAssertion. cbn [Files].
rewrite flat_map_app. reflexivity.
Qed.

Lemma findStructPos_withAssertion (pass : Pass) (pos : token.Pos)
    (ifaceName structName name : string) :
  findStructPos (withAssertion pass pos ifaceName structName) name =
    findStructPos pass name.
Proof.
unfold findStructPos, withAssertion. cbn [Files].
rewrite !findInFiles_specs, flat_map_app, findInSpecs_app.
destruct (findInSpecs name _); reflexivity.
Qed.

Lemma records_assertionFor (pos : token.Pos) (ifaceName structName k : string) :
  ifaceName <> "" -> structName <> "" ->
  (records (assertionFor pos ifaceName structName) k <->
     k = key ifaceName structName).
Proof.
intros Hi Hs. unfold records, assertionFor. split.
- intros (vs & name & He & _ & _ & _ & _ & <-). injection He as <-.
  cbn. reflexivity.
- intros ->. eexists _, _. split; [reflexivity|].
  split; [reflexivity|]. split; [reflexivity|].
  cbn. split; [exact Hi|]. split; [exact Hs|reflexivity].
Qed.

Lemma existingChecks_withAssertion (pass : Pass) (pos : token.Pos)
    (ifaceName structName k : string) :
  ifaceName <> "" -> structName <> "" ->
  (index (collectExistingChecks
            (withAssertion pass pos ifaceName structName)) k = true <->
     index (collectExistingChecks pass) k = true
     \/ k = key ifaceName structName).
Proof.
intros Hi Hs.
rewrite !collectExistingChecks_specs, topLevelSpecs_withAssertion.
rewrite !checks_fold_index. split.
- intros [He|(spec & Hin & Hrec)]; [discriminate He|].
  apply in_app_or in Hin as [Hin|[<-|[]]].
  + left. right. exists spec. split; assumption.
  + right. apply (records_assertionFor pos); assumption.
- intros [[He|(spec & Hin & Hrec)]| ->]; [discriminate He| |].
  + right. exists spec. split; [apply in_or_app; left|]; assumption.
  + right. exists (assertionFor pos ifaceName structName).
    split; [apply in_or_app; right; left; reflexivity|].
    apply records_assertionFor; auto.
Qed.

Section WithChecker.
Context `{Checker}.

(** X15.  Adding the declaration a diagnostic suggests, [var _ I = ( *S)(nil)]
    in a file of its own, removes the pair of [S] and [I] from the
    reported pairs and changes nothing else. *)
Theorem withAssertion_silences (pass : Pass) (pos : token.Pos)
    (ifaceName structName : string) :
  identifier ifaceName -> identifier structName ->
  forall s i,
    In (s, i) (flaggedPairs (withAssertion pass pos ifaceName structName)) <->
      In (s, i) (flaggedPairs pass) /\ (s, i) <> (structName, ifaceName).
Proof.
intros [Hi Hic] [Hs Hsc] s i. rewrite !flaggedPairs_In.
rewrite findStructPos_withAssertion.
assert (Hidx :
  index (collectExistingChecks
           (withAssertion pass pos ifaceName structName)) (key i s) = false <->
  index (collectExistingChecks pass) (key i s) = false
  /\ (s, i) <> (structName, ifaceName)).
{ rewrite <- !not_true_iff_false.
  rewrite (existingChecks_withAssertion pass pos ifaceName structName
             (key i s) Hi Hs).
  split.
  - intros Hn. split; [tauto|]. intros He. injection He as -> ->.
    apply Hn. right. reflexivity.
  - intros [Hn Hne] [Ht|Hk]; [exact (Hn Ht)|]. apply Hne.
    symmetry in Hk. apply key_inj in Hk as [-> ->]; auto. }
change (isStruct (withAssertion pass pos ifaceName structName) s)
  with (isStruct pass s).
change (satisfies (withAssertion pass pos ifaceName structName) s i)
  with (satisfies pass s i).
assert (Hiface : (exists n,
           isInterface (withAssertion pass pos ifaceName structName) i n
           /\ 0 < n) <-> (exists n, isInterface pass i n /\ 0 < n)).
{ reflexivity. }
rewrite Hiface, Hidx. tauto.
Qed.

End WithChecker.

Lemma withAssertion_silences_witness :
  ~ In ("BadWriter", "Writer")
       (flaggedPairs (H := testChecker)
          (withAssertion testPass 600 "Writer" "BadWriter"))
  /\ In ("BadCloser", "Closer")
        (flaggedPairs (H := testChecker)
           (withAssertion testPass 600 "Writer" "BadWriter")).
Proof.
assert (Hw : identifier "Writer") by (split; [discriminate|reflexivity]).
assert (Hb : identifier "BadWriter") by (split; [discriminate|reflexivity]).
pose proof (withAssertion_silences (H := testChecker) testPass 600%Z
              "Writer" "BadWriter" Hw Hb) as Hiff.
split.
- intros Hin. apply (proj1 (Hiff "BadWriter" "Writer")) in Hin.
  destruct Hin as [_ Hne]. apply Hne. reflexivity.
- apply (proj2 (Hiff "BadCloser" "Closer")). split; [|discriminate].
  vm_compute. right. left. reflexivity.
Defined.

End interfacecheck_more.

Module currentyear_more.
Import ast analysis regexp currentyear currentyear_testdata.
Import currentyear_examples.
Import Strings_facts regexp_facts currentyear_facts extra_lists.

Lemma matchStar_stop {R : Type} (p : ascii -> bool) (s : string)
    (cap : option string) (k : cont (R := R)) :
  headNot p s -> matchStar p s cap k = k s cap.
Proof.
destruct s as [|c s]; cbn; [reflexivity|]. intros ->. reflexivity.
Qed.

Lemma matchStar_app_Some {R : Type} (p : ascii -> bool) (ws rest : string)
    (cap : option string) (k : cont (R := R)) (res : R) :
  all p ws -> matchStar p rest cap k = Some res ->
  matchStar p (ws +:+ rest) cap k = Some res.
Proof.
intros Hws Hrest. induction ws as [|c ws IH]; [exact Hrest|].
apply all_cons in Hws as [Hc Hws]. rewrite app_cons.
cbn [matchStar]. rewrite Hc, (IH Hws). reflexivity.
Qed.

Lemma matchStar_greedy {R : Type} (p : ascii -> bool) (ws rest : string)
    (cap : option string) (k : cont (R := R)) (res : R) :
  all p ws -> headNot p rest -> k rest cap = Some res ->
  matchStar p (ws +:+ rest) cap k = Some res.
Proof.
intros Hws Hhead Hk. apply matchStar_app_Some; [exact Hws|].
rewrite matchStar_stop; assumption.
Qed.

Lemma year_bytes (y : string) :
  isYear y ->
  exists a b c d,
    y = String a (String b (String c (String d "")))
    /\ digit a = true /\ digit b = true /\ digit c = true
    /\ digit d = true.
Proof.
intros [Hlen Hall].
destruct y as [|a [|b [|c [|d [|e y]]]]]; try discriminate Hlen.
exists a, b, c, d. split; [reflexivity|].
unfold all in Hall. cbn in Hall.
repeat (apply andb_prop in Hall as [? Hall]). auto.
Qed.

Lemma year_head (y rest : string) : isYear y -> headNot space (y +:+ rest).
Proof.
intros Hy. destruct (year_bytes y Hy) as (a & b & c & d & -> & Ha & _).
rewrite app_cons. cbn [headNot].
unfold digit in Ha. apply andb_prop in Ha as [Hlo Hhi].
apply Nat.leb_le in Hlo, Hhi.
destruct (space a) eqn:Hs; [|reflexivity]. exfalso.
unfold space in Hs. cbn [existsb] in Hs.
repeat (apply orb_prop in Hs as [Hs|Hs];
        [apply Ascii.eqb_eq in Hs; subst a; vm_compute in Hlo; lia|]).
discriminate Hs.
Qed.

Lemma repeat_year {R : Type} (y post : string) (cap : option string)
    (k : cont (R := R)) :
  isYear y ->
  matchRe (Repeat 4 (CharClass digit)) (y +:+ post) cap k = k post cap.
Proof.
intros Hy. destruct (year_bytes y Hy)
  as (a & b & c & d & -> & Ha & Hb & Hc & Hd).
rewrite !app_cons, app_nil_l. cbn [matchRe]. rewrite Ha, Hb, Hc, Hd.
reflexivity.
Qed.

Lemma capture_year {R : Type} (y post : string) (cap : option string)
    (k : cont (R := R)) :
  isYear y ->
  matchRe (Capture (Repeat 4 (CharClass digit))) (y +:+ post) cap k =
    k post (Some y).
Proof.
intros Hy.
change (matchRe (Capture (Repeat 4 (CharClass digit))) (y +:+ post) cap k)
  with (matchRe (Repeat 4 (CharClass digit)) (y +:+ post) cap
          (fun s' _ =>
             k s' (Some (Strings.take
                           (Strings.len (y +:+ post) - Strings.len s')
                           (y +:+ post))))).
rewrite repeat_year by exact Hy.
rewrite len_app. replace (Strings.len y + Strings.len post - Strings.len post)
  with (Strings.len y) by lia.
rewrite take_app. reflexivity.
Qed.

Lemma literal_app {R : Type} (l rest : string) (cap : option string)
    (k : cont (R := R)) :
  matchRe (Literal l) (l +:+ rest) cap k = k rest cap.
Proof.
cbn [matchRe].
rewrite (proj2 (HasPrefix_iff (l +:+ rest) l)) by (exists rest; reflexivity).
rewrite drop_app. reflexivity.
Qed.

Lemma space_not_dash (c : ascii) (s : string) :
  space c = true -> Strings.HasPrefix (String c s) "-" = false.
Proof.
intros Hs. unfold Strings.HasPrefix. cbn.
destruct (Ascii.eqb_spec c "-") as [->|_]; [discriminate Hs|reflexivity].
Qed.

Lemma dash_none {R : Type} (post : string) (cap : option string)
    (k : cont (R := R)) :
  noRange post ->
  matchStar space post cap
    (fun s' cap' =>
       matchRe (Concat (Literal "-") (StarClass space)) s' cap' k) = None.
Proof.
unfold noRange. induction post as [|c post IH]; intros Hn.
- reflexivity.
- cbn [matchStar]. cbn [skipSpaces] in Hn. destruct (space c) eqn:Hs.
  + rewrite (IH Hn). cbn [matchRe]. rewrite (space_not_dash c post Hs).
    reflexivity.
  + cbn [matchRe]. rewrite Hn. reflexivity.
Qed.

Lemma range_skip {R : Type} (y post : string) (cap : option string)
    (k : cont (R := R)) :
  isYear y -> noRange post ->
  matchRe rangePart (y +:+ post) cap k = k (y +:+ post) cap.
Proof.
intros Hy Hn.
change (matchRe rangePart (y +:+ post) cap k)
  with (match matchRe (Repeat 4 (CharClass digit)) (y +:+ post) cap
                (fun s' cap' =>
                   matchStar space s' cap'
                     (fun s'' cap'' =>
                        matchRe (Concat (Literal "-") (StarClass space))
                          s'' cap'' k))
        with
        | Some res => Some res
        | None => k (y +:+ post) cap
        end).
rewrite repeat_year by exact Hy. rewrite dash_none by exact Hn.
reflexivity.
Qed.

Lemma dash_head (rest : string) : headNot space ("-" +:+ rest).
Proof. reflexivity. Qed.

Lemma range_take {R : Type} (y ws2 ws3 rest : string) (cap : option string)
    (k : cont (R := R)) (res : R) :
  isYear y -> all space ws2 -> all space ws3 -> headNot space rest ->
  k rest cap = Some res ->
  matchRe rangePart (y +:+ ws2 +:+ "-" +:+ ws3 +:+ rest) cap k = Some res.
Proof.
intros Hy Hws2 Hws3 Hhead Hk.
change (matchRe rangePart (y +:+ ws2 +:+ "-" +:+ ws3 +:+ rest) cap k)
  with (match matchRe (Repeat 4 (CharClass digit))
                (y +:+ ws2 +:+ "-" +:+ ws3 +:+ rest) cap
                (fun s' cap' =>
                   matchStar space s' cap'
                     (fun s'' cap'' =>
                        matchRe (Literal "-") s'' cap''
                          (fun s3 cap3 => matchStar space s3 cap3 k)))
        with
        | Some res => Some res
        | None => k (y +:+ ws2 +:+ "-" +:+ ws3 +:+ rest) cap
        end).
rewrite repeat_year by exact Hy.
rewrite (matchStar_greedy space ws2 ("-" +:+ ws3 +:+ rest) cap _ res);
  [reflexivity|exact Hws2|apply dash_head|].
rewrite literal_app. apply matchStar_greedy; assumption.
Qed.

Lemma digit_head_sign {R : Type} (y rest : string) (cap : option string)
    (k : cont (R := R)) :
  isYear y -> matchRe signPart (y +:+ rest) cap k = k (y +:+ rest) cap.
Proof.
intros Hy. destruct (year_bytes y Hy) as (a & b & c & d & -> & Ha & _).
rewrite !app_cons, app_nil_l. cbn [matchRe signPart].
unfold digit in Ha. apply andb_prop in Ha as [Hlo Hhi].
apply Nat.leb_le in Hlo, Hhi.
assert (H1 : Strings.HasPrefix
               (String a (String b (String c (String d rest)))) "©" = false).
{ unfold Strings.HasPrefix. cbn.
  destruct (Ascii.eqb_spec a "194") as [->|_];
    [vm_compute in Hlo, Hhi; lia|reflexivity]. }
assert (H2 : Strings.HasPrefix
               (String a (String b (String c (String d rest)))) "(c)" = false).
{ unfold Strings.HasPrefix. cbn.
  destruct (Ascii.eqb_spec a "(") as [->|_];
    [vm_compute in Hlo, Hhi; lia|reflexivity]. }
rewrite H1, H2. reflexivity.
Qed.

Lemma sign_take {R : Type} (sign rest : string) (cap : option string)
    (k : cont (R := R)) (res : R) :
  sign = "©" \/ sign = "(c)" ->
  k rest cap = Some res ->
  matchRe signPart (sign +:+ rest) cap k = Some res.
Proof.
intros [->| ->] Hk.
- change (matchRe signPart ("©" +:+ rest) cap k)
    with (match
            match matchRe (Literal "©") ("©" +:+ rest) cap k with
            | Some res => Some res
            | None => matchRe (Literal "(c)") ("©" +:+ rest) cap k
            end
          with
          | Some res => Some res
          | None => k ("©" +:+ rest) cap
          end).
  rewrite literal_app, Hk. reflexivity.
- change (matchRe signPart ("(c)" +:+ rest) cap k)
    with (match
            match matchRe (Literal "©") ("(c)" +:+ rest) cap k with
            | Some res => Some res
            | None => matchRe (Literal "(c)") ("(c)" +:+ rest) cap k
            end
          with
          | Some res => Some res
          | None => k ("(c)" +:+ rest) cap
          end).
  rewrite literal_app, Hk.
  replace (matchRe (Literal "©") ("(c)" +:+ rest) cap k) with (@None R);
    [reflexivity|].
  rewrite !app_cons, app_nil_l. reflexivity.
Qed.

Lemma sign_head (sign rest : string) :
  sign = "©" \/ sign = "(c)" -> headNot space (sign +:+ rest).
Proof. intros [->| ->]; reflexivity. Qed.

Lemma digit_value (c : ascii) :
  digit c = true -> (0 <= Z.of_nat (nat_of_ascii c - 48) <= 9)%Z.
Proof.
unfold digit. intros Hd. apply andb_prop in Hd as [Hlo Hhi].
apply Nat.leb_le in Hlo, Hhi. lia.
Qed.

Lemma digits_range (s : string) :
  forall acc z,
    strconv.digits s acc = Some z ->
    (acc * 10 ^ Z.of_nat (String.length s) <= z
     < (acc + 1) * 10 ^ Z.of_nat (String.length s))%Z.
Proof.
induction s as [|c s IH]; intros acc z Hd.
- cbn in Hd. injection Hd as <-. cbn. lia.
- cbn [strconv.digits] in Hd. destruct (digit c) eqn:Hc; [|discriminate].
  apply IH in Hd. pose proof (digit_value c Hc) as Hv.
  cbn [String.length]. rewrite Nat2Z.inj_succ, Z.pow_succ_r by lia.
  set (n := (10 ^ Z.of_nat (String.length s))%Z) in *.
  assert (0 < n)%Z by (apply Z.pow_pos_nonneg; lia).
  nia.
Qed.

Lemma year_range (yearStr : string) (year : Z) :
  isYear yearStr -> strconv.Atoi yearStr = Some year ->
  (0 <= year <= 9999)%Z.
Proof.
intros [Hlen _] Ha. unfold strconv.Atoi in Ha.
destruct yearStr as [|c s]; [discriminate|].
apply digits_range in Ha. rewrite Hlen in Ha. cbn in Ha. lia.
Qed.

Lemma range_starts (range yearStr post : string) :
  rangeBefore range post -> isYear yearStr ->
  exists y rest, range +:+ yearStr +:+ post = y +:+ rest /\ isYear y.
Proof.
intros [[-> _]|(y & ws2 & ws3 & -> & Hy & _)] Hyear.
- exists yearStr, post. split; [reflexivity|exact Hyear].
- exists y, (ws2 +:+ "-" +:+ ws3 +:+ yearStr +:+ post).
  split; [|exact Hy]. rewrite !app_assoc. reflexivity.
Qed.

Lemma range_year {R : Type} (range yearStr post : string)
    (cap : option string) (k : cont (R := R)) (res : R) :
  rangeBefore range post -> isYear yearStr ->
  k post (Some yearStr) = Some res ->
  matchRe rangePart (range +:+ yearStr +:+ post) cap
    (fun s' cap' =>
       matchRe (Capture (Repeat 4 (CharClass digit))) s' cap' k) = Some res.
Proof.
intros [[-> Hn]|(y & ws2 & ws3 & -> & Hy & Hws2 & Hws3)] Hyear Hk.
- rewrite app_nil_l, range_skip by assumption.
  rewrite capture_year by exact Hyear. exact Hk.
- replace ((y +:+ ws2 +:+ "-" +:+ ws3) +:+ yearStr +:+ post)
    with (y +:+ ws2 +:+ "-" +:+ ws3 +:+ (yearStr +:+ post))
    by (rewrite !app_assoc; reflexivity).
  apply range_take; try assumption; [apply year_head; exact Hyear|].
  rewrite capture_year by exact Hyear. exact Hk.
Qed.

Lemma pattern_header (c : ascii) (ws sign ws' range yearStr post : string) :
  (c = "C" \/ c = "c")%char ->
  all space ws ->
  (sign = "©" \/ sign = "(c)" \/ (sign = "" /\ ws' = "")) ->
  all space ws' ->
  rangeBefore range post ->
  isYear yearStr ->
  exists whole,
    FindStringSubmatch copyrightYearPattern
      (String c "opyright" +:+ ws +:+ sign +:+ ws' +:+ range +:+ yearStr
       +:+ post) = [whole; yearStr].
Proof.
intros Hc Hws Hsign Hws' Hrange Hyear.
set (text := String c "opyright" +:+ ws +:+ sign +:+ ws' +:+ range
             +:+ yearStr +:+ post).
set (k := fun (s' : string) (cap : option string) =>
            Some [ Strings.take (Strings.len text - Strings.len s') text;
                   match cap with Some g => g | None => "" end ]).
exists (Strings.take (Strings.len text - Strings.len post) text).
assert (Hm : matchAt copyrightYearPattern text =
             Some [ Strings.take (Strings.len text - Strings.len post) text;
                    yearStr ]).
{ assert (Hk : k post (Some yearStr) =
               Some [ Strings.take (Strings.len text - Strings.len post) text;
                      yearStr ]) by reflexivity.
  pose proof (range_year range yearStr post None k _ Hrange Hyear Hk)
    as Htail.
  destruct (range_starts range yearStr post Hrange Hyear)
    as (y & rest & Hstart & Hy).
  assert (Hhead : headNot space (range +:+ yearStr +:+ post)).
  { rewrite Hstart. apply year_head. exact Hy. }
  unfold matchAt. fold k. unfold text. rewrite app_cons.
  change (matchRe copyrightYearPattern
            (String c ("opyright" +:+ ws +:+ sign +:+ ws' +:+ range
                       +:+ yearStr +:+ post)) None k)
    with (if (Ascii.eqb c "C" || Ascii.eqb c "c")%bool
          then matchRe (Literal "opyright")
                 ("opyright" +:+ ws +:+ sign +:+ ws' +:+ range +:+ yearStr
                  +:+ post) None
                 (fun s1 cap1 =>
                    matchStar space s1 cap1
                      (fun s2 cap2 =>
                         matchRe signPart s2 cap2
                           (fun s3 cap3 =>
                              matchStar space s3 cap3
                                (fun s4 cap4 =>
                                   matchRe rangePart s4 cap4
                                     (fun s5 cap5 =>
                                        matchRe
                                          (Capture
                                             (Repeat 4 (CharClass digit)))
                                          s5 cap5 k)))))
          else None).
  replace (Ascii.eqb c "C" || Ascii.eqb c "c")%bool with true
    by (destruct Hc as [->| ->]; reflexivity).
  rewrite literal_app.
  destruct Hsign as [Hs|[Hs|[-> ->]]].
  - apply matchStar_greedy;
      [exact Hws|apply sign_head; left; exact Hs|].
    apply sign_take; [left; exact Hs|].
    apply matchStar_greedy; assumption.
  - apply matchStar_greedy;
      [exact Hws|apply sign_head; right; exact Hs|].
    apply sign_take; [right; exact Hs|].
    apply matchStar_greedy; assumption.
  - rewrite !app_nil_l.
    apply matchStar_greedy; [exact Hws|exact Hhead|].
    rewrite Hstart, digit_head_sign by exact Hy. rewrite <- Hstart.
    rewrite matchStar_stop by exact Hhead. exact Htail. }
unfold text in *. rewrite app_cons in *.
cbn [FindStringSubmatch]. rewrite Hm. reflexivity.
Qed.

Section WithText.
Variable CommentText : CommentGroup -> string.

(** X16.  For each file, either [checkFile] reports nothing whatever the
    current year, or there is a year between 0 and 9999, the one of the
    header, such that the file is reported exactly when the current year
    is later. *)
Theorem checkFile_threshold (file : File) :
  (forall currentYear, checkFile CommentText file currentYear = [])
  \/ (exists year,
        (0 <= year <= 9999)%Z
        /\ forall currentYear,
             checkFile CommentText file currentYear <> [] <->
             (year < currentYear)%Z).
Proof.
unfold checkFile. destruct (Comments file) as [|cg0 rest]; [left; reflexivity|].
destruct (header file) as [cg|]; [|left; reflexivity].
destruct (FindStringSubmatch copyrightYearPattern (CommentText cg))
  as [|whole [|yearStr more]] eqn:Hf; try (left; reflexivity).
destruct (found_year _ _ _ _ Hf)
  as [(pre & c & ws & sign & ws' & range & post & _ & _ & _ & _ & _ & _ & Hy)
      _].
destruct (strconv.Atoi yearStr) as [year|] eqn:Ha; [|left; reflexivity].
right. exists year. split; [exact (year_range yearStr year Hy Ha)|].
intros currentYear. destruct (Z.ltb_spec year currentYear) as [Hlt|Hge].
- split; [intros _; exact Hlt|discriminate].
- split; [intros Hne; now destruct Hne|lia].
Qed.

(** X17.  A header whose text starts with [Copyright] or [copyright],
    white space, an optional sign ([©] or [(c)]) with white space, an
    optional first year of a range with its hyphen, and four digits, is
    recognised: the year checked is that of the four digits (the last year
    of a range), and the file is reported exactly when that year is
    earlier than the current year. *)
Theorem checkFile_header (file : File) (cg : CommentGroup) (c : ascii)
    (ws sign ws' range yearStr post : string) (currentYear : Z) :
  header file = Some cg ->
  CommentText cg =
    String c "opyright" +:+ ws +:+ sign +:+ ws' +:+ range +:+ yearStr
    +:+ post ->
  (c = "C" \/ c = "c")%char ->
  all space ws ->
  (sign = "©" \/ sign = "(c)" \/ (sign = "" /\ ws' = "")) ->
  all space ws' ->
  rangeBefore range post ->
  isYear yearStr ->
  exists year,
    strconv.Atoi yearStr = Some year
    /\ checkFile CommentText file currentYear =
         if (year <? currentYear)%Z
         then [report cg year currentYear] else [].
Proof.
intros Hheader Htext Hc Hws Hsign Hws' Hrange Hyear.
destruct (pattern_header c ws sign ws' range yearStr post
            Hc Hws Hsign Hws' Hrange Hyear) as [whole Hfind].
destruct (Atoi_total yearStr) as [year Hatoi];
  [destruct Hyear as [Hlen _]; intros ->; discriminate Hlen
  |exact (proj2 Hyear)|].
exists year. split; [exact Hatoi|].
unfold checkFile. rewrite Hheader.
destruct (Comments file) as [|cg0 rest] eqn:Hcomments.
- unfold header in Hheader. rewrite Hcomments in Hheader.
  discriminate Hheader.
- rewrite Htext, Hfind, Hatoi. reflexivity.
Qed.

End WithText.
Lemma checkFile_header_witness :
  exists year,
    strconv.Atoi "2026" = Some year
    /\ checkFile testText
         (fileWith "// Copyright © 2023-2026 Attestant Limited.") 2027 =
       if (year <? 2027)%Z
       then [report
               (mkCommentGroup
                  [ mkComment 1 "// Copyright © 2023-2026 Attestant Limited.";
                    mkComment 40
                      "// Licensed under the Apache License, Version 2.0" ])
               year 2027]
       else [].
Proof.
apply (checkFile_header testText
         (fileWith "// Copyright © 2023-2026 Attestant Limited.")
         (mkCommentGroup
            [ mkComment 1 "// Copyright © 2023-2026 Attestant Limited.";
              mkComment 40
                "// Licensed under the Apache License, Version 2.0" ])
         "C" " " "©" " " "2023-" "2026"
         (" Attestant Limited." +:+ String "010" ""
          +:+ "Licensed under the Apache License, Version 2.0"
          +:+ String "010" "")
         2027).
- reflexivity.
- reflexivity.
- left. reflexivity.
- reflexivity.
- left. reflexivity.
- reflexivity.
- right. exists "2023", "", "".
  split; [reflexivity|]. split; [split; reflexivity|].
  split; reflexivity.
- split; reflexivity.
Defined.

End currentyear_more.

Module rawstring_facts.
Import ast analysis rawstring rawstring_testdata Strings_facts.

(** Induction on a string two bytes at a time, as the scanners read it. *)
Lemma string_ind2 (P : string -> Prop) :
  P "" ->
  (forall c, P (String c "")) ->
  (forall c d s, P s -> P (String d s) -> P (String c (String d s))) ->
  forall s, P s.
Proof.
intros H0 H1 H2 s.
assert (Hboth : P s /\ forall c, P (String c s)).
{ induction s as [|d s [IH IH']]; [split; [exact H0|exact H1]|].
  split; [apply IH'|]. intros c. apply H2; [exact IH|apply IH']. }
exact (proj1 Hboth).
Qed.

Lemma len_take (n : nat) (s : string) :
  Strings.len (Strings.take n s) = Nat.min n (Strings.len s).
Proof.
revert s. induction n as [|n IH]; intros [|c s]; cbn; try reflexivity.
f_equal. apply IH.
Qed.

Lemma len_drop (n : nat) (s : string) :
  Strings.len (Strings.drop n s) = Strings.len s - n.
Proof.
revert s. induction n as [|n IH]; intros [|c s]; cbn; try reflexivity.
apply IH.
Qed.

Lemma len_unquote (s : string) : Strings.len (unquote s) = Strings.len s - 2.
Proof.
unfold unquote. rewrite len_take, len_drop. lia.
Qed.

Lemma countFrom_step (c d : ascii) (s : string) (count : nat) :
  countFrom (String c (String d s)) count =
    if Ascii.eqb c backslash
    then countFrom s (if counted d then S count else count)
    else countFrom (String d s) count.
Proof. reflexivity. Qed.

Lemma interpretFrom_step (c d : ascii) (s : string) :
  interpretFrom (String c (String d s)) =
    if Ascii.eqb c backslash
    then String (unescape d) (interpretFrom s)
    else String c (interpretFrom (String d s)).
Proof. reflexivity. Qed.

Lemma countFrom_bound (s : string) :
  forall count, 2 * countFrom s count <= 2 * count + Strings.len s.
Proof.
induction s as [|c|c d s IH IH'] using string_ind2; intros count.
- cbn. lia.
- cbn. lia.
- rewrite countFrom_step. destruct (Ascii.eqb c backslash).
  + specialize (IH (if counted d then S count else count)).
    unfold Strings.len in *. cbn [String.length] in *.
    destruct (counted d); lia.
  + specialize (IH' count). unfold Strings.len in *.
    cbn [String.length] in *. lia.
Qed.

Lemma occurrences_take (c : ascii) (n : nat) (s : string) :
  occurrences c (Strings.take n s) <= occurrences c s.
Proof.
revert s. induction n as [|n IH]; intros [|c' s]; cbn; try lia.
specialize (IH s). lia.
Qed.

Lemma occurrences_drop (c : ascii) (n : nat) (s : string) :
  occurrences c (Strings.drop n s) <= occurrences c s.
Proof.
revert s. induction n as [|n IH]; intros [|c' s]; cbn; try lia.
specialize (IH s). lia.
Qed.

Lemma occurrences_unquote (c : ascii) (s : string) :
  occurrences c (unquote s) <= occurrences c s.
Proof.
unfold unquote.
etransitivity; [apply occurrences_take|apply occurrences_drop].
Qed.

Lemma countFrom_backslashes (s : string) :
  forall count, countFrom s count <= count + occurrences backslash s.
Proof.
induction s as [|c|c d s IH IH'] using string_ind2; intros count.
- cbn. lia.
- cbn. lia.
- rewrite countFrom_step. cbn [occurrences]. destruct (Ascii.eqb c backslash).
  + specialize (IH (if counted d then S count else count)).
    destruct (counted d); lia.
  + specialize (IH' count). cbn [occurrences] in IH'. lia.
Qed.

Lemma interpretFrom_plain (s : string) :
  occurrences backslash s = 0 -> interpretFrom s = s.
Proof.
induction s as [|c|c d s IH IH'] using string_ind2; intros Hs;
  try reflexivity.
rewrite interpretFrom_step. cbn [occurrences] in Hs.
destruct (Ascii.eqb c backslash); [discriminate|].
f_equal. apply IH'. exact Hs.
Qed.

Lemma Contains_byte (c : ascii) (s : string) :
  Strings.Contains s (String c "") = true <-> 0 < occurrences c s.
Proof.
induction s as [|c' s IH].
- cbn. split; [discriminate|lia].
- cbn [Strings.Contains occurrences].
  replace (Strings.HasPrefix (String c' s) (String c ""))
    with (Ascii.eqb c' c).
  2:{ unfold Strings.HasPrefix. cbn. destruct (Ascii.eqb c' c); reflexivity. }
  rewrite orb_true_iff, IH. destruct (Ascii.eqb c' c).
  + split; [lia|auto].
  + split; [intros [Hf|Hs]; [discriminate|lia]|intros Hs; right; lia].
Qed.

Lemma unescape_backtick : unescape backtick = backtick.
Proof. reflexivity. Qed.

Lemma interpretFrom_backtick (s : string) :
  0 < occurrences backtick s -> 0 < occurrences backtick (interpretFrom s).
Proof.
induction s as [|c|c d s IH IH'] using string_ind2; intros Hs.
- exact Hs.
- exact Hs.
- rewrite interpretFrom_step. destruct (Ascii.eqb c backslash) eqn:Hc.
  + apply Ascii.eqb_eq in Hc. subst c.
    cbn [occurrences] in *.
    destruct (Ascii.eqb d backtick) eqn:Hd.
    * apply Ascii.eqb_eq in Hd. subst d. cbn. lia.
    * change (Ascii.eqb backslash backtick) with false in Hs.
      cbn [Nat.add] in Hs. specialize (IH Hs). lia.
  + cbn [occurrences] in *.
    destruct (Ascii.eqb c backtick); [lia|].
    cbn [Nat.add] in *. apply IH'. exact Hs.
Qed.

(** X19.  [countEscapes] counts at most one escape for every two bytes
    between the quotes, so a literal of fewer than eight bytes is never
    reported. *)
Theorem countEscapes_half (pos : token.Pos) (value : string) :
  2 * countEscapes value <= Strings.len value - 2
  /\ (Strings.len value < 8 -> checkStringLiteral pos value = []).
Proof.
assert (Hb : 2 * countEscapes value <= Strings.len value - 2).
{ unfold countEscapes. destruct (Strings.len value <? 2)%nat; [lia|].
  pose proof (countFrom_bound (unquote value) 0) as Hc.
  rewrite len_unquote in Hc. lia. }
split; [exact Hb|]. intros Hlen. unfold checkStringLiteral.
destruct (negb _); [reflexivity|].
destruct (Strings.Contains _ _); [reflexivity|].
destruct (Nat.leb_spec minEscapesForWarning (countEscapes value)) as [Hge|Hlt];
  [|reflexivity].
unfold minEscapesForWarning in Hge. lia.
Qed.

Lemma countEscapes_half_witness :
  Strings.len short < 8 /\ checkStringLiteral 7 short = [].
Proof.
split; [vm_compute; lia|].
apply (proj2 (countEscapes_half 7%Z short)). vm_compute. lia.
Defined.

(** X20.  [countEscapes] counts at most as many escapes as the literal
    has backslashes; a literal without a backslash is never reported, and
    [interpretString] returns the text between its quotes unchanged. *)
Theorem countEscapes_backslashes (pos : token.Pos) (value : string) :
  countEscapes value <= occurrences backslash value
  /\ (occurrences backslash value = 0 ->
      checkStringLiteral pos value = []
      /\ (2 <= Strings.len value -> interpretString value = unquote value)).
Proof.
assert (Hb : countEscapes value <= occurrences backslash value).
{ unfold countEscapes. destruct (Strings.len value <? 2)%nat; [lia|].
  pose proof (countFrom_backslashes (unquote value) 0) as Hc.
  pose proof (occurrences_unquote backslash value). lia. }
split; [exact Hb|]. intros H0. split.
- unfold checkStringLiteral.
  destruct (negb _); [reflexivity|].
  destruct (Strings.Contains _ _); [reflexivity|].
  destruct (Nat.leb_spec minEscapesForWarning (countEscapes value))
    as [Hge|Hlt]; [|reflexivity].
  unfold minEscapesForWarning in Hge. lia.
- intros Hlen. unfold interpretString.
  destruct (Nat.ltb_spec (Strings.len value) 2) as [Hlt|_]; [lia|].
  apply interpretFrom_plain.
  pose proof (occurrences_unquote backslash value). lia.
Qed.

Lemma countEscapes_backslashes_witness :
  checkStringLiteral 9 plain = []
  /\ interpretString plain = "hello world".
Proof.
destruct (proj2 (countEscapes_backslashes 9%Z plain)) as [Hc Hi];
  [reflexivity|].
split; [exact Hc|]. rewrite Hi; [reflexivity|vm_compute; lia].
Defined.

(** X21.  A literal with a backtick between its quotes, escaped or not,
    is never reported. *)
Theorem checkStringLiteral_backtick (pos : token.Pos) (value : string) :
  2 <= Strings.len value ->
  0 < occurrences backtick (unquote value) ->
  checkStringLiteral pos value = [].
Proof.
intros Hlen Hb. unfold checkStringLiteral.
destruct (negb _); [reflexivity|].
replace (Strings.Contains (interpretString value) (String backtick ""))
  with true; [reflexivity|].
symmetry. apply Contains_byte. unfold interpretString.
destruct (Nat.ltb_spec (Strings.len value) 2) as [Hlt|_]; [lia|].
apply interpretFrom_backtick. exact Hb.
Qed.

Lemma checkStringLiteral_backtick_witness :
  checkStringLiteral 11 withBacktick = [].
Proof.
apply (checkStringLiteral_backtick 11%Z withBacktick); vm_compute; lia.
Defined.

Section WithInspect.
Variable Nodes : File -> list Expr.

(** X22.  [run] of [rawstring] reports exactly the string literals among
    the nodes of the files that start with a double quote, have no
    backtick in their interpreted text and count three escapes or more,
    each at its position and with its count. *)
Theorem rawstring_run_In (pass : Pass) (d : Diagnostic) :
  In d (run Nodes pass) <->
    exists file pos value,
      In file (Files pass)
      /\ In (BasicLit pos token.STRING value) (Nodes file)
      /\ Strings.HasPrefix value (String quote "") = true
      /\ Strings.Contains (interpretString value) (String backtick "") = false
      /\ 3 <= countEscapes value
      /\ d = report pos (countEscapes value).
Proof.
unfold run. rewrite in_flat_map. split.
- intros (file & Hfile & Hd). apply in_flat_map in Hd as (n & Hn & Hd).
  destruct n as [|pos kind value| | | | | | | | | |]; try destruct Hd.
  destruct kind; try destruct Hd. cbn [visit] in Hd.
  unfold checkStringLiteral in Hd.
  destruct (Strings.HasPrefix value (String quote "")) eqn:Hq;
    [|destruct Hd].
  cbn [negb] in Hd.
  destruct (Strings.Contains (interpretString value) (String backtick ""))
    eqn:Hb; [destruct Hd|].
  destruct (Nat.leb_spec minEscapesForWarning (countEscapes value))
    as [Hge|Hlt]; [|destruct Hd].
  destruct Hd as [<-|[]]. exists file, pos, value. auto 10.
- intros (file & pos & value & Hfile & Hn & Hq & Hb & Hge & ->).
  exists file. split; [exact Hfile|]. apply in_flat_map.
  exists (BasicLit pos token.STRING value). split; [exact Hn|].
  cbn [visit]. unfold checkStringLiteral. rewrite Hq, Hb. cbn [negb].
  destruct (Nat.leb_spec minEscapesForWarning (countEscapes value))
    as [_|Hlt]; [left; reflexivity|].
  unfold minEscapesForWarning in Hlt. lia.
Qed.

End WithInspect.

End rawstring_facts.

Module plugin_facts.
Import analysis attgolinter attgolinter_testdata plugin.

Lemma analyzerFlags_NoDup : NoDup (map fst analyzerFlags).
Proof.
cbn.
repeat (constructor; [rewrite list_elem_of_In; cbn; intuition discriminate|]).
constructor.
Qed.

Lemma NoDup_map_filter {A B : Type} (f : A -> B) (p : A -> bool)
    (l : list A) :
  NoDup (map f l) -> NoDup (map f (List.filter p l)).
Proof.
induction l as [|a l IH]; cbn; intros Hnd; [constructor|].
apply NoDup_cons in Hnd as [Hnotin Hnd'].
destruct (p a); [|apply IH; exact Hnd'].
cbn. apply NoDup_cons. split; [|apply IH; exact Hnd'].
intros Hin. apply Hnotin.
apply list_elem_of_In, in_map_iff in Hin as (x & Hx & Hin).
apply filter_In in Hin.
apply list_elem_of_In, in_map_iff. exists x. tauto.
Qed.

Lemma filter_sublist {A : Type} (p : A -> bool) (l : list A) :
  sublist (List.filter p l) l.
Proof.
induction l as [|a l IH]; cbn; [constructor|].
destruct (p a); constructor; exact IH.
Qed.

Section Analyzers.
Context `{types.Checker} `{unicode.Tables}.
Variable CommentText : ast.CommentGroup -> string.
Variable Nodes : ast.File -> list ast.Expr.
Variable currentYear : Z.

(** The appends of [BuildAnalyzers], as one list with the disabled entries
    left out. *)
Lemma BuildAnalyzers_eq (p : Plugin) :
  BuildAnalyzers CommentText Nodes currentYear p =
    flat_map (fun e : bool * Analyzer => if fst e then [snd e] else [])
      [ (EnableNoPkgLogger (cfg p),
         nopkglogger_NewAnalyzer (LoggerTypePatterns (cfg p)));
        (EnableEnumIota (cfg p),
         enumiota_NewAnalyzer (EnumTypeSuffixes (cfg p)));
        (EnableCurrentYear (cfg p),
         currentyear_Analyzer CommentText currentYear);
        (EnableCapitalComment (cfg p), capitalcomment_Analyzer);
        (EnableFuncOpts (cfg p), funcopts_Analyzer);
        (EnableRawString (cfg p), rawstring_Analyzer Nodes);
        (EnableStructFieldOrder (cfg p), structfieldorder_Analyzer);
        (EnableInterfaceCheck (cfg p), interfacecheck_Analyzer) ].
Proof.
unfold BuildAnalyzers.
destruct (EnableNoPkgLogger (cfg p)), (EnableEnumIota (cfg p)),
  (EnableCurrentYear (cfg p)), (EnableCapitalComment (cfg p)),
  (EnableFuncOpts (cfg p)), (EnableRawString (cfg p)),
  (EnableStructFieldOrder (cfg p)), (EnableInterfaceCheck (cfg p));
  reflexivity.
Qed.

Lemma BuildAnalyzers_names (p : Plugin) :
  map Name (BuildAnalyzers CommentText Nodes currentYear p) =
    map fst (List.filter (fun e => snd e (cfg p)) analyzerFlags).
Proof.
rewrite BuildAnalyzers_eq. unfold analyzerFlags.
cbn [flat_map List.filter fst snd].
destruct (EnableNoPkgLogger (cfg p)), (EnableEnumIota (cfg p)),
  (EnableCurrentYear (cfg p)), (EnableCapitalComment (cfg p)),
  (EnableFuncOpts (cfg p)), (EnableRawString (cfg p)),
  (EnableStructFieldOrder (cfg p)), (EnableInterfaceCheck (cfg p));
  reflexivity.
Qed.

(** X3.  [BuildAnalyzers] builds an analyzer exactly when its flag is set
    in the configuration of the plugin; no analyzer is built twice; the
    analyzers come in the fixed order of priority; and there are as many as
    flags set. *)
Theorem BuildAnalyzers_enabled (p : Plugin) :
  (forall name flag,
      In (name, flag) analyzerFlags ->
      (In name (map Name (BuildAnalyzers CommentText Nodes currentYear p))
       <-> flag (cfg p) = true))
  /\ NoDup (map Name (BuildAnalyzers CommentText Nodes currentYear p))
  /\ sublist (map Name (BuildAnalyzers CommentText Nodes currentYear p))
             (map fst analyzerFlags)
  /\ length (BuildAnalyzers CommentText Nodes currentYear p) =
       length (List.filter (fun e => snd e (cfg p)) analyzerFlags).
Proof.
split; [|split; [|split]].
- intros name flag Hin. rewrite BuildAnalyzers_names. split.
  + intros Hn. apply in_map_iff in Hn as ([name' flag'] & Hname & Hf).
    apply filter_In in Hf as [Hin' Hflag]. cbn in Hname, Hflag. subst name'.
    replace flag with flag'; [exact Hflag|].
    pose proof analyzerFlags_NoDup as Hnd.
    clear - Hin Hin' Hnd. unfold analyzerFlags in *. cbn in Hin, Hin'.
    repeat destruct Hin as [Hin|Hin]; try contradiction;
      injection Hin as <- <-;
      repeat destruct Hin' as [Hin'|Hin']; try contradiction;
      try discriminate; injection Hin' as <-; reflexivity.
  + intros Hflag. apply in_map_iff. exists (name, flag).
    split; [reflexivity|]. apply filter_In. split; assumption.
- rewrite BuildAnalyzers_names. apply NoDup_map_filter.
  exact analyzerFlags_NoDup.
- rewrite BuildAnalyzers_names. apply fmap_sublist, filter_sublist.
- rewrite <- (length_map Name), BuildAnalyzers_names, length_map.
  reflexivity.
Qed.

(** X4.  Of the analyzers [BuildAnalyzers] builds, the one named
    [attgo_no_pkg_logger] runs [nopkglogger] with the logger type patterns
    of the configuration, and the one named [attgo_enum_iota] runs
    [enumiota] with its enum type suffixes. *)
Theorem BuildAnalyzers_parameters (p : Plugin) (a : Analyzer) :
  In a (BuildAnalyzers CommentText Nodes currentYear p) ->
  (Name a = "attgo_no_pkg_logger" ->
   Run a = nopkglogger.run
             (nopkglogger.mkRunner (LoggerTypePatterns (cfg p))))
  /\ (Name a = "attgo_enum_iota" ->
      Run a = enumiota.run (enumiota.mkRunner (EnumTypeSuffixes (cfg p)))).
Proof.
rewrite BuildAnalyzers_eq. intros Hin.
apply in_flat_map in Hin as ([b a'] & Hin & Ha). cbn [fst snd] in Ha.
destruct b; [|contradiction]. destruct Ha as [<-|[]].
cbn in Hin.
repeat destruct Hin as [Hin|Hin]; try contradiction;
  injection Hin as _ <-; split; intros Hname;
  try discriminate Hname; reflexivity.
Qed.

End Analyzers.

Lemma BuildAnalyzers_enabled_witness :
  In "attgo_current_year"
     (map Name
        (BuildAnalyzers (H := nopkglogger_testdata.testChecker)
           (H0 := capitalcomment_testdata.asciiTables)
           currentyear_testdata.testText (fun _ => []) 2026
           (mkPlugin DefaultConfig))).
Proof.
apply (proj1 (BuildAnalyzers_enabled (H := nopkglogger_testdata.testChecker)
                (H0 := capitalcomment_testdata.asciiTables)
                currentyear_testdata.testText (fun _ => []) 2026
                (mkPlugin DefaultConfig))
         "attgo_current_year" EnableCurrentYear).
- right. right. left. reflexivity.
- reflexivity.
Defined.

Lemma BuildAnalyzers_parameters_witness :
  Run (nopkglogger_NewAnalyzer (H := nopkglogger_testdata.testChecker)
         (LoggerTypePatterns DefaultConfig)) =
    nopkglogger.run (H := nopkglogger_testdata.testChecker)
      (nopkglogger.mkRunner (LoggerTypePatterns DefaultConfig)).
Proof.
apply (proj1 (BuildAnalyzers_parameters
                (H := nopkglogger_testdata.testChecker)
                (H0 := capitalcomment_testdata.asciiTables)
                currentyear_testdata.testText (fun _ => []) 2026
                (mkPlugin DefaultConfig)
                (nopkglogger_NewAnalyzer
                   (H := nopkglogger_testdata.testChecker)
                   (LoggerTypePatterns DefaultConfig))
                (or_introl eq_refl))).
reflexivity.
Defined.

End plugin_facts.

Module config_facts.
Import attgolinter attgolinter_testdata.

(** X1.  Merging configurations composes: merging [a] and then [b] into
    [c] is merging into [c] the merge of [b] into [a] (a later non-empty
    list wins); merging the same configuration twice is merging it once;
    and merging a configuration into itself changes nothing. *)
Theorem Merge_assoc (c a b : Config) :
  Merge (Merge c (Some a)) (Some b) = Merge c (Some (Merge a (Some b)))
  /\ Merge (Merge c (Some a)) (Some a) = Merge c (Some a)
  /\ Merge c (Some c) = c.
Proof.
destruct c as [c1 c2 c3 c4 c5 c6 c7 c8 cl ce],
  a as [a1 a2 a3 a4 a5 a6 a7 a8 al ae],
  b as [b1 b2 b3 b4 b5 b6 b7 b8 bl be].
split; [|split].
- destruct al, ae, bl, be; reflexivity.
- destruct al, ae; reflexivity.
- destruct cl, ce; reflexivity.
Qed.

Section New.
Variables Settings Data Any Error : Type.
Variable Marshal : Settings -> result Error Data.
Variable UnmarshalConfig : Data -> result Error Config.
Variable UnmarshalMap : Data -> result Error (gmap string Any).

(** X2.  [New] on nil settings gives the plugin of the default
    configuration.  It fails exactly when the settings are not nil and one
    of the three steps of the JSON round trip fails (encoding, decoding
    into a [Config], decoding into a map), and then with the error of the
    first step that fails. *)
Theorem New_error (settings : option Settings) (err : Error) :
  New Settings Data Any Error Marshal UnmarshalConfig UnmarshalMap None =
    Ok (mkPlugin DefaultConfig)
  /\ (New Settings Data Any Error Marshal UnmarshalConfig UnmarshalMap
         settings = Err err <->
       exists s,
         settings = Some s
         /\ (Marshal s = Err err
             \/ exists data,
                  Marshal s = Ok data
                  /\ (UnmarshalConfig data = Err err
                      \/ exists userCfg,
                           UnmarshalConfig data = Ok userCfg
                           /\ UnmarshalMap data = Err err))).
Proof.
split; [reflexivity|]. unfold New. split.
- destruct settings as [s|]; [|discriminate]. intros Hnew. exists s.
  split; [reflexivity|].
  destruct (Marshal s) as [data|e]; [|left; congruence]. right.
  exists data. split; [reflexivity|].
  destruct (UnmarshalConfig data) as [userCfg|e]; [|left; congruence].
  right. exists userCfg. split; [reflexivity|].
  destruct (UnmarshalMap data) as [rawSettings|e]; [discriminate|congruence].
- intros (s & -> & [Hm|(data & Hm & [Hc|(userCfg & Hc & Hr)])]);
    rewrite Hm; try reflexivity; rewrite Hc; try reflexivity; rewrite Hr;
    reflexivity.
Qed.

End New.
End config_facts.
